(** * Polymarket ETH "UP" bot: the one-hour session of [bot.py]

    A shallow embedding of [src/bot.py].  Python's [float] is IEEE 754
    binary64 with round-to-nearest-even, which is what Rocq's primitive
    [float] implements, so the numeric code is transcribed operation by
    operation.  The external collaborators (Binance candles, the CLOB client,
    the wall clock) are given by a [world] that lists what each call
    answers; the code itself runs in a small state, log and error monad. *)

From Stdlib Require Import ZArith QArith Qround List Bool Lia Floats String.
Import ListNotations.

Set Warnings "-inexact-float".
Local Open Scope float_scope.

(** ** Python values and exceptions *)

(** The instances of [Exception] the session can meet; [except Exception]
    catches every one of them.  What lies outside [Exception]
    ([KeyboardInterrupt], [SystemExit]) is an abort from outside and no part
    of the model. *)
Inductive exn : Type :=
| ZeroDivisionError
| IndexError
| ValueError
| TypeError
| OverflowError
| RuntimeError
| RequestException   (* requests.get failed or timed out; bad JSON *)
| HTTPError          (* r.raise_for_status() *)
| PolyApiException.  (* raised by the CLOB client *)

Inductive result (A : Type) : Type :=
| Ok (a : A)
| Raise (e : exn).
Arguments Ok {A} a.
Arguments Raise {A} e.

(** A JSON value as [float()] sees it: a number, a boolean or a string that
    [float()] converts, carried with the value [float()] gives it; or one of
    the values it rejects, by the exception it raises for them. *)
Inductive jval : Type :=
| JFloat (f : float)
| JBad      (* a string that is not a number: ValueError *)
| JOther    (* null, an array or an object: TypeError *)
| JHuge.    (* an integer beyond the range of a float: OverflowError *)

Module Py.

(** [float(v)] *)
Definition float_of (v : jval) : result float :=
  match v with
  | JFloat f => Ok f
  | JBad => Raise ValueError
  | JOther => Raise TypeError
  | JHuge => Raise OverflowError
  end.

(** [xs[i]] for a non-negative [i] *)
Definition index {A} (xs : list A) (i : nat) : result A :=
  match nth_error xs i with
  | Some x => Ok x
  | None => Raise IndexError
  end.

(** [xs[-1]] *)
Definition index_last {A} (xs : list A) : result A :=
  match rev xs with
  | x :: _ => Ok x
  | [] => Raise IndexError
  end.

(** [a > b] on floats *)
Definition gtb (a b : float) : bool := b <? a.

(** [a / b] on floats: a zero divisor of either sign raises. *)
Definition div (a b : float) : result float :=
  if b =? 0 then Raise ZeroDivisionError else Ok (a / b).

(** [min(a, b)]: the first argument unless the second is smaller. *)
Definition min (a b : float) : float := if b <? a then b else a.

(** [max(a, b)]: the first argument unless the second is greater. *)
Definition max (a b : float) : float := if gtb b a then b else a.

(** [math.isfinite(x)] *)
Definition isfinite (x : float) : bool :=
  match classify x with
  | NaN | PInf | NInf => false
  | _ => true
  end.

(** [s.startswith(p)] *)
Fixpoint startswith (p s : string) : bool :=
  match p, s with
  | EmptyString, _ => true
  | String a p', String b s' => Ascii.eqb a b && startswith p' s'
  | String _ _, EmptyString => false
  end.

End Py.

(** ** Configuration (the constants at the head of the file) *)

Record config : Type := {
  PRIVATE_KEY : string;
  FUNDER : string;
  UP_TOKEN_ID : string;
  MAX_HOURLY_SPEND : float;
  ORDER_SIZE : float;
  EDGE_THRESHOLD : float;
  LOOP_INTERVAL_SEC : Z
}.

(** The values the repository ships, with a wallet filled in. *)
Definition shipped (key funder : string) : config := {|
  PRIVATE_KEY := key;
  FUNDER := funder;
  UP_TOKEN_ID := "REPLACE_WITH_ETH_UP_TOKEN_ID";
  MAX_HOURLY_SPEND := 20;
  ORDER_SIZE := 5;
  EDGE_THRESHOLD := 10;
  LOOP_INTERVAL_SEC := 20
|}.

(** ** The outside world *)

(** The feed answers with a JSON array of klines, each a JSON array of
    values; index 1 is the open, index 4 the close. *)
Definition candle : Type := list jval.

(** What the venue answers to [post_order]; the bot prints it and never
    looks inside. *)
Record response : Type := {
  success : bool;
  raw : string
}.

(** The answers the collaborators give during one pass of the loop, and the
    clock reading of the loop test that precedes it. *)
Record round : Type := {
  now : float;                        (* time.time() in the [while] test *)
  klines : result (list candle);      (* requests.get, raise_for_status, r.json() *)
  price : result (option jval);       (* client.get_price(token, side="BUY") *)
  signed : result string;             (* client.create_market_order(mo) *)
  posted : result response            (* client.post_order(signed, FOK) *)
}.

Record world : Type := {
  creds : result unit;                (* ClobClient(...) and its API credentials *)
  start : float;                      (* time.time() at line 129 *)
  rounds : list round
}.

(** ** What the program does to the outside *)

Inductive msg : Type :=
| MStart (start_ts : float)
| MNoPrice
| MQuote (est market edge : float)
| MEdgeDetected (amount : float)
| MOrderResponse (resp : response)
| MNoTrade
| MError (e : exn)
| MFinished (total : float).

Inductive event : Type :=
| EvHttpGet                                        (* requests.get(klines) *)
| EvGetPrice (token : string)                      (* client.get_price *)
| EvCreateOrder (token : string) (amount : float)  (* client.create_market_order *)
| EvPostOrder (order : string)                     (* client.post_order *)
| EvPrint (m : msg)
| EvAssign (v : float)                             (* spent = v *)
| EvRecord (amount total : float)                  (* spent += amount, which makes it total *)
| EvSleep (sec : Z).

(** ** The monad: state ([spent]), log and exceptions *)

Record state : Type := {
  spent : float;
  log : list event
}.

Definition M (A : Type) : Type := state -> state * result A.

Definition ret {A} (a : A) : M A := fun s => (s, Ok a).

Definition raise {A} (e : exn) : M A := fun s => (s, Raise e).

Definition bind {A B} (m : M A) (k : A -> M B) : M B :=
  fun s =>
    match m s with
    | (s', Ok a) => k a s'
    | (s', Raise e) => (s', Raise e)
    end.

Notation "x <- m ;; k" := (bind m (fun x => k))
  (at level 61, m at next level, right associativity).
Notation "m ;;; k" := (bind m (fun _ => k))
  (at level 61, right associativity).

(** [try: m except Exception as e: h e] *)
Definition try_except {A} (m : M A) (h : exn -> M A) : M A :=
  fun s =>
    match m s with
    | (s', Ok a) => (s', Ok a)
    | (s', Raise e) => h e s'
    end.

Definition lift {A} (r : result A) : M A :=
  match r with
  | Ok a => ret a
  | Raise e => raise e
  end.

(** The state after some more events. *)
Definition push (s : state) (evs : list event) : state :=
  {| spent := spent s; log := log s ++ evs |}.

Definition emit (ev : event) : M unit := fun s => (push s [ev], Ok tt).

Definition print (m : msg) : M unit := emit (EvPrint m).

Definition get_spent : M float := fun s => (s, Ok (spent s)).

(** [spent = v] *)
Definition set_spent (v : float) : M unit :=
  fun s => ({| spent := v; log := log s ++ [EvAssign v] |}, Ok tt).

(** [spent += a] *)
Definition add_spent (a : float) : M unit :=
  fun s => ({| spent := spent s + a;
               log := log s ++ [EvRecord a (spent s + a)] |}, Ok tt).

(** ** The functions of [bot.py] *)

Section Bot.

Variable cfg : config.

(** [create_client] (lines 38-54); the client handle carries no data the
    session reads, so it is [unit]. *)
Definition create_client (w : world) : M unit :=
  if Py.startswith "YOUR_" (PRIVATE_KEY cfg) || Py.startswith "YOUR_" (FUNDER cfg)
  then raise RuntimeError
  else lift (creds w).

(** Lines 68-75 of [get_eth_recent_change]: the computation on the decoded
    candle series. *)
Definition recent_change (data : list candle) : result float :=
  if (List.length data <? 2)%nat then Ok 0
  else
    match Py.index data 0 with
    | Raise e => Raise e
    | Ok first =>
      match Py.index first 1 with
      | Raise e => Raise e
      | Ok o =>
        match Py.float_of o with
        | Raise e => Raise e
        | Ok open_1h_ago =>
          match Py.index_last data with
          | Raise e => Raise e
          | Ok last =>
            match Py.index last 4 with
            | Raise e => Raise e
            | Ok c =>
              match Py.float_of c with
              | Raise e => Raise e
              | Ok last_close =>
                match Py.div (last_close - open_1h_ago) open_1h_ago with
                | Raise e => Raise e
                | Ok q => Ok (q * 100)
                end
              end
            end
          end
        end
      end
    end.

(** [get_eth_recent_change] (lines 57-75) *)
Definition get_eth_recent_change (r : round) : M float :=
  emit EvHttpGet ;;;
  data <- lift (klines r) ;;
  lift (recent_change data).

(** Lines 84-86 of [estimate_up_probability]. *)
Definition estimate_of_change (change_pct : float) : float :=
  let base := 50 + change_pct * 2 in
  Py.max 5 (Py.min 95 base).

(** [estimate_up_probability] (lines 78-86) *)
Definition estimate_up_probability (r : round) : M float :=
  change_pct <- get_eth_recent_change r ;;
  ret (estimate_of_change change_pct).

(** Lines 94-96 of [get_polymarket_price]: what is made of the venue's answer. *)
Definition quote_of_price (p : option jval) : result (option float) :=
  match p with
  | None => Ok None
  | Some v =>
    match Py.float_of v with
    | Ok f => Ok (Some (f * 100))
    | Raise e => Raise e
    end
  end.

(** [get_polymarket_price] (lines 89-96) *)
Definition get_polymarket_price (r : round) (token_id : string) : M (option float) :=
  emit (EvGetPrice token_id) ;;;
  p <- lift (price r) ;;
  lift (quote_of_price p).

(** [place_up_market_order] (lines 99-115); a bare [return] gives [None]. *)
Definition place_up_market_order (r : round) (amount : float) : M (option response) :=
  if amount <=? 0 then ret None
  else
    emit (EvCreateOrder (UP_TOKEN_ID cfg) amount) ;;;
    sg <- lift (signed r) ;;
    emit (EvPostOrder sg) ;;;
    resp <- lift (posted r) ;;
    print (MOrderResponse resp) ;;;
    ret (Some resp).

(** The test of line 149. *)
Definition should_trade (edge spent_now : float) : bool :=
  Py.gtb edge (EDGE_THRESHOLD cfg) && (spent_now + ORDER_SIZE cfg <=? MAX_HOURLY_SPEND cfg).

(** The body of the [try] (lines 137-154). *)
Definition attempt (r : round) : M unit :=
  est_prob <- estimate_up_probability r ;;
  market_prob <- get_polymarket_price r (UP_TOKEN_ID cfg) ;;
  match market_prob with
  | None => print MNoPrice
  | Some market =>
    let edge := est_prob - market in
    print (MQuote est_prob market edge) ;;;
    s <- get_spent ;;
    if should_trade edge s then
      print (MEdgeDetected (ORDER_SIZE cfg)) ;;;
      place_up_market_order r (ORDER_SIZE cfg) ;;;
      add_spent (ORDER_SIZE cfg)
    else
      print MNoTrade
  end.

(** One pass of the loop body (lines 136-159). *)
Definition iteration (r : round) : M unit :=
  try_except (attempt r) (fun e => print (MError e)) ;;;
  emit (EvSleep (LOOP_INTERVAL_SEC cfg)).

(** How a run of the loop over a finite list of rounds ends: the test
    failed ([Finished]), or the list gave no further clock reading. *)
Inductive ending : Type :=
| Finished
| OutOfRounds.

(** The [while] loop (lines 135-159). *)
Fixpoint session_loop (end_ts : float) (rs : list round) : M ending :=
  match rs with
  | [] => ret OutOfRounds
  | r :: rs' =>
    if now r <? end_ts
    then iteration r ;;; session_loop end_ts rs'
    else ret Finished
  end.

(** [run_one_hour_session] (lines 120-161) *)
Definition run_one_hour_session (w : world) : M ending :=
  create_client w ;;;
  let start_ts := start w in
  let end_ts := start_ts + 3600 in
  set_spent 0 ;;;
  print (MStart start_ts) ;;;
  e <- session_loop end_ts (rounds w) ;;
  match e with
  | Finished =>
    s <- get_spent ;;
    print (MFinished s) ;;;
    ret Finished
  | OutOfRounds => ret OutOfRounds
  end.

End Bot.

(** The state in which the interpreter enters [run_one_hour_session]. *)
Definition fresh : state := {| spent := 0; log := [] |}.

(** ** What a round amounts to

    The answers of one round, read the way the functions above read them.
    They only name the cases of the theorems below. *)

(** The estimator on a decoded candle series (lines 68-75, then 84-86). *)
Definition estimate_of_series (data : list candle) : result float :=
  match recent_change data with
  | Raise e => Raise e
  | Ok c => Ok (estimate_of_change c)
  end.

(** What [estimate_up_probability] returns in round [r]. *)
Definition estimate_result (r : round) : result float :=
  match klines r with
  | Raise e => Raise e
  | Ok data => estimate_of_series data
  end.

(** What [get_polymarket_price] returns in round [r]. *)
Definition quote_result (r : round) : result (option float) :=
  match price r with
  | Raise e => Raise e
  | Ok p => quote_of_price p
  end.

(** What [place_up_market_order] returns in round [r], and what it does. *)
Definition order_result (r : round) (amount : float) : result (option response) :=
  if amount <=? 0 then Ok None
  else
    match signed r with
    | Raise e => Raise e
    | Ok _ =>
      match posted r with
      | Raise e => Raise e
      | Ok resp => Ok (Some resp)
      end
    end.

Definition order_events (cfg : config) (r : round) (amount : float) : list event :=
  if amount <=? 0 then []
  else
    EvCreateOrder (UP_TOKEN_ID cfg) amount ::
    match signed r with
    | Raise _ => []
    | Ok sg =>
      EvPostOrder sg ::
      match posted r with
      | Raise _ => []
      | Ok resp => [EvPrint (MOrderResponse resp)]
      end
    end.

(** The events of a round up to the decision. *)
Definition quoted (cfg : config) (est market : float) : list event :=
  [EvHttpGet; EvGetPrice (UP_TOKEN_ID cfg); EvPrint (MQuote est market (est - market))].

(** Whether round [r], entered with [spent_now], executes a trade: the
    quote is there, line 149 passes and the order call returns. *)
Definition executes (cfg : config) (r : round) (spent_now : float) : bool :=
  match estimate_result r, quote_result r with
  | Ok est, Ok (Some market) =>
    should_trade cfg (est - market) spent_now &&
    match order_result r (ORDER_SIZE cfg) with
    | Ok _ => true
    | Raise _ => false
    end
  | _, _ => false
  end.

(** The states the loop goes through on rounds that all pass its test. *)
Definition iterate (cfg : config) (rs : list round) (s : state) : state :=
  fold_left (fun s r => fst (iteration cfg r s)) rs s.

(** The rounds the loop goes through: those before the first clock reading
    that fails its test. *)
Fixpoint passed (end_ts : float) (rs : list round) : list round :=
  match rs with
  | [] => []
  | r :: rs' => if now r <? end_ts then r :: passed end_ts rs' else []
  end.

(** Whether some clock reading fails the test. *)
Fixpoint ends (end_ts : float) (rs : list round) : ending :=
  match rs with
  | [] => OutOfRounds
  | r :: rs' => if now r <? end_ts then ends end_ts rs' else Finished
  end.

(** The state when the loop is entered (lines 131-133). *)
Definition started (w : world) : state :=
  {| spent := 0; log := [EvAssign 0; EvPrint (MStart (start w))] |}.

(** ** Reading the log *)

(** What was logged between two states. *)
Definition new_events (s s' : state) : list event :=
  skipn (List.length (log s)) (log s').

Definition is_venue_order (ev : event) : bool :=
  match ev with
  | EvCreateOrder _ _ | EvPostOrder _ => true
  | _ => false
  end.

Definition is_edge_detected (ev : event) : bool :=
  match ev with
  | EvPrint (MEdgeDetected _) => true
  | _ => false
  end.

(** The order sizes recorded, oldest first. *)
Fixpoint recorded (l : list event) : list float :=
  match l with
  | [] => []
  | EvRecord a _ :: l' => a :: recorded l'
  | _ :: l' => recorded l'
  end.

(** The number of executed trades. *)
Definition trades (l : list event) : nat := List.length (recorded l).

(** Every value the variable [spent] was given, oldest first. *)
Fixpoint spent_values (l : list event) : list float :=
  match l with
  | [] => []
  | EvAssign v :: l' => v :: spent_values l'
  | EvRecord _ t :: l' => t :: spent_values l'
  | _ :: l' => spent_values l'
  end.

(** The number of [time.sleep] calls. *)
Fixpoint sleeps (l : list event) : nat :=
  match l with
  | [] => 0
  | EvSleep _ :: l' => S (sleeps l')
  | _ :: l' => sleeps l'
  end.

(** The budget invariant: [spent], and every value it ever had, is at most
    the ceiling. *)
Definition within_budget (cfg : config) (s : state) : Prop :=
  (spent s <=? MAX_HOURLY_SPEND cfg) = true /\
  Forall (fun v => (v <=? MAX_HOURLY_SPEND cfg) = true) (spent_values (log s)).

(** [sum(xs)] from a float zero, left to right. *)
Definition fsum (xs : list float) : float := fold_left add xs 0.

(** [float(n)] for a small count [n]. *)
Definition float_of_nat (n : nat) : float :=
  of_uint63 (Uint63.of_Z (Z.of_nat n)).

(** ** The words of the specification *)

(** Percent change from the earliest open to the latest close. *)
Definition percent_change (open_ close : float) : float :=
  (close - open_) / open_ * 100.

(** [x] brought into [lo, hi]. *)
Definition clamp (x lo hi : float) : float :=
  if x <? lo then lo else if hi <? x then hi else x.

(** The reference estimate: [clamp(50 + 2 * percentChange, 5, 95)]. *)
Definition reference_estimate (open_ close : float) : float :=
  clamp (50 + 2 * percent_change open_ close) 5 95.

(** The exact rational a finite float stands for. *)
Definition exact (x : float) : Q :=
  match Prim2SF x with
  | S754_finite s m e =>
    (inject_Z (if s then Z.neg m else Z.pos m) * Qpower 2 e)%Q
  | _ => 0%Q
  end.


(** ** Sample data *)

Definition kline (open_ close : float) : candle :=
  [JFloat 0; JFloat open_; JFloat open_; JFloat open_; JFloat close].

(** A round in which the estimate is 70, the market quotes 50 and the venue
    accepts the order. *)
Definition good_round (t : float) : round := {|
  now := t;
  klines := Ok [kline 1000 1010; kline 1010 1100];
  price := Ok (Some (JFloat 0.5));
  signed := Ok "signed-order"%string;
  posted := Ok {| success := true; raw := "matched"%string |}
|}.

(** A round in which the feed is down. *)
Definition feed_down (t : float) : round := {|
  now := t;
  klines := Raise RequestException;
  price := Ok (Some (JFloat 0.5));
  signed := Ok "signed-order"%string;
  posted := Ok {| success := true; raw := "matched"%string |}
|}.

(** A round in which the venue has no price. *)
Definition no_quote (t : float) : round := {|
  now := t;
  klines := Ok [kline 1000 1010; kline 1010 1100];
  price := Ok None;
  signed := Ok "signed-order"%string;
  posted := Ok {| success := true; raw := "matched"%string |}
|}.

(** A round in which the venue refuses the order by raising. *)
Definition venue_down (t : float) : round := {|
  now := t;
  klines := Ok [kline 1000 1010; kline 1010 1100];
  price := Ok (Some (JFloat 0.5));
  signed := Ok "signed-order"%string;
  posted := Raise PolyApiException
|}.

(** A round in which the venue answers with a rejection. *)
Definition rejected (t : float) : round := {|
  now := t;
  klines := Ok [kline 1000 1010; kline 1010 1100];
  price := Ok (Some (JFloat 0.5));
  signed := Ok "signed-order"%string;
  posted := Ok {| success := false; raw := "not filled"%string |}
|}.

Definition wallet : config := shipped "0xkey" "0xfunder".

(** A configuration in tenths of a dollar. *)
Definition dimes : config := {|
  PRIVATE_KEY := "0xkey";
  FUNDER := "0xfunder";
  UP_TOKEN_ID := "REPLACE_WITH_ETH_UP_TOKEN_ID";
  MAX_HOURLY_SPEND := 0.7;
  ORDER_SIZE := 0.1;
  EDGE_THRESHOLD := 10;
  LOOP_INTERVAL_SEC := 20
|}.

(** Eight rounds with an edge of twenty points, then the reading that ends
    the hour. *)
Definition busy_world : world := {|
  creds := Ok tt;
  start := 1000;
  rounds := [good_round 1000; good_round 1020; good_round 1040; good_round 1060;
             good_round 1080; good_round 1100; good_round 1120; good_round 1140;
             good_round 4600]
|}.

(** A series whose earliest open is zero. *)
Definition zero_open : list candle := [kline 0 100; kline 100 110].

(** A session with rounds of every kind, the clock read every twenty
    seconds at first, and the reading that ends it, an hour after the start. *)
Definition sample_world : world := {|
  creds := Ok tt;
  start := 1000;
  rounds := [good_round 1000; feed_down 1020; good_round 1040; no_quote 1060;
             venue_down 1080; rejected 1100; good_round 1120; good_round 1140;
             good_round 1160; good_round 4600; good_round 4620]
|}.

(** ** Binary64 numbers as integers

    A mantissa [m] and exponent [e] stand for [m * 2^e].  Every exponent met
    below is above [-K], so [V m e] is that value scaled to an integer, and
    [rank] embeds the numbers (all floats but NaN) in [Z] with their order. *)

Module FloatModel.

Local Open Scope Z_scope.

Definition K : Z := 4000.

Definition V (m e : Z) : Z := m * 2 ^ (e + K).

Definition top : Z := 2 ^ (1025 + K).

Definition ord (x : spec_float) : Z :=
  match x with
  | S754_zero _ => 0
  | S754_nan => 0
  | S754_infinity false => top
  | S754_infinity true => - top
  | S754_finite false m e => V (Zpos m) e
  | S754_finite true m e => - V (Zpos m) e
  end.

Definition rank (x : float) : Z := ord (Prim2SF x).

(** [x] is a number. *)
Definition nn (x : float) : Prop := Prim2SF x <> S754_nan.

Definition canonical (m : positive) (e : Z) : Prop :=
  canonical_mantissa prec emax m e = true.

Definition inexact (r : shr_record) : bool := shr_r r || shr_s r.

(** The shift that brings a mantissa to its canonical exponent. *)
Definition shift_of (m e : Z) : Z := Z.max 0 (fexp prec emax (Zdigits2 m + e) - e).

(** The two stages of [binary_round_aux] on an exact input. *)
Definition round1 (m e : Z) : Z * Z :=
  let '(r, e') := shr_fexp prec emax m e loc_Exact in
  (round_nearest_even (shr_m r) (loc_of_shr_record r), e').

Definition round2 (m e : Z) : Z * Z :=
  let '(m1, e1) := round1 m e in
  let '(r, e2) := shr_fexp prec emax m1 e1 loc_Exact in
  (shr_m r, e2).

End FloatModel.

(** ** Signs *)

Module SignModel.

Import FloatModel.
Local Open Scope Z_scope.

(** [x] is a zero, an infinity or a finite number of sign [s]. *)
Definition signed_as (s : bool) (x : spec_float) : Prop :=
  match x with
  | S754_zero s' | S754_infinity s' | S754_finite s' _ _ => s' = s
  | S754_nan => False
  end.

(** [x] is a number and [x >= 0]; [x] is a number and [x <= 0]. *)
Definition nonneg (x : float) : Prop := nn x /\ 0 <= rank x.

Definition nonpos (x : float) : Prop := nn x /\ rank x <= 0.

End SignModel.

(** ** The environment (lines 13-14) *)

(** [os.getenv(name, default)], the variable being set to some value or not
    set at all. *)
Definition getenv (v : option string) (default : string) : string :=
  match v with
  | Some x => x
  | None => default
  end.

(** The constants of the file, the wallet read from the environment. *)
Definition from_env (key funder : option string) : config :=
  shipped (getenv key "YOUR_PRIVATE_KEY_HERE") (getenv funder "YOUR_FUNDER_ADDRESS_HERE").

(** ** What a pass logs

    The events of one pass of the loop and of a run of passes, as functions
    of the rounds and of [spent] at entry; [pass_eq] and [iterate_trace]
    show that this is what the code logs. *)

Definition pass_events (cfg : config) (r : round) (spent_now : float) : list event :=
  match estimate_result r with
  | Raise e => [EvHttpGet; EvPrint (MError e)]
  | Ok est =>
    match quote_result r with
    | Raise e => [EvHttpGet; EvGetPrice (UP_TOKEN_ID cfg); EvPrint (MError e)]
    | Ok None => [EvHttpGet; EvGetPrice (UP_TOKEN_ID cfg); EvPrint MNoPrice]
    | Ok (Some market) =>
      quoted cfg est market ++
      if should_trade cfg (est - market) spent_now then
        EvPrint (MEdgeDetected (ORDER_SIZE cfg)) ::
        order_events cfg r (ORDER_SIZE cfg) ++
        match order_result r (ORDER_SIZE cfg) with
        | Raise e => [EvPrint (MError e)]
        | Ok _ => [EvRecord (ORDER_SIZE cfg) (spent_now + ORDER_SIZE cfg)]
        end
      else [EvPrint MNoTrade]
    end
  end ++ [EvSleep (LOOP_INTERVAL_SEC cfg)].

(** [spent] after a pass entered with [spent_now]. *)
Definition pass_spent (cfg : config) (r : round) (spent_now : float) : float :=
  if executes cfg r spent_now then spent_now + ORDER_SIZE cfg else spent_now.

Fixpoint trace (cfg : config) (rs : list round) (spent_now : float) : list event :=
  match rs with
  | [] => []
  | r :: rs' => pass_events cfg r spent_now ++ trace cfg rs' (pass_spent cfg r spent_now)
  end.

Fixpoint spent_after (cfg : config) (rs : list round) (spent_now : float) : float :=
  match rs with
  | [] => spent_now
  | r :: rs' => spent_after cfg rs' (pass_spent cfg r spent_now)
  end.

(** ** Counting calls *)

Definition count (p : event -> bool) (l : list event) : nat :=
  List.length (filter p l).

Definition is_http_get (ev : event) : bool :=
  match ev with
  | EvHttpGet => true
  | _ => false
  end.

Definition is_get_price (ev : event) : bool :=
  match ev with
  | EvGetPrice _ => true
  | _ => false
  end.

Definition is_create_order (ev : event) : bool :=
  match ev with
  | EvCreateOrder _ _ => true
  | _ => false
  end.

Definition is_post_order (ev : event) : bool :=
  match ev with
  | EvPostOrder _ => true
  | _ => false
  end.

Definition is_response (ev : event) : bool :=
  match ev with
  | EvPrint (MOrderResponse _) => true
  | _ => false
  end.

(** What every call and record of a session is made with: the one token,
    the one order size, the one interval. *)
Definition as_configured (cfg : config) (ev : event) : Prop :=
  match ev with
  | EvGetPrice token => token = UP_TOKEN_ID cfg
  | EvCreateOrder token amount =>
    token = UP_TOKEN_ID cfg /\ amount = ORDER_SIZE cfg /\ (0 <? amount) = true
  | EvRecord amount _ => amount = ORDER_SIZE cfg
  | EvPrint (MEdgeDetected amount) => amount = ORDER_SIZE cfg
  | EvSleep sec => sec = LOOP_INTERVAL_SEC cfg
  | _ => True
  end.

(** A round whose order call gets as far as [post_order], which raises. *)
Definition post_raises (r : round) : Prop :=
  (exists sg, signed r = Ok sg) /\ (exists e, posted r = Raise e).

(** ** The words of the specification, continued *)

(** [BudgetTracker.remaining()]: the ceiling less what is spent. *)
Definition remaining (cfg : config) (spent_now : float) : float :=
  MAX_HOURLY_SPEND cfg - spent_now.

(** The decision as the specification words it: the edge is above the
    threshold and the remaining budget is at least the order size. *)
Definition spec_should_trade (cfg : config) (edge spent_now : float) : bool :=
  Py.gtb edge (EDGE_THRESHOLD cfg) && (ORDER_SIZE cfg <=? remaining cfg spent_now).

(** ** More sample data *)

(** A round in which the client fails to build and sign the order. *)
Definition signing_down (t : float) : round := {|
  now := t;
  klines := Ok [kline 1000 1010; kline 1010 1100];
  price := Ok (Some (JFloat 0.5));
  signed := Raise PolyApiException;
  posted := Ok {| success := true; raw := "matched"%string |}
|}.

(** A series whose earliest open is the smallest positive float and whose
    latest close is one. *)
Definition tiny_open : list candle := [kline 0x1p-1074 1; kline 1 1].

(** * Facts *)

(** ** Binary64 arithmetic, from its specification

    The Standard Library specifies the primitive operations by [SpecFloat];
    what the program needs of them is derived here: the comparisons follow
    [rank], rounding never crosses a representable number, and no operation
    on numbers invents a NaN except the ones IEEE 754 names. *)

Module FloatFacts.

Import FloatModel.
Local Open Scope Z_scope.

(** A power of two is positive. *)
Ltac pow_pos := apply Z.pow_pos_nonneg; lia.

(** *** Shifting a mantissa right *)

Lemma iter_pos_nat {A} (f : A -> A) p x :
  iter_pos f p x = Nat.iter (Pos.to_nat p) f x.
Proof.
  revert x. induction p as [p IH|p IH|]; intros x; cbn [iter_pos].
  - rewrite !IH, Pos2Nat.inj_xI.
    replace (S (2 * Pos.to_nat p)) with (Pos.to_nat p + S (Pos.to_nat p))%nat by lia.
    rewrite Nat.iter_add, <- Nat.iter_succ_r. reflexivity.
  - rewrite !IH, Pos2Nat.inj_xO.
    replace (2 * Pos.to_nat p)%nat with (Pos.to_nat p + Pos.to_nat p)%nat by lia.
    rewrite Nat.iter_add. reflexivity.
  - reflexivity.
Qed.


Lemma shr_1_m r : 0 <= shr_m r -> shr_m (shr_1 r) = shr_m r / 2.
Proof.
  destruct r as [m r s]. cbn [shr_m shr_1]. intros Hm.
  destruct m as [|[p|p|]|p]; cbn [shr_m]; try lia.
  - reflexivity.
  - apply Z.div_unique with (r := 1); lia.
  - apply Z.div_unique with (r := 0); lia.
  - reflexivity.
Qed.

Lemma shr_1_inexact r :
  0 <= shr_m r ->
  inexact (shr_1 r) = negb (Z.even (shr_m r)) || inexact r.
Proof.
  destruct r as [m r s]. unfold inexact. simpl. intros Hm.
  destruct m as [|[p|p|]|p]; simpl; try lia; destruct r, s; reflexivity.
Qed.

Lemma shr_n_spec n m :
  0 <= m ->
  let r := Nat.iter n shr_1 (Build_shr_record m false false) in
  shr_m r = m / 2 ^ Z.of_nat n /\
  (m mod 2 ^ Z.of_nat n = 0 -> inexact r = false).
Proof.
  intros Hm. induction n as [|n IH].
  - simpl. split; [now rewrite Z.div_1_r | reflexivity].
  - cbv zeta in *. rewrite Nat.iter_succ.
    set (r := Nat.iter n shr_1 _) in *.
    destruct IH as [IHm IHx].
    assert (Hp : 0 < 2 ^ Z.of_nat n) by pow_pos.
    assert (Hr : 0 <= shr_m r) by (rewrite IHm; apply Z.div_pos; lia).
    rewrite Nat2Z.inj_succ, Z.pow_succ_r by lia.
    split.
    + rewrite shr_1_m by exact Hr. rewrite IHm.
      rewrite Z.div_div by lia. f_equal. lia.
    + intros Hmod. rewrite shr_1_inexact by exact Hr.
      assert (Hdiv : m = 2 * 2 ^ Z.of_nat n * (m / (2 * 2 ^ Z.of_nat n))).
      { pose proof (Z.div_mod m (2 * 2 ^ Z.of_nat n)). lia. }
      set (q := m / (2 * 2 ^ Z.of_nat n)) in *.
      assert (Hq : m / 2 ^ Z.of_nat n = 2 * q).
      { rewrite Hdiv at 1. replace (2 * 2 ^ Z.of_nat n * q) with ((2 * q) * 2 ^ Z.of_nat n) by ring.
        apply Z.div_mul. lia. }
      rewrite IHm, Hq.
      rewrite Z.even_mul. simpl.
      apply IHx. rewrite Hdiv.
      replace (2 * 2 ^ Z.of_nat n * q) with ((2 * q) * 2 ^ Z.of_nat n) by ring.
      apply Z.mod_mul. lia.
Qed.


(** *** Digits *)

Lemma digits2_size p : digits2_pos p = Pos.size p.
Proof. induction p; simpl; congruence. Qed.

Lemma digits_bounds p :
  2 ^ (Zpos (digits2_pos p) - 1) <= Zpos p < 2 ^ Zpos (digits2_pos p).
Proof.
  rewrite digits2_size. split.
  - pose proof (Pos.size_le p) as H.
    apply Pos2Z.pos_le_pos in H. rewrite Pos2Z.inj_pow in H.
    change (Z.pos p~0) with (2 * Z.pos p) in H.
    set (d := Z.pos (Pos.size p)) in *.
    assert (Hd : 2 ^ d = 2 * 2 ^ (d - 1)).
    { rewrite <- Z.pow_succ_r by (subst d; lia). f_equal. lia. }
    lia.
  - pose proof (Pos.size_gt p) as H.
    apply Pos2Z.pos_lt_pos in H. now rewrite Pos2Z.inj_pow in H.
Qed.

Lemma fexp64 x : fexp prec emax x = Z.max (x - 53) (-1074).
Proof. reflexivity. Qed.

(** *** The scaled value *)


Lemma V_shift m e n : 0 <= n -> 0 <= e + K -> V (m * 2 ^ n) e = V m (e + n).
Proof.
  intros. unfold V. replace (e + n + K) with (n + (e + K)) by lia.
  rewrite (Z.pow_add_r 2 n (e + K)) by lia. ring.
Qed.

Lemma V_le_mono m1 m2 e : 0 <= e + K -> (V m1 e <= V m2 e <-> m1 <= m2).
Proof.
  intros. unfold V. assert (0 < 2 ^ (e + K)) by pow_pos.
  split; intros; nia.
Qed.

Lemma V_lt_mono m1 m2 e : 0 <= e + K -> (V m1 e < V m2 e <-> m1 < m2).
Proof.
  intros. unfold V. assert (0 < 2 ^ (e + K)) by pow_pos.
  split; intros; nia.
Qed.

Lemma V_pow d e : 0 <= d -> 0 <= e + K -> V (2 ^ d) e = 2 ^ (d + e + K).
Proof.
  intros. unfold V. rewrite <- (Z.pow_add_r 2 d (e + K)) by lia. f_equal. lia.
Qed.

Lemma V_digits p e :
  0 <= e + K ->
  2 ^ (Zpos (digits2_pos p) - 1 + e + K) <= V (Zpos p) e < 2 ^ (Zpos (digits2_pos p) + e + K).
Proof.
  intros He. pose proof (digits_bounds p) as [H1 H2].
  rewrite <- !V_pow by lia. split.
  - apply V_le_mono; assumption.
  - apply V_lt_mono; assumption.
Qed.


(** *** The two stages of rounding *)


Lemma shr_fexp_spec m e :
  0 <= m ->
  shr_m (fst (shr_fexp prec emax m e loc_Exact)) = m / 2 ^ shift_of m e /\
  snd (shr_fexp prec emax m e loc_Exact) = e + shift_of m e /\
  (m mod 2 ^ shift_of m e = 0 -> inexact (fst (shr_fexp prec emax m e loc_Exact)) = false).
Proof.
  intros Hm. unfold shr_fexp, shift_of, shr, shr_record_of_loc.
  destruct (fexp prec emax (Zdigits2 m + e) - e) as [|p|p] eqn:E; cbn [fst snd].
  - rewrite Z.max_l by lia. cbn [shr_m]. rewrite Z.div_1_r. repeat split; lia.
  - rewrite Z.max_r by lia. rewrite iter_pos_nat.
    pose proof (shr_n_spec (Pos.to_nat p) m Hm) as H. cbv zeta in H.
    rewrite positive_nat_Z in H. destruct H as [H1 H2].
    repeat split; assumption.
  - rewrite Z.max_l by lia. cbn [shr_m]. rewrite Z.div_1_r. repeat split; lia.
Qed.

Lemma round_facts r :
  0 <= shr_m r ->
  shr_m r <= round_nearest_even (shr_m r) (loc_of_shr_record r) <= shr_m r + 1 /\
  (inexact r = false -> round_nearest_even (shr_m r) (loc_of_shr_record r) = shr_m r).
Proof.
  destruct r as [m [] []]; unfold inexact; cbn; intros Hm;
    try destruct (Z.even m); split; try lia; intros; try discriminate; reflexivity.
Qed.



Lemma binary_round_aux_round2 s m e :
  binary_round_aux prec emax s m e loc_Exact =
  match fst (round2 m e) with
  | Z0 => S754_zero s
  | Zpos p => if snd (round2 m e) <=? emax - prec then S754_finite s p (snd (round2 m e)) else S754_infinity s
  | Zneg _ => S754_nan
  end.
Proof.
  unfold binary_round_aux, round2, round1.
  destruct (shr_fexp prec emax m e loc_Exact) as [r e'].
  destruct (shr_fexp prec emax _ e' loc_Exact) as [r2 e2].
  reflexivity.
Qed.

Lemma round1_spec m e :
  0 <= m ->
  let n := shift_of m e in
  snd (round1 m e) = e + n /\
  m / 2 ^ n <= fst (round1 m e) <= m / 2 ^ n + 1 /\
  (m mod 2 ^ n = 0 -> fst (round1 m e) = m / 2 ^ n).
Proof.
  intros Hm n. unfold round1.
  pose proof (shr_fexp_spec m e Hm) as (H1 & H2 & H3). fold n in H1, H2, H3.
  destruct (shr_fexp prec emax m e loc_Exact) as [r e']. cbn [fst snd] in *.
  assert (Hn : 0 < 2 ^ n) by (apply Z.pow_pos_nonneg; unfold n, shift_of; lia).
  assert (Hr : 0 <= shr_m r) by (rewrite H1; apply Z.div_pos; lia).
  pose proof (round_facts r Hr) as [R1 R2].
  rewrite <- H1. repeat split; try lia. intros Hx. apply R2, H3, Hx.
Qed.


(** *** Canonical representations *)


Lemma canonical_eq m e :
  canonical m e <-> Z.max (Zpos (digits2_pos m) + e - 53) (-1074) = e.
Proof. unfold canonical, canonical_mantissa. rewrite fexp64. apply Z.eqb_eq. Qed.

Lemma canonical_K m e : canonical m e -> 0 <= e + K.
Proof. rewrite canonical_eq. unfold K. lia. Qed.

Lemma V_pos p e : 0 <= e + K -> 0 < V (Zpos p) e.
Proof.
  intros. unfold V. assert (0 < 2 ^ (e + K)) by pow_pos. nia.
Qed.

Lemma V_lt_of_digits m1 e1 m2 e2 :
  0 <= e1 + K -> 0 <= e2 + K ->
  Zpos (digits2_pos m1) + e1 <= Zpos (digits2_pos m2) - 1 + e2 ->
  V (Zpos m1) e1 < V (Zpos m2) e2.
Proof.
  intros H1 H2 H.
  pose proof (V_digits m1 e1 H1) as [_ U].
  pose proof (V_digits m2 e2 H2) as [L _].
  eapply Z.lt_le_trans; [exact U|].
  eapply Z.le_trans; [|exact L].
  apply Z.pow_le_mono_r; lia.
Qed.

Lemma digits_le_of_V m1 e1 m2 e2 :
  0 <= e1 + K -> 0 <= e2 + K ->
  V (Zpos m1) e1 <= V (Zpos m2) e2 ->
  Zpos (digits2_pos m1) + e1 <= Zpos (digits2_pos m2) + e2.
Proof.
  intros H1 H2 H.
  destruct (Z_le_gt_dec (Zpos (digits2_pos m1) + e1) (Zpos (digits2_pos m2) + e2)) as [|G]; [assumption|].
  exfalso.
  assert (V (Zpos m2) e2 < V (Zpos m1) e1) by (apply V_lt_of_digits; lia).
  lia.
Qed.

Lemma compare_canonical m1 e1 m2 e2 :
  canonical m1 e1 -> canonical m2 e2 ->
  SFcompare (S754_finite false m1 e1) (S754_finite false m2 e2)
  = Some (V (Zpos m1) e1 ?= V (Zpos m2) e2).
Proof.
  intros C1 C2.
  pose proof (canonical_K _ _ C1) as K1. pose proof (canonical_K _ _ C2) as K2.
  apply canonical_eq in C1, C2.
  cbn [SFcompare]. f_equal.
  destruct (e1 ?= e2) eqn:E.
  - apply Z.compare_eq in E. subst e2.
    rewrite Pos.compare_cont_spec.
    destruct (Pos.compare_spec m1 m2) as [Hm|Hm|Hm]; cbn [Pos.switch_Eq]; symmetry.
    + subst. apply Z.compare_refl.
    + apply Z.compare_lt_iff, V_lt_mono; lia.
    + apply Z.compare_gt_iff, V_lt_mono; lia.
  - rewrite Z.compare_lt_iff in E. symmetry. apply Z.compare_lt_iff.
    apply V_lt_of_digits; lia.
  - rewrite Z.compare_gt_iff in E. symmetry. apply Z.compare_gt_iff.
    apply V_lt_of_digits; lia.
Qed.


(** *** Rounding never crosses a representable number: from above *)

Lemma fexp_le_bound p e mB eB :
  0 <= e + K -> canonical mB eB -> V (Zpos p) e <= V (Zpos mB) eB ->
  fexp prec emax (Zpos (digits2_pos p) + e) <= eB.
Proof.
  intros He C H. pose proof (canonical_K _ _ C) as KB.
  pose proof (digits_le_of_V _ _ _ _ He KB H).
  apply canonical_eq in C. rewrite fexp64. lia.
Qed.

Lemma ceil_bound m c B q :
  0 < c -> 0 <= m -> m <= B * c ->
  m / c <= q <= m / c + 1 -> (m mod c = 0 -> q = m / c) -> q <= B.
Proof.
  intros Hc Hm HB Hq Hx.
  pose proof (Z.div_mod m c ltac:(lia)) as D.
  pose proof (Z.mod_pos_bound m c Hc) as R.
  destruct (Z.eq_dec (m mod c) 0) as [E|E].
  - rewrite (Hx E). nia.
  - assert (m / c < B) by nia. lia.
Qed.

Lemma shift_of_cases m e :
  (shift_of m e = 0 /\ fexp prec emax (Zdigits2 m + e) <= e) \/
  (0 < shift_of m e /\ e + shift_of m e = fexp prec emax (Zdigits2 m + e)).
Proof. unfold shift_of. lia. Qed.

Lemma round1_upper p e mB eB :
  0 <= e + K -> canonical mB eB -> V (Zpos p) e <= V (Zpos mB) eB ->
  0 <= fst (round1 (Zpos p) e) /\
  V (fst (round1 (Zpos p) e)) (snd (round1 (Zpos p) e)) <= V (Zpos mB) eB /\
  e <= snd (round1 (Zpos p) e) /\
  (snd (round1 (Zpos p) e) = e \/ snd (round1 (Zpos p) e) <= eB).
Proof.
  intros He C H.
  pose proof (round1_spec (Zpos p) e ltac:(lia)) as (H1 & H2 & H3). cbv zeta in *.
  set (n := shift_of (Zpos p) e) in *.
  set (m1 := fst (round1 (Zpos p) e)) in *.
  set (e1 := snd (round1 (Zpos p) e)) in *.
  assert (Hn : 0 < 2 ^ n).
  { apply Z.pow_pos_nonneg; [lia|]. unfold n, shift_of. lia. }
  assert (Hq : 0 <= Z.pos p / 2 ^ n) by (apply Z.div_pos; lia).
  destruct (shift_of_cases (Zpos p) e) as [[N _]|[N E]]; fold n in N.
  - rewrite N in *. rewrite Z.pow_0_r, Z.div_1_r in *.
    rewrite (H3 (Z.mod_1_r _)). rewrite H1, Z.add_0_r.
    repeat split; lia.
  - fold n in E. cbn [Zdigits2] in E.
    pose proof (fexp_le_bound p e mB eB He C H) as F.
    pose proof (canonical_K _ _ C) as KB.
    assert (E1 : e1 <= eB) by lia.
    set (B := Zpos mB * 2 ^ (eB - e1)).
    assert (VB : V B e1 = V (Zpos mB) eB).
    { unfold B. rewrite V_shift by lia. f_equal. lia. }
    assert (HB : Zpos p <= B * 2 ^ n).
    { apply (V_le_mono _ _ e He). rewrite V_shift by lia.
      replace (e + n) with e1 by lia. rewrite VB. exact H. }
    assert (m1 <= B) by (apply (ceil_bound (Zpos p) (2 ^ n)); auto; lia).
    repeat split; try lia.
    rewrite <- VB. apply V_le_mono; lia.
Qed.

Lemma round2_upper p e mB eB :
  0 <= e + K -> canonical mB eB -> V (Zpos p) e <= V (Zpos mB) eB ->
  0 <= fst (round2 (Zpos p) e) /\
  V (fst (round2 (Zpos p) e)) (snd (round2 (Zpos p) e)) <= V (Zpos mB) eB /\
  (0 < fst (round2 (Zpos p) e) -> snd (round2 (Zpos p) e) <= Z.max e eB).
Proof.
  intros He C H.
  pose proof (round1_upper p e mB eB He C H) as (M1 & V1 & E1 & E1').
  unfold round2.
  destruct (round1 (Zpos p) e) as [m1 e1]. cbn [fst snd] in *.
  pose proof (shr_fexp_spec m1 e1 M1) as (S1 & S2 & _).
  destruct (shr_fexp prec emax m1 e1 loc_Exact) as [r e2]. cbn [fst snd] in *.
  set (n := shift_of m1 e1) in *.
  assert (N0 : 0 <= n) by (unfold n, shift_of; lia).
  assert (Hn : 0 < 2 ^ n) by pow_pos.
  assert (Hq : 0 <= m1 / 2 ^ n) by (apply Z.div_pos; lia).
  assert (Hle : shr_m r * 2 ^ n <= m1).
  { rewrite S1. pose proof (Z.mul_div_le m1 (2 ^ n) Hn). lia. }
  assert (V2 : V (shr_m r) e2 <= V m1 e1).
  { rewrite S2, <- V_shift by lia. apply V_le_mono; lia. }
  repeat split; try lia.
  intros Hpos.
  destruct (shift_of_cases m1 e1) as [[N _]|[N E]]; fold n in N.
  - lia.
  - fold n in E.
    destruct m1 as [|p1|p1]; try (lia || nia).
    cbn [Zdigits2] in E.
    pose proof (fexp_le_bound p1 e1 mB eB ltac:(lia) C V1). lia.
Qed.


(** *** Rounding never crosses a representable number: from below *)

Lemma floor_lower p e mA eA :
  0 <= e + K -> canonical mA eA -> V (Zpos mA) eA <= V (Zpos p) e ->
  V (Zpos mA) eA <= V (Zpos p / 2 ^ shift_of (Zpos p) e) (e + shift_of (Zpos p) e).
Proof.
  intros He C H. pose proof (canonical_K _ _ C) as KA.
  set (n := shift_of (Zpos p) e).
  destruct (shift_of_cases (Zpos p) e) as [[N _]|[N E]]; fold n in N.
  - rewrite N, Z.pow_0_r, Z.div_1_r, Z.add_0_r. exact H.
  - fold n in E. cbn [Zdigits2] in E. rewrite fexp64 in E.
    assert (Hn : 0 < 2 ^ n) by pow_pos.
    destruct (Z_le_gt_dec (e + n) eA) as [LE|GT].
    + set (A := Zpos mA * 2 ^ (eA - (e + n))).
      assert (VA : V A (e + n) = V (Zpos mA) eA).
      { unfold A. rewrite V_shift by lia. f_equal. lia. }
      rewrite <- VA. apply V_le_mono; [lia|].
      apply Z.div_le_lower_bound; [lia|].
      rewrite Z.mul_comm. apply (V_le_mono _ _ e He).
      rewrite V_shift by lia. rewrite VA. exact H.
    + pose proof C as C'. apply canonical_eq in C'.
      pose proof (digits_bounds p) as [D _].
      set (d := Zpos (digits2_pos p)) in *.
      assert (Hd : d - 1 = 52 + n) by lia.
      assert (Q : 2 ^ 52 <= Zpos p / 2 ^ n).
      { apply Z.div_le_lower_bound; [lia|].
        rewrite <- Z.pow_add_r by lia. rewrite Z.add_comm, <- Hd. exact D. }
      pose proof (V_digits mA eA KA) as [_ U].
      eapply Z.le_trans; [apply Z.lt_le_incl, U|].
      eapply Z.le_trans; [|apply V_le_mono; [lia|exact Q]].
      rewrite V_pow by lia. apply Z.pow_le_mono_r; lia.
Qed.

Lemma V_nonpos m e : m <= 0 -> 0 <= e + K -> V m e <= 0.
Proof.
  intros. unfold V. assert (0 < 2 ^ (e + K)) by pow_pos. nia.
Qed.

Lemma round2_lower p e mA eA :
  0 <= e + K -> canonical mA eA -> V (Zpos mA) eA <= V (Zpos p) e ->
  0 < fst (round2 (Zpos p) e) /\
  V (Zpos mA) eA <= V (fst (round2 (Zpos p) e)) (snd (round2 (Zpos p) e)).
Proof.
  intros He C H. pose proof (canonical_K _ _ C) as KA.
  pose proof (V_pos mA eA KA) as PA.
  pose proof (round1_spec (Zpos p) e ltac:(lia)) as (H1 & H2 & _). cbv zeta in *.
  pose proof (floor_lower p e mA eA He C H) as F.
  set (n := shift_of (Zpos p) e) in *.
  assert (N0 : 0 <= n) by (unfold n, shift_of; lia).
  unfold round2.
  destruct (round1 (Zpos p) e) as [m1 e1]. cbn [fst snd] in *.
  assert (V1 : V (Zpos mA) eA <= V m1 e1).
  { eapply Z.le_trans; [exact F|]. subst e1. apply V_le_mono; lia. }
  destruct m1 as [|p1|p1];
    [ pose proof (V_nonpos 0 e1 ltac:(lia) ltac:(lia)); lia
    | | pose proof (V_nonpos (Zneg p1) e1 ltac:(lia) ltac:(lia)); lia ].
  pose proof (shr_fexp_spec (Zpos p1) e1 ltac:(lia)) as (S1 & S2 & _).
  pose proof (floor_lower p1 e1 mA eA ltac:(lia) C V1) as F2.
  destruct (shr_fexp prec emax (Zpos p1) e1 loc_Exact) as [r e2]. cbn [fst snd] in *.
  rewrite S1, S2. split; [|exact F2].
  destruct (Z_lt_le_dec 0 (Zpos p1 / 2 ^ shift_of (Zpos p1) e1)) as [|NP]; [assumption|].
  assert (0 <= shift_of (Zpos p1) e1) by (unfold shift_of; lia).
  pose proof (V_nonpos _ (e1 + shift_of (Zpos p1) e1) NP ltac:(lia)). lia.
Qed.


(** *** Rounding a non-negative mantissa gives no NaN *)

Lemma shr_n_m n r :
  0 <= shr_m r -> shr_m (Nat.iter n shr_1 r) = shr_m r / 2 ^ Z.of_nat n.
Proof.
  intros Hm. induction n as [|n IH].
  - simpl. now rewrite Z.div_1_r.
  - rewrite Nat.iter_succ.
    assert (Hp : 0 < 2 ^ Z.of_nat n) by pow_pos.
    rewrite shr_1_m by (rewrite IH; apply Z.div_pos; lia).
    rewrite IH, Nat2Z.inj_succ, Z.pow_succ_r by lia.
    rewrite Z.div_div by lia. f_equal. lia.
Qed.

Lemma shr_fexp_nonneg m e l :
  0 <= m -> 0 <= shr_m (fst (shr_fexp prec emax m e l)).
Proof.
  intros Hm. unfold shr_fexp, shr.
  assert (H0 : shr_m (shr_record_of_loc m l) = m) by (destruct l as [|[]]; reflexivity).
  destruct (fexp prec emax (Zdigits2 m + e) - e) as [|p|p]; cbn [fst]; try lia.
  rewrite iter_pos_nat, shr_n_m by lia. rewrite H0.
  apply Z.div_pos; [lia|]. apply Z.pow_pos_nonneg; lia.
Qed.

Lemma binary_round_aux_not_nan s m e l :
  0 <= m -> binary_round_aux prec emax s m e l <> S754_nan.
Proof.
  intros Hm. unfold binary_round_aux.
  pose proof (shr_fexp_nonneg m e l Hm) as H1.
  destruct (shr_fexp prec emax m e l) as [r e']. cbn [fst] in H1.
  pose proof (round_facts r H1) as [[R _] _].
  set (m1 := round_nearest_even (shr_m r) (loc_of_shr_record r)) in *.
  pose proof (shr_fexp_nonneg m1 e' loc_Exact ltac:(lia)) as H2.
  destruct (shr_fexp prec emax m1 e' loc_Exact) as [r2 e2]. cbn [fst] in H2.
  destruct (shr_m r2); try lia; try discriminate.
  destruct (e2 <=? emax - prec); discriminate.
Qed.

Lemma binary_normalize_not_nan m e sz :
  binary_normalize prec emax m e sz <> S754_nan.
Proof.
  unfold binary_normalize, binary_round.
  destruct m as [|p|p]; try discriminate.
  - destruct (shl_align p e _) as [mz ez]. apply binary_round_aux_not_nan. lia.
  - destruct (shl_align p e _) as [mz ez]. apply binary_round_aux_not_nan. lia.
Qed.

(** *** The comparison of the specification is the order of [ord] *)



Lemma valid_finite s m e :
  valid_binary (S754_finite s m e) = true -> canonical m e /\ e <= 971.
Proof.
  cbn [SpecFloat.valid_binary]. unfold bounded. intros H.
  apply andb_true_iff in H. destruct H as [H1 H2].
  split; [exact H1|]. apply Z.leb_le in H2. exact H2.
Qed.

Lemma V_below_top m e : canonical m e -> e <= 971 -> 0 < V (Zpos m) e < top.
Proof.
  intros C E. pose proof (canonical_K _ _ C) as KE.
  pose proof (V_digits m e KE) as [_ U].
  split; [apply V_pos; assumption|].
  eapply Z.lt_le_trans; [exact U|].
  apply canonical_eq in C. unfold top. apply Z.pow_le_mono_r; lia.
Qed.

Lemma top_pos : 0 < top.
Proof. unfold top. apply Z.pow_pos_nonneg; unfold K; lia. Qed.

Lemma SFcompare_ord x y :
  valid_binary x = true -> valid_binary y = true ->
  x <> S754_nan -> y <> S754_nan ->
  SFcompare x y = Some (ord x ?= ord y).
Proof.
  intros Vx Vy Nx Ny. pose proof top_pos as T.
  destruct x as [sx|sx| |sx mx ex]; try congruence;
  destruct y as [sy|sy| |sy my ey]; try congruence;
  try (apply valid_finite in Vx; destruct Vx as [Cx Ex];
       pose proof (V_below_top _ _ Cx Ex));
  try (apply valid_finite in Vy; destruct Vy as [Cy Ey];
       pose proof (V_below_top _ _ Cy Ey)).
  all: try (destruct sx; destruct sy; cbn [SFcompare ord]; f_equal; symmetry;
            first [ apply Z.compare_eq_iff; lia
                  | apply Z.compare_lt_iff; lia
                  | apply Z.compare_gt_iff; lia ]).
  all: try (destruct sx; cbn [SFcompare ord]; f_equal; symmetry;
            first [ apply Z.compare_eq_iff; lia
                  | apply Z.compare_lt_iff; lia
                  | apply Z.compare_gt_iff; lia ]).
  all: try (destruct sy; cbn [SFcompare ord]; f_equal; symmetry;
            first [ apply Z.compare_eq_iff; lia
                  | apply Z.compare_lt_iff; lia
                  | apply Z.compare_gt_iff; lia ]).
  destruct sx, sy.
  - pose proof (compare_canonical mx ex my ey Cx Cy) as H1.
    assert (H2 : match ex ?= ey with
                 | Eq => Pos.compare_cont Eq mx my
                 | Lt => Lt
                 | Gt => Gt
                 end = (V (Zpos mx) ex ?= V (Zpos my) ey)).
    { apply (f_equal (fun o => match o with Some c => c | None => Eq end)) in H1.
      exact H1. }
    cbn [SFcompare ord]. rewrite Z.compare_opp.
    f_equal. rewrite (Z.compare_antisym (V (Zpos mx) ex)), <- H2.
    destruct (ex ?= ey); reflexivity.
  - cbn [SFcompare ord]. f_equal. symmetry. apply Z.compare_lt_iff. lia.
  - cbn [SFcompare ord]. f_equal. symmetry. apply Z.compare_gt_iff. lia.
  - apply compare_canonical; assumption.
Qed.


(** *** The primitive comparisons are the order of [rank] *)

Local Open Scope float_scope.


Lemma SFcompare_nan_r x : SFcompare x S754_nan = None.
Proof. destruct x; reflexivity. Qed.

Lemma SFcompare_some x y c :
  SFcompare (Prim2SF x) (Prim2SF y) = Some c -> nn x /\ nn y.
Proof.
  unfold nn. intros H. split; intros E; rewrite E in H.
  - discriminate.
  - rewrite SFcompare_nan_r in H. discriminate.
Qed.

Lemma compare_rank x y :
  nn x -> nn y -> SFcompare (Prim2SF x) (Prim2SF y) = Some (rank x ?= rank y)%Z.
Proof. intros. apply SFcompare_ord; auto using Prim2SF_valid. Qed.

Lemma ltb_rank x y : nn x -> nn y -> (x <? y) = (rank x <? rank y)%Z.
Proof.
  intros Hx Hy. rewrite FloatAxioms.ltb_spec. unfold SFltb. rewrite compare_rank by assumption.
  unfold Z.ltb. destruct (rank x ?= rank y)%Z; reflexivity.
Qed.

Lemma leb_rank x y : nn x -> nn y -> (x <=? y) = (rank x <=? rank y)%Z.
Proof.
  intros Hx Hy. rewrite FloatAxioms.leb_spec. unfold SFleb. rewrite compare_rank by assumption.
  unfold Z.leb. destruct (rank x ?= rank y)%Z; reflexivity.
Qed.

Lemma eqb_rank x y : nn x -> nn y -> (x =? y) = (rank x =? rank y)%Z.
Proof.
  intros Hx Hy. rewrite FloatAxioms.eqb_spec. unfold SFeqb. rewrite compare_rank by assumption.
  destruct (Z.compare_spec (rank x) (rank y));
    destruct (Z.eqb_spec (rank x) (rank y)); try reflexivity; lia.
Qed.

Lemma ltb_true x y : (x <? y) = true -> nn x /\ nn y /\ (rank x < rank y)%Z.
Proof.
  intros H. assert (N : nn x /\ nn y).
  { rewrite FloatAxioms.ltb_spec in H. unfold SFltb in H.
    destruct (SFcompare (Prim2SF x) (Prim2SF y)) eqn:E; [|discriminate].
    eapply SFcompare_some, E. }
  destruct N as [Nx Ny]. rewrite ltb_rank in H by assumption.
  apply Z.ltb_lt in H. auto.
Qed.

Lemma leb_true x y : (x <=? y) = true -> nn x /\ nn y /\ (rank x <= rank y)%Z.
Proof.
  intros H. assert (N : nn x /\ nn y).
  { rewrite FloatAxioms.leb_spec in H. unfold SFleb in H.
    destruct (SFcompare (Prim2SF x) (Prim2SF y)) eqn:E; [|discriminate].
    eapply SFcompare_some, E. }
  destruct N as [Nx Ny]. rewrite leb_rank in H by assumption.
  apply Z.leb_le in H. auto.
Qed.

Lemma leb_intro x y : nn x -> nn y -> (rank x <= rank y)%Z -> (x <=? y) = true.
Proof. intros. rewrite leb_rank by assumption. now apply Z.leb_le. Qed.

Lemma ltb_intro x y : nn x -> nn y -> (rank x < rank y)%Z -> (x <? y) = true.
Proof. intros. rewrite ltb_rank by assumption. now apply Z.ltb_lt. Qed.

Lemma ltb_leb x y : (x <? y) = true -> (x <=? y) = true.
Proof.
  intros H. apply ltb_true in H. destruct H as (Nx & Ny & H).
  apply leb_intro; auto. lia.
Qed.

Lemma Prim2SF_zero : Prim2SF 0 = S754_zero false.
Proof. vm_compute. reflexivity. Qed.

Lemma Prim2SF_one : Prim2SF 1 = S754_finite false 4503599627370496 (-52).
Proof. vm_compute. reflexivity. Qed.

Lemma rank_zero : rank 0 = 0%Z.
Proof. unfold rank. rewrite Prim2SF_zero. reflexivity. Qed.

Lemma rank_one : rank 1 = (2 ^ K)%Z.
Proof.
  unfold rank. rewrite Prim2SF_one. cbn [ord].
  change (Zpos 4503599627370496) with (2 ^ 52)%Z.
  rewrite V_pow by (unfold K; lia). f_equal.
Qed.

(** A non-negative float, seen through its specification. *)
Lemma nonneg_cases x :
  (0 <=? x) = true ->
  (exists s, Prim2SF x = S754_zero s) \/
  Prim2SF x = S754_infinity false \/
  (exists m e, Prim2SF x = S754_finite false m e /\ canonical m e /\ (e <= 971)%Z).
Proof.
  intros H. apply leb_true in H. destruct H as (_ & Nx & H).
  rewrite rank_zero in H. unfold rank, nn in *.
  pose proof (Prim2SF_valid x) as Vx. pose proof top_pos.
  destruct (Prim2SF x) as [s|s| |s m e]; try congruence.
  - left. eauto.
  - destruct s; cbn [ord] in H; [lia|]. right. left. reflexivity.
  - apply valid_finite in Vx. destruct Vx as [C E].
    pose proof (V_below_top m e C E).
    destruct s; cbn [ord] in H; [lia|]. right. right. eauto.
Qed.

(** *** Products and sums

    [0 <= p <= 1] gives [0 <= p * c <= c] for a positive finite [c]. *)
Lemma mul_unit_range p c mc ec :
  Prim2SF c = S754_finite false mc ec ->
  (0 <=? p) = true -> (p <=? 1) = true ->
  (0 <=? p * c) = true /\ (p * c <=? c) = true.
Proof.
  intros Hc H0 H1.
  pose proof (Prim2SF_valid c) as Vc. rewrite Hc in Vc.
  apply valid_finite in Vc. destruct Vc as [Cc Ec].
  pose proof (V_below_top mc ec Cc Ec) as Bc.
  pose proof (canonical_K _ _ Cc) as Kc.
  apply leb_true in H1. destruct H1 as (Np & _ & H1). rewrite rank_one in H1.
  assert (R : nn (p * c) /\ (0 <= rank (p * c) <= rank c)%Z).
  { unfold nn, rank in *. rewrite Hc. cbn [ord].
    pose proof (Prim2SF_valid (p * c)) as Vr.
    rewrite FloatAxioms.mul_spec in *. unfold SF64mul in *. rewrite Hc in *.
    destruct (nonneg_cases p H0) as [[s E]|[E|(m & e & E & C & Le)]]; rewrite E in *.
    - cbn [SFmul ord]. split; [discriminate|lia].
    - cbn [ord] in H1. exfalso. unfold top in H1.
      assert (2 ^ K < 2 ^ (1025 + K))%Z by (apply Z.pow_lt_mono_r; unfold K; lia). lia.
    - cbn [ord] in H1. pose proof (canonical_K _ _ C) as Ke.
      pose proof (proj1 (canonical_eq _ _) C) as C'.
      pose proof (proj1 (canonical_eq _ _) Cc) as Cc'.
      cbn [SFmul xorb] in *.
      assert (Hle : (V (Zpos (m * mc)) (e + ec) <= V (Zpos mc) ec)%Z).
      { unfold V in *. rewrite Pos2Z.inj_mul.
        set (A := (2 ^ (e + K))%Z) in *. set (B := (2 ^ (ec + K))%Z) in *.
        set (C0 := (2 ^ (e + ec + K))%Z). set (D := (2 ^ K)%Z) in *.
        assert (P1 : (A * B = C0 * D)%Z).
        { unfold A, B, C0, D. rewrite <- !Z.pow_add_r by (unfold K in *; lia). f_equal. lia. }
        assert (PD : (0 < D)%Z) by (apply Z.pow_pos_nonneg; unfold K; lia).
        assert (PB : (0 < B)%Z) by pow_pos.
        assert (S1 : (Zpos m * A * B <= D * B)%Z) by (apply Z.mul_le_mono_nonneg_r; lia).
        assert (S2 : (Zpos m * C0 * D <= B * D)%Z).
        { replace (Zpos m * C0 * D)%Z with (Zpos m * A * B)%Z; [lia|].
          rewrite <- !Z.mul_assoc. f_equal. exact P1. }
        assert (S3 : (Zpos m * C0 <= B)%Z) by (apply (Z.mul_le_mono_pos_r _ _ D); assumption).
        replace (Zpos m * Zpos mc * C0)%Z with (Zpos mc * (Zpos m * C0))%Z by ring.
        apply Z.mul_le_mono_nonneg_l; lia. }
      assert (e <= 0)%Z.
      { assert (2 ^ (e + K) <= 2 ^ K)%Z.
        { unfold V in H1. assert (0 < 2 ^ (e + K))%Z by pow_pos. nia. }
        apply Z.pow_le_mono_r_iff in H; unfold K in *; lia. }
      pose proof (round2_upper (m * mc) (e + ec) mc ec ltac:(unfold K in *; lia) Cc Hle)
        as (F0 & FV & FE).
      rewrite binary_round_aux_round2 in *.
      destruct (fst (round2 (Zpos (m * mc)) (e + ec))) as [|m2|m2]; try lia.
      + cbn [ord]. split; [discriminate|lia].
      + specialize (FE ltac:(lia)).
        replace (snd (round2 (Zpos (m * mc)) (e + ec)) <=? emax - prec)%Z with true in *
          by (symmetry; apply Z.leb_le; change (emax - prec)%Z with 971%Z; lia).
        cbn [ord]. split; [discriminate|].
        apply valid_finite in Vr. destruct Vr as [Cr Er].
        pose proof (V_below_top _ _ Cr Er). lia. }
  destruct R as [Nr [R0 R1]].
  assert (N0 : nn 0) by (unfold nn; rewrite Prim2SF_zero; discriminate).
  assert (Nc : nn c) by (unfold nn; rewrite Hc; discriminate).
  split; apply leb_intro; try assumption.
Qed.


(** Alignment of mantissas. *)
Lemma iter_xO m d : Zpos (Pos.iter xO m d) = (Zpos m * 2 ^ Zpos d)%Z.
Proof.
  induction d as [|d IH] using Pos.peano_ind.
  - cbn [Pos.iter]. lia.
  - rewrite Pos.iter_succ, Pos2Z.inj_succ, Z.pow_succ_r by lia.
    rewrite Pos2Z.inj_xO, IH. ring.
Qed.

Lemma shl_align_spec m e e' :
  (0 <= e + K)%Z -> (0 <= e' + K)%Z ->
  snd (shl_align m e e') = Z.min e e' /\
  V (Zpos (fst (shl_align m e e'))) (snd (shl_align m e e')) = V (Zpos m) e.
Proof.
  intros He He'. unfold shl_align.
  destruct (e' - e)%Z as [|d|d] eqn:E; cbn [fst snd].
  - split; [lia|reflexivity].
  - split; [lia|reflexivity].
  - split; [lia|]. rewrite iter_xO, V_shift by lia. f_equal. lia.
Qed.

(** Adding a non-negative number never gives less. *)
Lemma add_nonneg_ge x y :
  (0 <=? x) = true -> (0 <=? y) = true -> (x <=? x + y) = true.
Proof.
  intros Hx Hy.
  assert (R : nn x /\ nn (x + y) /\ (rank x <= rank (x + y))%Z).
  { unfold nn, rank.
    pose proof (Prim2SF_valid (x + y)) as Vr.
    rewrite FloatAxioms.add_spec in *. unfold SF64add in *. pose proof top_pos as T.
    destruct (nonneg_cases x Hx) as [[sx Ex]|[Ex|(mx & ex & Ex & Cx & Lx)]];
    destruct (nonneg_cases y Hy) as [[sy Ey]|[Ey|(my & ey & Ey & Cy & Ly)]];
    rewrite Ex, Ey in *;
    try pose proof (V_below_top _ _ Cx Lx);
    try pose proof (V_below_top _ _ Cy Ly).
    - destruct sx, sy; cbn [SFadd ord]; repeat split; try congruence; lia.
    - cbn [SFadd ord]. repeat split; try congruence; lia.
    - cbn [SFadd ord]. repeat split; try congruence; lia.
    - cbn [SFadd ord]. repeat split; try congruence; lia.
    - cbn [SFadd ord]. repeat split; try congruence; lia.
    - cbn [SFadd ord]. repeat split; try congruence; lia.
    - cbn [SFadd ord]. repeat split; try congruence; lia.
    - cbn [SFadd ord]. repeat split; try congruence; lia.
    - pose proof (canonical_K _ _ Cx) as Kx. pose proof (canonical_K _ _ Cy) as Ky.
      pose proof (proj1 (canonical_eq _ _) Cx) as Cx'.
      pose proof (proj1 (canonical_eq _ _) Cy) as Cy'.
      cbn [SFadd cond_Zopp] in *.
      set (ez := Z.min ex ey) in *.
      assert (Kz : (0 <= ez + K)%Z) by (unfold ez; lia).
      destruct (shl_align_spec mx ex ez Kx Kz) as [A1 A2].
      destruct (shl_align_spec my ey ez Ky Kz) as [B1 B2].
      set (a := fst (shl_align mx ex ez)) in *.
      set (b := fst (shl_align my ey ez)) in *.
      replace (snd (shl_align mx ex ez)) with ez in A2 by (unfold ez in *; lia).
      replace (snd (shl_align my ey ez)) with ez in B2 by (unfold ez in *; lia).
      change (Zpos a + Zpos b)%Z with (Zpos (a + b)) in *.
      cbn [binary_normalize] in *. unfold binary_round in *.
      set (f := fexp prec emax (Zpos (digits2_pos (a + b)) + ez)) in *.
      assert (Kf : (0 <= f + K)%Z) by (unfold f; rewrite fexp64; unfold K; lia).
      destruct (shl_align_spec (a + b) ez f Kz Kf) as [S1 S2].
      destruct (shl_align (a + b) ez f) as [mz ez']. cbn [fst snd] in *.
      assert (Hge : (V (Zpos mx) ex <= V (Zpos mz) ez')%Z).
      { rewrite S2, <- A2. apply V_le_mono; lia. }
      pose proof (round2_lower mz ez' mx ex ltac:(lia) Cx Hge) as [P0 PV].
      rewrite binary_round_aux_round2 in *.
      destruct (fst (round2 (Zpos mz) ez')) as [|m2|m2]; try lia.
      destruct (snd (round2 (Zpos mz) ez') <=? emax - prec)%Z;
        cbn [ord]; repeat split; try congruence; lia. }
  destruct R as (Nx & Nr & R). apply leb_intro; assumption.
Qed.


(** Numbers with the same non-zero rank are the same float. *)
Lemma rank_inj x y :
  nn x -> nn y -> rank x = rank y -> rank x <> 0%Z -> x = y.
Proof.
  intros Nx Ny E NZ. apply Prim2SF_inj.
  pose proof (compare_rank x y Nx Ny) as H.
  rewrite E, Z.compare_refl in H. rewrite E in NZ. unfold rank, nn in *.
  destruct (Prim2SF x) as [sx|sx| |sx mx ex]; try congruence;
  destruct (Prim2SF y) as [sy|sy| |sy my ey]; try congruence;
  cbn [ord] in *; try lia.
  - destruct sx, sy; cbn in H; congruence.
  - destruct sx; discriminate.
  - destruct sy; discriminate.
  - cbn [SFcompare] in H.
    destruct sx, sy; try discriminate;
      destruct (ex ?= ey)%Z eqn:Ee; try discriminate;
      apply Z.compare_eq in Ee; subst ey;
      rewrite Pos.compare_cont_spec in H;
      destruct (Pos.compare_spec mx my); cbn in H; try discriminate; congruence.
Qed.

(** *** Finite numbers, and operations that give no NaN *)


Lemma isfinite_cases x :
  Py.isfinite x = true ->
  (exists s, Prim2SF x = S754_zero s) \/ (exists s m e, Prim2SF x = S754_finite s m e).
Proof.
  unfold Py.isfinite. rewrite FloatAxioms.classify_spec. unfold SF64classify, SFclassify.
  destruct (Prim2SF x) as [s|s| |s m e]; eauto.
  - destruct s; discriminate.
  - discriminate.
Qed.

Lemma finite_nonzero x :
  Py.isfinite x = true -> (x =? 0) = false -> exists s m e, Prim2SF x = S754_finite s m e.
Proof.
  intros F Z. destruct (isfinite_cases x F) as [[s E]|H]; [|exact H].
  rewrite FloatAxioms.eqb_spec, E, Prim2SF_zero in Z. discriminate.
Qed.

Lemma sub_nn x y : Py.isfinite x = true -> Py.isfinite y = true -> nn (x - y).
Proof.
  intros Fx Fy. unfold nn. rewrite FloatAxioms.sub_spec. unfold SF64sub.
  destruct (isfinite_cases x Fx) as [[sx Ex]|(sx & mx & ex & Ex)];
  destruct (isfinite_cases y Fy) as [[sy Ey]|(sy & my & ey & Ey)];
  rewrite Ex, Ey; cbn [SFsub]; try discriminate.
  - destruct sx, sy; discriminate.
  - apply binary_normalize_not_nan.
Qed.

Lemma div_nn x y s m e : nn x -> Prim2SF y = S754_finite s m e -> nn (x / y).
Proof.
  unfold nn. intros Nx Ey. rewrite FloatAxioms.div_spec. unfold SF64div. rewrite Ey.
  destruct (Prim2SF x) as [sx|sx| |sx mx ex]; cbn [SFdiv]; try discriminate; try congruence.
  unfold SFdiv_core_binary.
  set (m' := match (ex - e - _)%Z with Z0 => _ | Zpos _ => _ | Zneg _ => _ end).
  assert (Hm' : (0 <= m')%Z).
  { unfold m'. destruct (ex - e - _)%Z; try lia. apply Z.shiftl_nonneg. lia. }
  pose proof (Z.div_pos m' (Zpos m) Hm' ltac:(lia)) as Q.
  unfold Z.div in Q. destruct (Z.div_eucl m' (Zpos m)) as [q r].
  apply binary_round_aux_not_nan. exact Q.
Qed.

Lemma mul_nn x c s m e : nn x -> Prim2SF c = S754_finite s m e -> nn (x * c).
Proof.
  unfold nn. intros Nx Ec. rewrite FloatAxioms.mul_spec. unfold SF64mul. rewrite Ec.
  destruct (Prim2SF x) as [sx|sx| |sx mx ex]; cbn [SFmul]; try discriminate; try congruence.
  apply binary_round_aux_not_nan. lia.
Qed.

Lemma add_nn c y s m e : Prim2SF c = S754_finite s m e -> nn y -> nn (c + y).
Proof.
  unfold nn. intros Ec Ny. rewrite FloatAxioms.add_spec. unfold SF64add. rewrite Ec.
  destruct (Prim2SF y) as [sy|sy| |sy my ey]; cbn [SFadd]; try discriminate; try congruence.
  apply binary_normalize_not_nan.
Qed.


End FloatFacts.

(** ** The numbers of the program *)

Module NumFacts.

Import FloatModel FloatFacts.
Local Open Scope float_scope.

Lemma SFmul_comm x y : SFmul prec emax x y = SFmul prec emax y x.
Proof.
  destruct x as [sx|sx| |sx mx ex], y as [sy|sy| |sy my ey]; cbn [SFmul];
    rewrite ?(xorb_comm sx sy), ?(Pos.mul_comm mx my), ?(Z.add_comm ex ey); reflexivity.
Qed.

Lemma mul_comm x y : x * y = y * x.
Proof.
  apply Prim2SF_inj. rewrite !FloatAxioms.mul_spec. apply SFmul_comm.
Qed.

Lemma leb_not_gtb x y : (x <=? y) = true -> Py.gtb x y = false.
Proof.
  intros H. apply leb_true in H. destruct H as (Nx & Ny & H).
  unfold Py.gtb. rewrite ltb_rank by assumption. apply Z.ltb_ge. exact H.
Qed.

Lemma leb_trans x y z : (x <=? y) = true -> (y <=? z) = true -> (x <=? z) = true.
Proof.
  intros H1 H2. apply leb_true in H1, H2.
  destruct H1 as (Nx & Ny & H1), H2 as (_ & Nz & H2).
  apply leb_intro; auto. lia.
Qed.


Lemma nn_5 : nn 5.
Proof. unfold nn. vm_compute. discriminate. Qed.

Lemma nn_95 : nn 95.
Proof. unfold nn. vm_compute. discriminate. Qed.

Lemma rank_5_pos : (0 < rank 5)%Z.
Proof.
  assert (H : (0 <? 5) = true) by (vm_compute; reflexivity).
  apply ltb_true in H. rewrite rank_zero in H. tauto.
Qed.

Lemma rank_5_95 : (rank 5 < rank 95)%Z.
Proof.
  assert (H : (5 <? 95) = true) by (vm_compute; reflexivity).
  apply ltb_true in H. tauto.
Qed.

(** The estimate is within [5, 95] whatever the change is, NaN included. *)
Lemma estimate_of_change_range c :
  (5 <=? estimate_of_change c) = true /\ (estimate_of_change c <=? 95) = true.
Proof.
  unfold estimate_of_change, Py.max, Py.min, Py.gtb. cbv zeta.
  set (base := 50 + c * 2).
  assert (L5 : (5 <=? 5) = true) by (vm_compute; reflexivity).
  assert (L95 : (95 <=? 95) = true) by (vm_compute; reflexivity).
  assert (L595 : (5 <=? 95) = true) by (vm_compute; reflexivity).
  assert (T595 : (5 <? 95) = true) by (vm_compute; reflexivity).
  destruct (base <? 95) eqn:E1.
  - destruct (5 <? base) eqn:E2.
    + split; apply ltb_leb; assumption.
    + split; assumption.
  - rewrite T595. split; assumption.
Qed.

(** On a number, [max(5, min(95, x))] is the clamp of the specification. *)
Lemma max_min_clamp b : nn b -> Py.max 5 (Py.min 95 b) = clamp b 5 95.
Proof.
  intros Nb. pose proof nn_5 as N5. pose proof nn_95 as N95.
  pose proof rank_5_pos as P5. pose proof rank_5_95 as P.
  unfold Py.max, Py.min, Py.gtb, clamp.
  rewrite (ltb_rank b 95), (ltb_rank b 5), (ltb_rank 95 b) by assumption.
  destruct (Z.ltb_spec (rank b) (rank 95)) as [A|A].
  - rewrite (ltb_rank 5 b) by assumption.
    destruct (Z.ltb_spec (rank 5) (rank b)) as [B|B];
      destruct (Z.ltb_spec (rank b) (rank 5)) as [C|C];
      destruct (Z.ltb_spec (rank 95) (rank b)) as [D|D]; try lia; try reflexivity.
    apply rank_inj; auto; lia.
  - rewrite (ltb_rank 5 95) by assumption.
    destruct (Z.ltb_spec (rank 5) (rank 95)) as [B|B]; [|lia].
    destruct (Z.ltb_spec (rank b) (rank 5)) as [C|C];
      destruct (Z.ltb_spec (rank 95) (rank b)) as [D|D]; try lia; try reflexivity.
    apply rank_inj; auto; lia.
Qed.

Lemma Prim2SF_100 : Prim2SF 100 = S754_finite false 7036874417766400 (-46).
Proof. vm_compute. reflexivity. Qed.

Lemma Prim2SF_2 : Prim2SF 2 = S754_finite false 4503599627370496 (-51).
Proof. vm_compute. reflexivity. Qed.

Lemma Prim2SF_50 : Prim2SF 50 = S754_finite false 7036874417766400 (-47).
Proof. vm_compute. reflexivity. Qed.

(** On finite prices with a non-zero open, line 84 computes a number. *)
Lemma base_nn o c :
  Py.isfinite o = true -> Py.isfinite c = true -> (o =? 0) = false ->
  nn (50 + (c - o) / o * 100 * 2).
Proof.
  intros Fo Fc Z.
  destruct (finite_nonzero o Fo Z) as (s & m & e & Eo).
  eapply add_nn; [apply Prim2SF_50|].
  eapply mul_nn; [|apply Prim2SF_2].
  eapply mul_nn; [|apply Prim2SF_100].
  eapply div_nn; [|exact Eo].
  apply sub_nn; assumption.
Qed.

(** A value within [5, 95] is finite. *)
Lemma range_isfinite v :
  (5 <=? v) = true -> (v <=? 95) = true -> Py.isfinite v = true.
Proof.
  intros H1 H2. apply leb_true in H1, H2.
  destruct H1 as (_ & Nv & H1), H2 as (_ & N95 & H2).
  pose proof rank_5_pos as P5.
  pose proof (Prim2SF_valid 95) as V95.
  unfold Py.isfinite. rewrite FloatAxioms.classify_spec.
  unfold SF64classify, SFclassify. unfold rank, nn in *.
  destruct (Prim2SF 95) as [| | |s95 m95 e95] eqn:E95; try (vm_compute in E95; discriminate).
  apply valid_finite in V95. destruct V95 as [C95 L95].
  pose proof (V_below_top _ _ C95 L95) as B95.
  assert (ord (S754_finite s95 m95 e95) < top)%Z by (destruct s95; cbn [ord]; lia).
  destruct (Prim2SF v) as [s|s| |s m e]; try congruence.
  - destruct s; reflexivity.
  - destruct s; cbn [ord] in *; lia.
  - destruct s; destruct (Z.pos (digits2_pos m) =? prec)%Z; reflexivity.
Qed.

(** The price of a venue, a fraction of a dollar, as a percentage. *)
Lemma percentage_range p :
  (0 <=? p) = true -> (p <=? 1) = true ->
  (0 <=? p * 100) = true /\ (p * 100 <=? 100) = true.
Proof. apply mul_unit_range with (1 := Prim2SF_100). Qed.

(** A number equals itself; NaN does not. *)
Lemma eqb_refl_nn x : nn x -> (x =? x) = true.
Proof. intros N. rewrite (eqb_rank x x N N). apply Z.eqb_refl. Qed.

(** The percent change of finite prices is a number. *)
Lemma percent_change_nn o c :
  Py.isfinite o = true -> Py.isfinite c = true -> (o =? 0) = false ->
  nn ((c - o) / o * 100).
Proof.
  intros Fo Fc Z.
  destruct (finite_nonzero o Fo Z) as (s & m & e & E).
  apply (mul_nn _ 100 _ _ _ (div_nn _ o s m e (sub_nn c o Fc Fo) E) Prim2SF_100).
Qed.

End NumFacts.

(** ** The monad and the functions, as equations *)

Import FloatModel FloatFacts NumFacts.

Lemma push_nil s : push s [] = s.
Proof. destruct s. unfold push. cbn. now rewrite app_nil_r. Qed.

Lemma push_push s a b : push (push s a) b = push s (a ++ b).
Proof. unfold push. cbn. now rewrite app_assoc. Qed.

Lemma new_events_push s evs : new_events s (push s evs) = evs.
Proof.
  unfold new_events, push. cbn [log].
  rewrite skipn_app, Nat.sub_diag, skipn_all. reflexivity.
Qed.

Lemma new_events_app s sp l : new_events s {| spent := sp; log := log s ++ l |} = l.
Proof.
  unfold new_events. cbn [log].
  rewrite skipn_app, Nat.sub_diag, skipn_all. reflexivity.
Qed.

Lemma estimate_eq r s :
  estimate_up_probability r s = (push s [EvHttpGet], estimate_result r).
Proof.
  unfold estimate_up_probability, get_eth_recent_change, estimate_result,
    estimate_of_series, bind, emit, lift, ret, raise.
  destruct (klines r) as [data|e]; [|reflexivity].
  destruct (recent_change data); reflexivity.
Qed.

Lemma quote_eq r tok s :
  get_polymarket_price r tok s = (push s [EvGetPrice tok], quote_result r).
Proof.
  unfold get_polymarket_price, quote_result, bind, emit, lift, ret, raise.
  destruct (price r) as [p|e]; [|reflexivity].
  destruct (quote_of_price p); reflexivity.
Qed.

Lemma place_eq cfg r a s :
  place_up_market_order cfg r a s = (push s (order_events cfg r a), order_result r a).
Proof.
  unfold place_up_market_order, order_events, order_result.
  destruct (a <=? 0).
  - now rewrite push_nil.
  - unfold bind, emit, print, emit, lift, ret, raise.
    destruct (signed r) as [sg|e]; [|reflexivity].
    destruct (posted r) as [resp|e]; rewrite ?push_push; reflexivity.
Qed.

Lemma attempt_eq cfg r s :
  attempt cfg r s =
  match estimate_result r with
  | Raise e => (push s [EvHttpGet], Raise e)
  | Ok est =>
    match quote_result r with
    | Raise e => (push s [EvHttpGet; EvGetPrice (UP_TOKEN_ID cfg)], Raise e)
    | Ok None =>
      (push s [EvHttpGet; EvGetPrice (UP_TOKEN_ID cfg); EvPrint MNoPrice], Ok tt)
    | Ok (Some market) =>
      if should_trade cfg (est - market) (spent s) then
        let pre := quoted cfg est market
                   ++ EvPrint (MEdgeDetected (ORDER_SIZE cfg))
                   :: order_events cfg r (ORDER_SIZE cfg) in
        match order_result r (ORDER_SIZE cfg) with
        | Raise e => (push s pre, Raise e)
        | Ok _ =>
          ({| spent := spent s + ORDER_SIZE cfg;
              log := log s ++ pre ++ [EvRecord (ORDER_SIZE cfg) (spent s + ORDER_SIZE cfg)] |},
           Ok tt)
        end
      else (push s (quoted cfg est market ++ [EvPrint MNoTrade]), Ok tt)
    end
  end.
Proof.
  unfold attempt, bind at 1. rewrite estimate_eq.
  destruct (estimate_result r) as [est|e]; [|reflexivity].
  unfold bind at 1. rewrite quote_eq, push_push.
  destruct (quote_result r) as [[market|]|e]; try reflexivity.
  - unfold bind at 1, print at 1, emit at 1. rewrite push_push.
    unfold bind at 1, get_spent. cbn [spent push].
    destruct (should_trade cfg (est - market) (spent s)).
    + unfold bind at 1, print at 1, emit at 1. rewrite push_push.
      unfold bind at 1. rewrite place_eq, push_push.
      destruct (order_result r (ORDER_SIZE cfg)).
      * unfold add_spent, push. cbn [spent log]. unfold quoted.
        repeat (f_equal; cbn [app]; rewrite <- ?app_assoc).
      * unfold quoted. reflexivity.
    + unfold print, emit. rewrite push_push. reflexivity.
  - unfold print, emit. rewrite push_push. reflexivity.
Qed.

(** ** Reading the log of a round *)

Lemma recorded_app l1 l2 : recorded (l1 ++ l2) = recorded l1 ++ recorded l2.
Proof.
  induction l1 as [|ev l1 IH]; [reflexivity|].
  destruct ev; cbn [app recorded]; rewrite IH; reflexivity.
Qed.

Lemma spent_values_app l1 l2 :
  spent_values (l1 ++ l2) = spent_values l1 ++ spent_values l2.
Proof.
  induction l1 as [|ev l1 IH]; [reflexivity|].
  destruct ev; cbn [app spent_values]; rewrite IH; reflexivity.
Qed.

Lemma sleeps_app l1 l2 : sleeps (l1 ++ l2) = (sleeps l1 + sleeps l2)%nat.
Proof.
  induction l1 as [|ev l1 IH]; [reflexivity|].
  destruct ev; cbn [app sleeps]; rewrite IH; reflexivity.
Qed.

Lemma trades_app l1 l2 : trades (l1 ++ l2) = (trades l1 + trades l2)%nat.
Proof. unfold trades. now rewrite recorded_app, length_app. Qed.

Create Rewrite HintDb logs.
#[local] Hint Rewrite recorded_app spent_values_app sleeps_app trades_app : logs.

Lemma order_events_quiet cfg r a :
  recorded (order_events cfg r a) = [] /\
  spent_values (order_events cfg r a) = [] /\
  sleeps (order_events cfg r a) = 0%nat.
Proof.
  unfold order_events.
  destruct (a <=? 0); [auto|].
  destruct (signed r); [|auto]. destruct (posted r); auto.
Qed.

Lemma order_events_venue cfg r a :
  existsb is_venue_order (order_events cfg r a) = negb (a <=? 0).
Proof. unfold order_events. destruct (a <=? 0); reflexivity. Qed.

Lemma order_events_no_edge cfg r a :
  existsb is_edge_detected (order_events cfg r a) = false.
Proof.
  unfold order_events.
  destruct (a <=? 0); [reflexivity|].
  destruct (signed r); [|reflexivity]. destruct (posted r); reflexivity.
Qed.

(** What one attempt does to the state, whatever the round. *)
Lemma attempt_summary cfg r s :
  exists evs res,
    attempt cfg r s =
      ({| spent := if executes cfg r (spent s) then spent s + ORDER_SIZE cfg else spent s;
          log := log s ++ evs |}, res) /\
    recorded evs = (if executes cfg r (spent s) then [ORDER_SIZE cfg] else []) /\
    spent_values evs =
      (if executes cfg r (spent s) then [spent s + ORDER_SIZE cfg] else []) /\
    sleeps evs = 0%nat /\
    (executes cfg r (spent s) = true -> res = Ok tt).
Proof.
  rewrite attempt_eq. unfold executes, push, quoted.
  destruct (order_events_quiet cfg r (ORDER_SIZE cfg)) as (Q1 & Q2 & Q3).
  destruct (estimate_result r) as [est|e].
  2:{ do 2 eexists. repeat split; try reflexivity; try discriminate. }
  destruct (quote_result r) as [[market|]|e].
  2,3:(do 2 eexists; repeat split; try reflexivity; try discriminate).
  destruct (should_trade cfg (est - market) (spent s)); cbn [andb].
  2:{ do 2 eexists. repeat split; try reflexivity; try discriminate. }
  cbv zeta. destruct (order_result r (ORDER_SIZE cfg)).
  - do 2 eexists. split; [reflexivity|].
    autorewrite with logs.
    cbn [recorded spent_values sleeps app]. rewrite Q1, Q2, Q3.
    repeat split; reflexivity.
  - do 2 eexists. split; [reflexivity|].
    cbn [recorded spent_values sleeps app]. rewrite Q1, Q2, Q3.
    repeat split; try reflexivity; try discriminate.
Qed.

Lemma iteration_eq cfg r s :
  iteration cfg r s =
  (push (fst (attempt cfg r s))
     (match snd (attempt cfg r s) with
      | Ok _ => []
      | Raise e => [EvPrint (MError e)]
      end ++ [EvSleep (LOOP_INTERVAL_SEC cfg)]),
   Ok tt).
Proof.
  unfold iteration, bind, try_except, print, emit.
  destruct (attempt cfg r s) as [s1 [[]|e]]; cbn [fst snd app].
  - reflexivity.
  - now rewrite push_push.
Qed.

(** What one pass of the loop does to the state, whatever the round. *)
Lemma iteration_summary cfg r s :
  exists evs,
    iteration cfg r s =
      ({| spent := if executes cfg r (spent s) then spent s + ORDER_SIZE cfg else spent s;
          log := log s ++ evs |}, Ok tt) /\
    recorded evs = (if executes cfg r (spent s) then [ORDER_SIZE cfg] else []) /\
    spent_values evs =
      (if executes cfg r (spent s) then [spent s + ORDER_SIZE cfg] else []) /\
    sleeps evs = 1%nat.
Proof.
  rewrite iteration_eq.
  destruct (attempt_summary cfg r s) as (evs & res & E & R & SV & SL & _).
  rewrite E. cbn [fst snd]. unfold push. cbn [spent log].
  eexists. split; [rewrite <- app_assoc; reflexivity|].
  autorewrite with logs. rewrite R, SV, SL.
  destruct res as [[]|e]; cbn; rewrite ?app_nil_r; repeat split; reflexivity.
Qed.

(** A trade is executed only within the budget. *)
Lemma executes_budget cfg r sp :
  executes cfg r sp = true -> (sp + ORDER_SIZE cfg <=? MAX_HOURLY_SPEND cfg) = true.
Proof.
  unfold executes, should_trade.
  destruct (estimate_result r); [|discriminate].
  destruct (quote_result r) as [[m|]|]; try discriminate.
  intros H. apply andb_true_iff in H. destruct H as [H _].
  apply andb_true_iff in H. tauto.
Qed.

(** ** The loop *)

Lemma session_loop_cons cfg end_ts r rs s :
  session_loop cfg end_ts (r :: rs) s =
  if now r <? end_ts
  then session_loop cfg end_ts rs (fst (iteration cfg r s))
  else (s, Ok Finished).
Proof.
  cbn [session_loop]. destruct (now r <? end_ts); [|reflexivity].
  unfold bind. rewrite iteration_eq. reflexivity.
Qed.

(** The loop never raises, and keeps what every pass keeps. *)
Lemma session_loop_inv cfg end_ts (P : state -> Prop) :
  (forall r s, P s -> P (fst (iteration cfg r s))) ->
  forall rs s, P s ->
    P (fst (session_loop cfg end_ts rs s)) /\
    exists e, snd (session_loop cfg end_ts rs s) = Ok e.
Proof.
  intros Step rs. induction rs as [|r rs IH]; intros s Ps.
  - cbn. eauto.
  - rewrite session_loop_cons. destruct (now r <? end_ts).
    + apply IH, Step, Ps.
    + cbn. eauto.
Qed.

Lemma run_eq cfg w :
  run_one_hour_session cfg w fresh =
  if Py.startswith "YOUR_" (PRIVATE_KEY cfg) || Py.startswith "YOUR_" (FUNDER cfg)
  then (fresh, Raise RuntimeError)
  else
    match creds w with
    | Raise e => (fresh, Raise e)
    | Ok _ =>
      let s1 := fst (session_loop cfg (start w + 3600) (rounds w) (started w)) in
      match snd (session_loop cfg (start w + 3600) (rounds w) (started w)) with
      | Ok Finished => (push s1 [EvPrint (MFinished (spent s1))], Ok Finished)
      | Ok OutOfRounds => (s1, Ok OutOfRounds)
      | Raise e => (s1, Raise e)
      end
    end.
Proof.
  unfold run_one_hour_session, create_client.
  destruct (Py.startswith "YOUR_" (PRIVATE_KEY cfg) || Py.startswith "YOUR_" (FUNDER cfg)).
  - reflexivity.
  - unfold bind at 1. destruct (creds w) as [[]|e]; [|reflexivity].
    cbn [lift ret]. cbv zeta.
    unfold bind at 1, set_spent. unfold bind at 1, print, emit, push. cbn [spent log fresh app].
    unfold bind at 1. fold (started w).
    destruct (session_loop cfg (start w + 3600) (rounds w) (started w)) as [s1 [[]|e]];
      reflexivity.
Qed.

(** The loop is the passes over the rounds before the first clock reading
    that is not below [end_ts]. *)
Lemma session_loop_eq cfg end_ts rs s :
  session_loop cfg end_ts rs s = (iterate cfg (passed end_ts rs) s, Ok (ends end_ts rs)).
Proof.
  revert s. induction rs as [|r rs IH]; intros s.
  - reflexivity.
  - rewrite session_loop_cons. cbn [passed ends].
    destruct (now r <? end_ts); [|reflexivity].
    rewrite IH. reflexivity.
Qed.

Lemma passed_all end_ts rs :
  Forall (fun r => (now r <? end_ts) = true) rs ->
  passed end_ts rs = rs /\ ends end_ts rs = OutOfRounds.
Proof.
  induction 1 as [|r rs H _ [IH1 IH2]]; [auto|].
  cbn [passed ends]. rewrite H, IH1, IH2. auto.
Qed.

Lemma passed_until end_ts rs1 r rs2 :
  Forall (fun r => (now r <? end_ts) = true) rs1 ->
  (now r <? end_ts) = false ->
  passed end_ts (rs1 ++ r :: rs2) = rs1 /\ ends end_ts (rs1 ++ r :: rs2) = Finished.
Proof.
  intros H Hr. induction H as [|r1 rs1 H1 _ [IH1 IH2]].
  - cbn [app passed ends]. rewrite Hr. auto.
  - cbn [app passed ends]. rewrite H1, IH1, IH2. auto.
Qed.

Lemma iterate_cons cfg r rs s :
  iterate cfg (r :: rs) s = iterate cfg rs (fst (iteration cfg r s)).
Proof. reflexivity. Qed.

(** What the passes do to the state: they only add to the log, sleep once
    each, record [ORDER_SIZE] per executed trade and add it to [spent]. *)
Lemma iterate_summary cfg rs s :
  exists evs,
    log (iterate cfg rs s) = log s ++ evs /\
    sleeps evs = List.length rs /\
    recorded evs = repeat (ORDER_SIZE cfg) (trades evs) /\
    spent (iterate cfg rs s) = fold_left add (recorded evs) (spent s).
Proof.
  revert s. induction rs as [|r rs IH]; intros s.
  - exists []. cbn. rewrite app_nil_r. auto.
  - rewrite iterate_cons.
    destruct (iteration_summary cfg r s) as (ev1 & E & R & _ & SL).
    rewrite E. cbn [fst].
    match goal with |- context [iterate cfg rs ?s1] =>
      destruct (IH s1) as (ev2 & L2 & S2 & R2 & F2) end.
    cbn [log spent] in L2, F2.
    exists (ev1 ++ ev2). rewrite app_assoc. split; [exact L2|].
    rewrite sleeps_app, SL, S2. split; [reflexivity|].
    rewrite trades_app, recorded_app, repeat_app, <- R2, fold_left_app, F2.
    unfold trades. rewrite R.
    destruct (executes cfg r (spent s)); cbn [List.length repeat fold_left];
      split; reflexivity.
Qed.


(** With the shipped order size and ceiling the additions are exact: after
    [n] trades [spent] is [n * 5.0], and [n] is at most four. *)
Lemma iterate_shipped cfg rs s n :
  ORDER_SIZE cfg = 5 -> MAX_HOURLY_SPEND cfg = 20 ->
  (n <= 4)%nat -> spent s = float_of_nat n * 5 ->
  exists evs,
    log (iterate cfg rs s) = log s ++ evs /\
    (n + trades evs <= 4)%nat /\
    spent (iterate cfg rs s) = float_of_nat (n + trades evs) * 5.
Proof.
  intros HO HM. revert s n. induction rs as [|r rs IH]; intros s n Hn Hs.
  - exists []. cbn. rewrite app_nil_r, Nat.add_0_r. auto.
  - rewrite iterate_cons.
    destruct (iteration_summary cfg r s) as (ev1 & E & R & _).
    assert (Step : (n + trades ev1 <= 4)%nat /\
                   spent (fst (iteration cfg r s)) = float_of_nat (n + trades ev1) * 5).
    { rewrite E. cbn [fst spent]. unfold trades. rewrite R.
      destruct (executes cfg r (spent s)) eqn:X; cbn [List.length].
      - apply executes_budget in X. rewrite HO, HM, Hs in X. rewrite HO, Hs.
        do 5 (destruct n as [|n]; [vm_compute in X |- *; auto; discriminate|]). lia.
      - rewrite Nat.add_0_r. auto. }
    destruct Step as [S1 S2].
    destruct (IH _ _ S1 S2) as (ev2 & L2 & T2 & F2).
    assert (L1 : log (fst (iteration cfg r s)) = log s ++ ev1) by now rewrite E.
    exists (ev1 ++ ev2). rewrite app_assoc, trades_app, Nat.add_assoc, <- L1. auto.
Qed.

(** ** Passes and runs as traces *)

Ltac flat_log :=
  cbn [andb fst snd spent log];
  repeat (progress (repeat rewrite <- app_assoc; cbn [app]));
  reflexivity.

Lemma pass_eq cfg r s :
  iteration cfg r s =
  ({| spent := pass_spent cfg r (spent s);
      log := log s ++ pass_events cfg r (spent s) |}, Ok tt).
Proof.
  rewrite iteration_eq, attempt_eq.
  unfold pass_spent, pass_events, executes, push, quoted.
  destruct (estimate_result r) as [est|e]; [|flat_log].
  destruct (quote_result r) as [[market|]|e]; try flat_log.
  destruct (should_trade cfg (est - market) (spent s)); [|flat_log].
  destruct (order_result r (ORDER_SIZE cfg)); flat_log.
Qed.

Lemma iterate_trace cfg rs s :
  iterate cfg rs s =
  {| spent := spent_after cfg rs (spent s); log := log s ++ trace cfg rs (spent s) |}.
Proof.
  revert s. induction rs as [|r rs IH]; intros s.
  - cbn. rewrite app_nil_r. now destruct s.
  - rewrite iterate_cons, pass_eq, IH. cbn [fst spent log trace spent_after].
    now rewrite <- app_assoc.
Qed.

Lemma new_events_iterate cfg rs s :
  new_events s (iterate cfg rs s) = trace cfg rs (spent s).
Proof. rewrite iterate_trace. apply new_events_app. Qed.


(** ** Counting *)

Lemma count_app p l1 l2 : count p (l1 ++ l2) = (count p l1 + count p l2)%nat.
Proof. unfold count. now rewrite filter_app, length_app. Qed.

Lemma count_nil p : count p [] = 0%nat.
Proof. reflexivity. Qed.

Lemma existsb_count p l : existsb p l = false <-> count p l = 0%nat.
Proof.
  unfold count. induction l as [|ev l IH]; cbn [existsb filter]; [tauto|].
  destruct (p ev); cbn [orb List.length]; [split; intros; [discriminate|lia]|exact IH].
Qed.

Lemma new_events_iteration cfg r s :
  new_events s (fst (iteration cfg r s)) = pass_events cfg r (spent s).
Proof. rewrite pass_eq. apply new_events_app. Qed.

Lemma sleeps_count l : sleeps l = count (fun ev => match ev with EvSleep _ => true | _ => false end) l.
Proof.
  unfold count. induction l as [|ev l IH]; [reflexivity|].
  destruct ev; cbn [sleeps filter List.length]; now rewrite IH.
Qed.

(** The counts of one pass. *)
Lemma pass_tally cfg r sp :
  let evs := pass_events cfg r sp in
  count is_http_get evs = 1%nat /\
  sleeps evs = 1%nat /\
  (count is_get_price evs <= 1)%nat /\
  (count is_edge_detected evs <= count is_get_price evs)%nat /\
  (count is_create_order evs <= count is_edge_detected evs)%nat /\
  (count is_post_order evs <= count is_create_order evs)%nat /\
  (count is_response evs <= count is_post_order evs)%nat /\
  (trades evs <= count is_edge_detected evs)%nat /\
  ((ORDER_SIZE cfg <=? 0) = false -> trades evs = count is_response evs) /\
  ((ORDER_SIZE cfg <=? 0) = true ->
   count is_create_order evs = 0%nat /\ trades evs = count is_edge_detected evs).
Proof.
  cbv zeta. unfold pass_events, quoted, order_events, order_result, trades.
  destruct (estimate_result r) as [est|e];
    [destruct (quote_result r) as [[market|]|e];
     [destruct (should_trade cfg (est - market) sp);
      [destruct (ORDER_SIZE cfg <=? 0);
       [|destruct (signed r) as [sg|e]; [destruct (posted r) as [resp|e]|]]|]| |]|];
    cbn; repeat split; intros; try lia; try congruence.
Qed.

Lemma trace_tally cfg rs sp :
  let evs := trace cfg rs sp in
  count is_http_get evs = List.length rs /\
  sleeps evs = List.length rs /\
  (count is_get_price evs <= count is_http_get evs)%nat /\
  (count is_edge_detected evs <= count is_get_price evs)%nat /\
  (count is_create_order evs <= count is_edge_detected evs)%nat /\
  (count is_post_order evs <= count is_create_order evs)%nat /\
  (count is_response evs <= count is_post_order evs)%nat /\
  (trades evs <= count is_edge_detected evs)%nat /\
  ((ORDER_SIZE cfg <=? 0) = false -> trades evs = count is_response evs) /\
  ((ORDER_SIZE cfg <=? 0) = true ->
   count is_create_order evs = 0%nat /\ trades evs = count is_edge_detected evs).
Proof.
  cbv zeta. revert sp. induction rs as [|r rs IH]; intros sp.
  - cbn. repeat split; intros; lia.
  - cbn [trace List.length].
    rewrite !count_app, sleeps_app, trades_app.
    pose proof (pass_tally cfg r sp) as P. cbv zeta in P.
    destruct P as (P1 & P2 & P3 & P4 & P5 & P6 & P7 & P8 & P9 & P10).
    destruct (IH (pass_spent cfg r sp)) as (I1 & I2 & I3 & I4 & I5 & I6 & I7 & I8 & I9 & I10).
    repeat (split; [lia|]).
    split; intros G; [specialize (P9 G); specialize (I9 G)
                     |specialize (P10 G); specialize (I10 G)]; lia.
Qed.

(** * The properties of the specification *)

(** ** C1: the budget invariant *)

Lemma iteration_within_budget cfg r s :
  within_budget cfg s -> within_budget cfg (fst (iteration cfg r s)).
Proof.
  intros [B1 B2].
  destruct (iteration_summary cfg r s) as (evs & E & _ & SV & _).
  rewrite E. unfold within_budget. cbn [fst spent log].
  rewrite spent_values_app, SV.
  destruct (executes cfg r (spent s)) eqn:X.
  - apply executes_budget in X. split; [exact X|].
    apply Forall_app. split; [exact B2|]. constructor; [exact X|constructor].
  - split; [exact B1|]. now rewrite app_nil_r.
Qed.

Lemma iterate_within_budget cfg rs s :
  within_budget cfg s -> within_budget cfg (iterate cfg rs s).
Proof.
  revert s. induction rs as [|r rs IH]; intros s H; [exact H|].
  rewrite iterate_cons. apply IH, iteration_within_budget, H.
Qed.

(** C1.  Budget invariant.  If the ceiling is non-negative then, whatever
    the collaborators answer, [spent] is at most [MAX_HOURLY_SPEND] when
    [run_one_hour_session] stops, and so is every value [spent] was ever
    given: the [0.0] of line 131 and each total that line 152 recorded; and
    the same holds after any number of passes of the loop, whatever their
    rounds.  (That [ORDER_SIZE] be non-negative is not needed: line 149
    tests the very sum that line 152 stores.) *)
Theorem budget_invariant cfg w :
  (0 <=? MAX_HOURLY_SPEND cfg) = true ->
  within_budget cfg (fst (run_one_hour_session cfg w fresh)) /\
  (forall rs, within_budget cfg (iterate cfg rs (started w))).
Proof.
  intros H0.
  assert (F : within_budget cfg fresh) by (split; [exact H0|constructor]).
  assert (S0 : within_budget cfg (started w)).
  { split; [exact H0|]. cbn. constructor; [exact H0|constructor]. }
  split; [|intros rs; apply iterate_within_budget, S0].
  rewrite run_eq.
  destruct (_ || _); [exact F|].
  destruct (creds w); [|exact F].
  rewrite session_loop_eq. cbn [fst snd].
  pose proof (iterate_within_budget cfg (passed (start w + 3600) (rounds w)) _ S0)
    as [I1 I2].
  destruct (ends (start w + 3600) (rounds w)); cbn [fst]; [|split; assumption].
  split; [exact I1|].
  cbn [push log]. rewrite spent_values_app. cbn. now rewrite app_nil_r.
Qed.

(** The invariant on the sample session. *)
Lemma budget_invariant_witness :
  within_budget wallet (fst (run_one_hour_session wallet sample_world fresh)).
Proof.
  apply (budget_invariant wallet sample_world). vm_compute. reflexivity.
Defined.

(** ** C2: the trade decision *)

(** C2, counterexample.  The decision is not the specification's
    [edge > threshold and remaining() >= orderSize], and what is decided is
    not always submitted.
    With [ORDER_SIZE = 0.1] and [MAX_HOURLY_SPEND = 0.7], six trades bring
    [spent] to the float [0.6]; in the next round [0.6 + 0.1 <= 0.7] holds in
    binary64, so the order is built and posted, while the remaining budget
    [0.7 - 0.6] is [0.09999999999999998], less than the order size.
    With the shipped constants and a client whose [create_market_order]
    raises, the edge is 20 and the budget is there in either form, the order
    is built and nothing is posted. *)
Lemma trade_decision_counterexample :
  let s6 := iterate dimes (firstn 6 (rounds busy_world)) (started busy_world) in
  let evs6 := new_events s6 (fst (attempt dimes (good_round 1120) s6)) in
  let evs := new_events fresh (fst (attempt wallet (signing_down 0) fresh)) in
  (spent s6 = 0.6 /\
   estimate_result (good_round 1120) = Ok 70 /\
   quote_result (good_round 1120) = Ok (Some 50) /\
   Py.gtb (70 - 50) (EDGE_THRESHOLD dimes) = true /\
   (spent s6 + ORDER_SIZE dimes <=? MAX_HOURLY_SPEND dimes) = true /\
   (ORDER_SIZE dimes <=? remaining dimes (spent s6)) = false /\
   spec_should_trade dimes (70 - 50) (spent s6) = false /\
   count is_post_order evs6 = 1%nat) /\
  (estimate_result (signing_down 0) = Ok 70 /\
   quote_result (signing_down 0) = Ok (Some 50) /\
   should_trade wallet (70 - 50) 0 = true /\
   spec_should_trade wallet (70 - 50) 0 = true /\
   count is_create_order evs = 1%nat /\
   count is_post_order evs = 0%nat) /\
  ~ (forall cfg r s est market,
        estimate_result r = Ok est -> quote_result r = Ok (Some market) ->
        (existsb is_post_order (new_events s (fst (attempt cfg r s))) = true <->
         spec_should_trade cfg (est - market) (spent s) = true)).
Proof.
  cbv zeta.
  assert (A : existsb is_post_order
                (new_events fresh (fst (attempt wallet (signing_down 0) fresh))) = false)
    by (vm_compute; reflexivity).
  split; [|split].
  - repeat split; vm_compute; reflexivity.
  - repeat split; vm_compute; reflexivity.
  - intros H.
    destruct (H wallet (signing_down 0) fresh 70 50 eq_refl eq_refl) as [_ B].
    rewrite A in B. discriminate B. reflexivity.
Qed.

(** C2, as amended.  Trade decision rule.  In a round in which the estimate
    [est] and a market quote [market] are there, with [edge = est - market]:
    the bot announces an edge and calls the order executor exactly when
    [edge > EDGE_THRESHOLD] and [spent + ORDER_SIZE <= MAX_HOURLY_SPEND], the
    sum being the binary64 one of line 149;
    the executor builds an order for the venue exactly when moreover
    [ORDER_SIZE] is not [<= 0] (its own guard returns at once otherwise),
    and the order is posted exactly when moreover [create_market_order]
    returns;
    so for [edge <= EDGE_THRESHOLD] nothing reaches the venue, and for
    [spent + ORDER_SIZE > MAX_HOURLY_SPEND] nothing does whatever the edge;
    [spent = 15], ceiling [20], order size [10] is such a case.
    With the shipped [ORDER_SIZE = 5.0] and [MAX_HOURLY_SPEND = 20.0],
    where [spent] is a multiple of five, the decision is the
    specification's, [remaining() >= orderSize]. *)
Theorem trade_decision_rule cfg r s est market :
  estimate_result r = Ok est ->
  quote_result r = Ok (Some market) ->
  let edge := est - market in
  let evs := new_events s (fst (attempt cfg r s)) in
  let go := Py.gtb edge (EDGE_THRESHOLD cfg)
            && (spent s + ORDER_SIZE cfg <=? MAX_HOURLY_SPEND cfg) in
  let sized := negb (ORDER_SIZE cfg <=? 0) in
  let signs := match signed r with Ok _ => true | Raise _ => false end in
  existsb is_edge_detected evs = go /\
  existsb is_venue_order evs = go && sized /\
  count is_edge_detected evs = (if go then 1 else 0)%nat /\
  count is_create_order evs = (if go && sized then 1 else 0)%nat /\
  count is_post_order evs = (if go && sized && signs then 1 else 0)%nat /\
  ((edge <=? EDGE_THRESHOLD cfg) = true -> existsb is_venue_order evs = false) /\
  ((spent s + ORDER_SIZE cfg <=? MAX_HOURLY_SPEND cfg) = false ->
   existsb is_venue_order evs = false) /\
  (forall cfg' e, MAX_HOURLY_SPEND cfg' = 20 -> ORDER_SIZE cfg' = 10 ->
                  should_trade cfg' e 15 = false) /\
  (forall n, (n <= 4)%nat -> spent s = float_of_nat n * 5 ->
             ORDER_SIZE cfg = 5 -> MAX_HOURLY_SPEND cfg = 20 ->
             should_trade cfg edge (spent s) = spec_should_trade cfg edge (spent s)).
Proof.
  intros He Hq edge evs go sized signs.
  assert (A : existsb is_edge_detected evs = go /\
              existsb is_venue_order evs = go && negb (ORDER_SIZE cfg <=? 0)).
  { subst evs. rewrite attempt_eq, He, Hq. fold edge.
    change (should_trade cfg edge (spent s)) with go.
    destruct go.
    - cbv zeta. destruct (order_result r (ORDER_SIZE cfg));
        cbn [fst]; unfold push; rewrite new_events_app;
        rewrite !existsb_app; cbn [existsb quoted is_edge_detected is_venue_order];
        rewrite ?order_events_venue, ?order_events_no_edge;
        cbn [orb andb]; rewrite ?orb_false_r; split; reflexivity.
    - cbn [fst]. rewrite new_events_push. split; reflexivity. }
  assert (C : count is_edge_detected evs = (if go then 1 else 0)%nat /\
              count is_create_order evs = (if go && sized then 1 else 0)%nat /\
              count is_post_order evs = (if go && sized && signs then 1 else 0)%nat).
  { subst evs sized signs. rewrite attempt_eq, He, Hq. fold edge.
    change (should_trade cfg edge (spent s)) with go.
    unfold order_result, order_events, quoted, push.
    destruct go; cbv zeta;
      [destruct (ORDER_SIZE cfg <=? 0);
       [|destruct (signed r) as [sg|e]; [destruct (posted r) as [resp|e]|]]|];
      cbn [fst spent log]; rewrite new_events_app; cbn; auto. }
  destruct A as [A1 A2]. destruct C as (C1 & C2 & C3).
  split; [exact A1|]. split; [exact A2|].
  split; [exact C1|]. split; [exact C2|]. split; [exact C3|].
  split; [|split; [|split]].
  - intros L. rewrite A2. subst go. now rewrite (leb_not_gtb _ _ L).
  - intros L. rewrite A2. subst go. rewrite L. now rewrite andb_false_r.
  - intros cfg' e H20 H10. unfold should_trade. rewrite H20, H10.
    replace (15 + 10 <=? 20) with false by (vm_compute; reflexivity).
    apply andb_false_r.
  - intros n Hn Hs HO HM. unfold should_trade, spec_should_trade, remaining.
    rewrite Hs, HO, HM. f_equal.
    do 5 (destruct n as [|n]; [vm_compute; reflexivity|]). lia.
Qed.

(** The rule in a round with estimate 70 and quote 50, [spent] at 15: one
    order is built and posted. *)
Lemma trade_decision_rule_witness :
  let s := {| spent := 15; log := [] |} in
  let evs := new_events s (fst (attempt wallet (good_round 0) s)) in
  existsb is_venue_order evs = Py.gtb (70 - 50) 10 && (15 + 5 <=? 20) && negb (5 <=? 0) /\
  count is_post_order evs = 1%nat /\
  should_trade wallet (70 - 50) 15 = spec_should_trade wallet (70 - 50) 15.
Proof.
  intros s evs.
  assert (E : estimate_result (good_round 0) = Ok 70) by (vm_compute; reflexivity).
  assert (Q : quote_result (good_round 0) = Ok (Some 50)) by (vm_compute; reflexivity).
  destruct (trade_decision_rule wallet (good_round 0) s 70 50 E Q)
    as (_ & H & _ & _ & P & _ & _ & _ & R).
  exact (conj H (conj P (R 3%nat ltac:(lia) eq_refl eq_refl eq_refl))).
Defined.

(** ** C3: failure isolation *)

Lemma attempt_raise_keeps_spent cfg r s e :
  snd (attempt cfg r s) = Raise e ->
  spent (fst (attempt cfg r s)) = spent s /\
  recorded (new_events s (fst (attempt cfg r s))) = [].
Proof.
  destruct (attempt_summary cfg r s) as (evs & res & E & R & _ & _ & X).
  rewrite E. cbn [fst snd]. intros Hr. subst res.
  rewrite new_events_app.
  destruct (executes cfg r (spent s)); [specialize (X eq_refl); discriminate|].
  auto.
Qed.

(** C3.  Failure isolation.  An exception raised by the estimate, by the
    quote or by the order call makes the body of the [try] raise; whenever
    that body raises [e], the pass itself returns normally, having printed
    the error and slept, and [spent] is what it was; the loop then goes on
    with the remaining rounds exactly as it would from that state; and the
    loop as a whole never raises, whatever the rounds are. *)
Theorem failure_isolation cfg end_ts r rs s e :
  (estimate_result r = Raise e -> snd (attempt cfg r s) = Raise e) /\
  (forall est, estimate_result r = Ok est -> quote_result r = Raise e ->
               snd (attempt cfg r s) = Raise e) /\
  (forall est market,
      estimate_result r = Ok est -> quote_result r = Ok (Some market) ->
      should_trade cfg (est - market) (spent s) = true ->
      order_result r (ORDER_SIZE cfg) = Raise e ->
      snd (attempt cfg r s) = Raise e) /\
  (snd (attempt cfg r s) = Raise e ->
   let s' := push (fst (attempt cfg r s))
                  [EvPrint (MError e); EvSleep (LOOP_INTERVAL_SEC cfg)] in
   iteration cfg r s = (s', Ok tt) /\
   spent s' = spent s /\
   ((now r <? end_ts) = true ->
    session_loop cfg end_ts (r :: rs) s = session_loop cfg end_ts rs s')) /\
  (exists ending, snd (session_loop cfg end_ts (r :: rs) s) = Ok ending).
Proof.
  split; [|split; [|split; [|split]]].
  - intros H. rewrite attempt_eq, H. reflexivity.
  - intros est H1 H2. rewrite attempt_eq, H1, H2. reflexivity.
  - intros est market H1 H2 H3 H4. rewrite attempt_eq, H1, H2, H3. cbv zeta.
    rewrite H4. reflexivity.
  - intros H s'. split; [|split].
    + rewrite iteration_eq, H. reflexivity.
    + cbn [push spent]. apply (attempt_raise_keeps_spent cfg r s e H).
    + intros T. rewrite session_loop_cons, T, iteration_eq, H. reflexivity.
  - apply (session_loop_inv cfg end_ts (fun _ => True)); auto.
Qed.

(** A round in which the feed is down, followed by a good one. *)
Lemma failure_isolation_witness :
  exists s',
    iteration wallet (feed_down 1020) fresh = (s', Ok tt) /\
    spent s' = 0 /\
    session_loop wallet 4600 [feed_down 1020; good_round 1040] fresh
    = session_loop wallet 4600 [good_round 1040] s'.
Proof.
  destruct (failure_isolation wallet 4600 (feed_down 1020) [good_round 1040]
              fresh RequestException) as (H1 & _ & _ & H4 & _).
  specialize (H4 (H1 eq_refl)). cbv zeta in H4. destruct H4 as (A & B & C).
  eexists. split; [exact A|]. split; [exact B|].
  apply C. vm_compute. reflexivity.
Defined.

(** ** C4: spend bookkeeping *)

(** C4.  Spend bookkeeping.  In a round whose decision is to trade:
    if the order call returns, whatever it returns ([None] from its guard, an
    acceptance or a rejection), the pass ends with [spent] increased by
    [ORDER_SIZE], recorded once, and that record comes after everything the
    order call did; if the order call raises, [spent] is unchanged and
    nothing is recorded.  And in any round whatever, the pass records
    [ORDER_SIZE] once if it executes a trade and nothing otherwise. *)
Theorem spend_bookkeeping cfg r s :
  (forall est market,
      estimate_result r = Ok est -> quote_result r = Ok (Some market) ->
      should_trade cfg (est - market) (spent s) = true ->
      let pre := quoted cfg est market
                 ++ EvPrint (MEdgeDetected (ORDER_SIZE cfg))
                 :: order_events cfg r (ORDER_SIZE cfg) in
      (forall resp, order_result r (ORDER_SIZE cfg) = Ok resp ->
         attempt cfg r s =
           ({| spent := spent s + ORDER_SIZE cfg;
               log := log s ++ pre
                      ++ [EvRecord (ORDER_SIZE cfg) (spent s + ORDER_SIZE cfg)] |},
            Ok tt)) /\
      (forall e, order_result r (ORDER_SIZE cfg) = Raise e ->
         attempt cfg r s = (push s pre, Raise e) /\
         spent (fst (iteration cfg r s)) = spent s /\
         recorded (new_events s (fst (iteration cfg r s))) = [])) /\
  spent (fst (iteration cfg r s))
  = (if executes cfg r (spent s) then spent s + ORDER_SIZE cfg else spent s) /\
  recorded (new_events s (fst (iteration cfg r s)))
  = (if executes cfg r (spent s) then [ORDER_SIZE cfg] else []).
Proof.
  assert (G : spent (fst (iteration cfg r s))
              = (if executes cfg r (spent s) then spent s + ORDER_SIZE cfg else spent s) /\
              recorded (new_events s (fst (iteration cfg r s)))
              = (if executes cfg r (spent s) then [ORDER_SIZE cfg] else [])).
  { destruct (iteration_summary cfg r s) as (evs & E & R & _).
    rewrite E. cbn [fst spent]. rewrite new_events_app. auto. }
  split; [|exact G].
  intros est market H1 H2 H3 pre. split.
  - intros resp H4. rewrite attempt_eq, H1, H2, H3. cbv zeta. rewrite H4. reflexivity.
  - intros e H4.
    assert (X : executes cfg r (spent s) = false).
    { unfold executes. rewrite H1, H2, H3, H4. reflexivity. }
    rewrite X in G. split; [|exact G].
    rewrite attempt_eq, H1, H2, H3. cbv zeta. rewrite H4. reflexivity.
Qed.

(** A rejection that is returned consumes budget; an order call that
    raises does not. *)
Lemma spend_bookkeeping_witness :
  spent (fst (attempt wallet (rejected 0) fresh)) = 5 /\
  spent (fst (iteration wallet (venue_down 0) fresh)) = 0.
Proof.
  assert (E : forall r, klines r = klines (good_round 0) -> estimate_result r = Ok 70).
  { intros r H. unfold estimate_result. rewrite H. vm_compute. reflexivity. }
  assert (Q : forall r, price r = price (good_round 0) -> quote_result r = Ok (Some 50)).
  { intros r H. unfold quote_result. rewrite H. vm_compute. reflexivity. }
  assert (T : should_trade wallet (70 - 50) (spent fresh) = true)
    by (vm_compute; reflexivity).
  split.
  - destruct (spend_bookkeeping wallet (rejected 0) fresh) as (H & _).
    destruct (H 70 50 (E _ eq_refl) (Q _ eq_refl) T) as (A & _).
    rewrite (A (Some {| success := false; raw := "not filled" |}) eq_refl).
    reflexivity.
  - destruct (spend_bookkeeping wallet (venue_down 0) fresh) as (H & _).
    destruct (H 70 50 (E _ eq_refl) (Q _ eq_refl) T) as (_ & B).
    destruct (B PolyApiException eq_refl) as (_ & C & _).
    exact C.
Defined.

(** ** C5: the end of the session and its summary *)

(** C5, counterexample.  With [ORDER_SIZE = 0.1] and
    [MAX_HOURLY_SPEND = 0.7], eight rounds with an edge and then the reading
    that ends the hour: the session finishes, seven trades are executed
    (seven orders answered, seven sizes recorded), and the total it prints,
    which is the sum of the recorded sizes, is the float [0.7]; the number of
    executed trades times [ORDER_SIZE] is [0.7000000000000001]. *)
Lemma summary_total_counterexample :
  let s := fst (run_one_hour_session dimes busy_world fresh) in
  snd (run_one_hour_session dimes busy_world fresh) = Ok Finished /\
  last (log s) EvHttpGet = EvPrint (MFinished 0.7) /\
  trades (log s) = 7%nat /\
  count is_response (log s) = 7%nat /\
  fsum (recorded (log s)) = 0.7 /\
  float_of_nat 7 * ORDER_SIZE dimes = 0.7000000000000001 /\
  (0.7 =? float_of_nat (trades (log s)) * ORDER_SIZE dimes) = false.
Proof. cbv zeta. repeat split; vm_compute; reflexivity. Qed.

(** The trades a run of the loop executes are the order calls the venue
    answered, when the order size is not [<= 0]. *)
Lemma iterate_responses cfg rs s :
  (ORDER_SIZE cfg <=? 0) = false ->
  trades (new_events s (iterate cfg rs s)) = count is_response (new_events s (iterate cfg rs s)).
Proof. intros G. rewrite new_events_iterate. now apply trace_tally. Qed.

(** C5, as amended.  Session termination and summary.  With a wallet
    configured and a client obtained, [end_ts] is the start time plus 3600
    seconds, computed once.  If the clock readings of the rounds [rs1] are
    all below [end_ts] and the next reading is at or past it, the session
    makes exactly the passes [rs1] (one sleep each), stops at that reading
    without looking at any later round, and prints as its total the final
    [spent], which is the sum, left to right from zero in binary64, of the
    order sizes recorded: one [ORDER_SIZE] per executed trade, an executed
    trade being, for an order size that is not [<= 0], an order call that
    the venue answered.  With the shipped [ORDER_SIZE = 5.0] and
    [MAX_HOURLY_SPEND = 20.0] that sum is exactly the number of executed
    trades times [ORDER_SIZE].  While every reading is below [end_ts] the
    loop does not stop. *)
Theorem session_termination_and_summary cfg w :
  (Py.startswith "YOUR_" (PRIVATE_KEY cfg) || Py.startswith "YOUR_" (FUNDER cfg)) = false ->
  creds w = Ok tt ->
  let end_ts := start w + 3600 in
  (forall rs1 r rs2,
      rounds w = rs1 ++ r :: rs2 ->
      Forall (fun r => (now r <? end_ts) = true) rs1 ->
      (end_ts <=? now r) = true ->
      let s1 := iterate cfg rs1 (started w) in
      run_one_hour_session cfg w fresh
      = (push s1 [EvPrint (MFinished (spent s1))], Ok Finished) /\
      sleeps (log s1) = List.length rs1 /\
      spent s1 = fsum (recorded (log s1)) /\
      recorded (log s1) = repeat (ORDER_SIZE cfg) (trades (log s1)) /\
      ((ORDER_SIZE cfg <=? 0) = false ->
       trades (log s1) = count is_response (log s1) /\
       spent s1 = fsum (repeat (ORDER_SIZE cfg) (count is_response (log s1)))) /\
      (ORDER_SIZE cfg = 5 -> MAX_HOURLY_SPEND cfg = 20 ->
       spent s1 = float_of_nat (trades (log s1)) * ORDER_SIZE cfg /\
       spent s1 = float_of_nat (count is_response (log s1)) * ORDER_SIZE cfg)) /\
  (Forall (fun r => (now r <? end_ts) = true) (rounds w) ->
   run_one_hour_session cfg w fresh
   = (iterate cfg (rounds w) (started w), Ok OutOfRounds)).
Proof.
  intros HK HC end_ts. split.
  - intros rs1 r rs2 HR H1 Hr s1.
    assert (Hr' : (now r <? end_ts) = false) by (apply (leb_not_gtb _ _ Hr)).
    destruct (passed_until end_ts rs1 r rs2 H1 Hr') as [P1 P2].
    assert (SUM : spent s1 = fsum (recorded (log s1))).
    { destruct (iterate_summary cfg rs1 (started w)) as (evs & L & _ & _ & F).
      fold s1 in L, F. rewrite L, recorded_app, F. reflexivity. }
    assert (REC : recorded (log s1) = repeat (ORDER_SIZE cfg) (trades (log s1))).
    { destruct (iterate_summary cfg rs1 (started w)) as (evs & L & _ & R & _).
      fold s1 in L. rewrite L, trades_app, recorded_app. exact R. }
    assert (RESP : (ORDER_SIZE cfg <=? 0) = false ->
                   trades (log s1) = count is_response (log s1)).
    { intros G. pose proof (iterate_responses cfg rs1 (started w) G) as T.
      fold s1 in T. unfold s1 in *. rewrite iterate_trace in *.
      cbn [log started] in *. rewrite new_events_app in T.
      rewrite trades_app, count_app, T. reflexivity. }
    split; [|split; [|split; [|split; [|split]]]].
    + rewrite run_eq, HK, HC. fold end_ts. rewrite session_loop_eq, HR, P1, P2.
      reflexivity.
    + destruct (iterate_summary cfg rs1 (started w)) as (evs & L & SL & _).
      fold s1 in L. rewrite L, sleeps_app, SL. reflexivity.
    + exact SUM.
    + exact REC.
    + intros G. split; [exact (RESP G)|].
      rewrite <- (RESP G), <- REC. exact SUM.
    + intros HO HM.
      assert (G : (ORDER_SIZE cfg <=? 0) = false) by (rewrite HO; reflexivity).
      destruct (iterate_shipped cfg rs1 (started w) 0 HO HM) as (evs & L & _ & F).
      * lia.
      * vm_compute. reflexivity.
      * fold s1 in L, F.
        assert (P : spent s1 = float_of_nat (trades (log s1)) * ORDER_SIZE cfg)
          by (rewrite L, trades_app, HO; exact F).
        split; [exact P|]. rewrite <- (RESP G). exact P.
  - intros H. destruct (passed_all end_ts (rounds w) H) as [P1 P2].
    rewrite run_eq, HK, HC. fold end_ts. rewrite session_loop_eq, P1, P2. reflexivity.
Qed.

(** The sample session: nine passes, then the reading that ends it; four
    orders answered, twenty dollars spent and printed. *)
Lemma session_termination_and_summary_witness :
  let s1 := iterate wallet (firstn 9 (rounds sample_world)) (started sample_world) in
  run_one_hour_session wallet sample_world fresh
  = (push s1 [EvPrint (MFinished 20)], Ok Finished) /\
  sleeps (log s1) = 9%nat /\
  count is_response (log s1) = 4%nat /\
  trades (log s1) = 4%nat /\
  spent s1 = float_of_nat 4 * 5 /\
  spent s1 = 20.
Proof.
  assert (HK : (Py.startswith "YOUR_" (PRIVATE_KEY wallet)
                || Py.startswith "YOUR_" (FUNDER wallet)) = false) by reflexivity.
  destruct (session_termination_and_summary wallet sample_world HK eq_refl) as [H _].
  destruct (H (firstn 9 (rounds sample_world)) (good_round 4600) [good_round 4620])
    as (A & B & C & D & E & F).
  - reflexivity.
  - cbn [firstn rounds sample_world]. repeat constructor.
  - vm_compute. reflexivity.
  - destruct (E eq_refl) as [E1 E2]. destruct (F eq_refl eq_refl) as [F1 F2].
    assert (N : count is_response
                  (log (iterate wallet (firstn 9 (rounds sample_world))
                          (started sample_world))) = 4%nat)
      by (vm_compute; reflexivity).
    rewrite N in E1, F2.
    assert (T : spent (iterate wallet (firstn 9 (rounds sample_world))
                         (started sample_world)) = 20)
      by (rewrite F2; vm_compute; reflexivity).
    cbv zeta. rewrite A, T. exact (conj eq_refl (conj B (conj N (conj E1 (conj F2 eq_refl))))).
Defined.

(** ** C7: the market quote reader *)

(** C7.  Market quote reader.  When the venue's lookup yields [None] the
    reader returns [None] and does not raise; when it yields a price [p] with
    [0 <= p <= 1] the reader returns [p * 100], which lies between 0 and
    100; and a round whose estimate is there and whose quote is [None] prints
    that there is no price, hands nothing to the venue, records nothing,
    leaves [spent] as it was and sleeps, after which the loop goes on with
    the next round. *)
Theorem market_quote_reader cfg r tok s :
  (price r = Ok None ->
   get_polymarket_price r tok s = (push s [EvGetPrice tok], Ok None)) /\
  (forall p, price r = Ok (Some (JFloat p)) ->
             (0 <=? p) = true -> (p <=? 1) = true ->
             get_polymarket_price r tok s = (push s [EvGetPrice tok], Ok (Some (p * 100))) /\
             (0 <=? p * 100) = true /\ (p * 100 <=? 100) = true) /\
  (forall est end_ts rs,
      estimate_result r = Ok est -> price r = Ok None ->
      let s' := push s [EvHttpGet; EvGetPrice (UP_TOKEN_ID cfg);
                        EvPrint MNoPrice; EvSleep (LOOP_INTERVAL_SEC cfg)] in
      iteration cfg r s = (s', Ok tt) /\
      spent s' = spent s /\
      existsb is_venue_order (new_events s s') = false /\
      recorded (new_events s s') = [] /\
      ((now r <? end_ts) = true ->
       session_loop cfg end_ts (r :: rs) s = session_loop cfg end_ts rs s')).
Proof.
  split; [|split].
  - intros H. rewrite quote_eq. unfold quote_result. rewrite H. reflexivity.
  - intros p H H0 H1. split.
    + rewrite quote_eq. unfold quote_result. rewrite H. reflexivity.
    + apply percentage_range; assumption.
  - intros est end_ts rs He Hp s'.
    assert (Hq : quote_result r = Ok None) by (unfold quote_result; now rewrite Hp).
    assert (I : iteration cfg r s = (s', Ok tt)).
    { rewrite iteration_eq, attempt_eq, He, Hq. cbn [fst snd].
      rewrite push_push. reflexivity. }
    split; [exact I|]. split; [reflexivity|].
    unfold s'. rewrite new_events_push. split; [reflexivity|]. split; [reflexivity|].
    intros T. rewrite session_loop_cons, T, I. reflexivity.
Qed.

(** A round without quote, and a price of half a dollar. *)
Lemma market_quote_reader_witness :
  get_polymarket_price (no_quote 0) "UP" fresh = (push fresh [EvGetPrice "UP"], Ok None) /\
  ((0 <=? 0.5 * 100) = true /\ (0.5 * 100 <=? 100) = true) /\
  spent (fst (iteration wallet (no_quote 0) fresh)) = 0.
Proof.
  destruct (market_quote_reader wallet (no_quote 0) "UP" fresh) as (A & _ & _).
  destruct (market_quote_reader wallet (good_round 0) "UP" fresh) as (_ & B & _).
  destruct (market_quote_reader wallet (no_quote 0) "UP" fresh) as (_ & _ & C).
  split; [exact (A eq_refl)|]. split.
  - destruct (B 0.5 eq_refl) as (_ & R); [vm_compute; reflexivity ..|exact R].
  - assert (E : estimate_result (no_quote 0) = Ok 70) by (vm_compute; reflexivity).
    destruct (C 70 4600 [] E eq_refl) as (I & S & _).
    rewrite I. exact S.
Defined.

(** ** C8: the guard of the order executor *)

(** C8.  Order executor no-op guard.  For an amount that is [<= 0] (zero of
    either sign, any negative number, minus infinity) the executor returns at
    once: the state and the log are untouched, so no order is built, signed
    or submitted, and what it returns is [None], not a venue response.  For
    any other amount its first act is to build the order, and it returns a
    response only if the venue gave that response to [post_order]. *)
Theorem order_noop_guard cfg r amount s :
  ((amount <=? 0) = true ->
   place_up_market_order cfg r amount s = (s, Ok None)) /\
  ((amount <=? 0) = false ->
   exists evs,
     new_events s (fst (place_up_market_order cfg r amount s))
     = EvCreateOrder (UP_TOKEN_ID cfg) amount :: evs) /\
  (forall resp,
      snd (place_up_market_order cfg r amount s) = Ok (Some resp) ->
      (amount <=? 0) = false /\ posted r = Ok resp).
Proof.
  split; [|split].
  - intros H. unfold place_up_market_order. rewrite H. reflexivity.
  - intros H. rewrite place_eq. cbn [fst]. rewrite new_events_push.
    unfold order_events. rewrite H. eauto.
  - intros resp. rewrite place_eq. cbn [snd]. unfold order_result.
    destruct (amount <=? 0); [discriminate|].
    destruct (signed r); [|discriminate].
    destruct (posted r); [|discriminate].
    intros H. injection H as H. subst. auto.
Qed.

(** The guard on minus zero and on a negative amount. *)
Lemma order_noop_guard_witness :
  place_up_market_order wallet (good_round 0) (-0) fresh = (fresh, Ok None) /\
  place_up_market_order wallet (good_round 0) (-5) fresh = (fresh, Ok None).
Proof.
  split.
  - apply (order_noop_guard wallet (good_round 0) (-0) fresh). vm_compute. reflexivity.
  - apply (order_noop_guard wallet (good_round 0) (-5) fresh). vm_compute. reflexivity.
Defined.

(** ** C6 and C10: the estimator *)

(** Lines 68-75 on a series of at least two candles whose earliest open and
    latest close are numbers. *)
Lemma recent_change_wf (data : list candle) (first last : candle) o c :
  (2 <= List.length data)%nat ->
  Py.index data 0 = Ok first -> Py.index first 1 = Ok (JFloat o) ->
  Py.index_last data = Ok last -> Py.index last 4 = Ok (JFloat c) ->
  recent_change data =
  if o =? 0 then Raise ZeroDivisionError else Ok (percent_change o c).
Proof.
  intros L H1 H2 H3 H4. unfold recent_change.
  replace (List.length data <? 2)%nat with false by (symmetry; apply Nat.ltb_ge; exact L).
  rewrite H1, H2, H3, H4. cbn [Py.float_of]. unfold Py.div, percent_change.
  destruct (o =? 0); reflexivity.
Qed.

Lemma estimate_of_series_range data v :
  estimate_of_series data = Ok v -> (5 <=? v) = true /\ (v <=? 95) = true.
Proof.
  unfold estimate_of_series. destruct (recent_change data) as [c|e]; [|discriminate].
  intros H. injection H as H. subst v. apply estimate_of_change_range.
Qed.

(** C6, counterexample.  A series of two candles of which the first opens at
    zero: the estimator raises [ZeroDivisionError], so it returns no estimate
    at all, neither the clamped value nor anything within [5, 95]. *)
Lemma estimator_reference_counterexample :
  (2 <= List.length zero_open)%nat /\
  estimate_of_series zero_open = Raise ZeroDivisionError /\
  ~ (forall data, (2 <= List.length data)%nat ->
                  exists v, estimate_of_series data = Ok v
                            /\ (5 <=? v) = true /\ (v <=? 95) = true).
Proof.
  assert (E : estimate_of_series zero_open = Raise ZeroDivisionError)
    by (vm_compute; reflexivity).
  split; [cbn; lia|]. split; [exact E|].
  intros H. destruct (H zero_open) as (v & Hv & _); [cbn; lia|].
  rewrite E in Hv. discriminate.
Qed.

(** C6, as amended.  For a series of at least two candles whose earliest
    open and latest close are finite numbers, the open not zero, the estimate
    is [clamp(50 + 2 * percentChange, 5, 95)] with
    [percentChange = (close - open) / open * 100], every operation being the
    binary64 one, and it lies within [5, 95]; open 1000 and close 1100 give
    exactly 70.  A series of fewer than two candles gives exactly 50.
    Whenever the estimator returns a value, that value lies within [5, 95].
    [estimate_up_probability] returns what the estimator makes of the series
    the feed delivered. *)
Theorem estimator_reference (data : list candle) (first last : candle) o c :
  (2 <= List.length data)%nat ->
  Py.index data 0 = Ok first -> Py.index first 1 = Ok (JFloat o) ->
  Py.index_last data = Ok last -> Py.index last 4 = Ok (JFloat c) ->
  Py.isfinite o = true -> Py.isfinite c = true -> (o =? 0) = false ->
  (estimate_of_series data = Ok (reference_estimate o c) /\
   (5 <=? reference_estimate o c) = true /\
   (reference_estimate o c <=? 95) = true) /\
  reference_estimate 1000 1100 = 70 /\
  (forall short, (List.length short < 2)%nat -> estimate_of_series short = Ok 50) /\
  (forall any v, estimate_of_series any = Ok v ->
                 (5 <=? v) = true /\ (v <=? 95) = true) /\
  (forall r s, klines r = Ok data ->
               estimate_up_probability r s = (push s [EvHttpGet], estimate_of_series data)).
Proof.
  intros L H1 H2 H3 H4 Fo Fc Z.
  assert (E : estimate_of_series data = Ok (reference_estimate o c)).
  { unfold estimate_of_series.
    rewrite (recent_change_wf data first last o c L H1 H2 H3 H4), Z.
    unfold estimate_of_change, reference_estimate. cbv zeta.
    rewrite (mul_comm 2 (percent_change o c)).
    rewrite max_min_clamp; [reflexivity|].
    unfold percent_change. apply base_nn; assumption. }
  split; [|split; [|split; [|split]]].
  - split; [exact E|]. apply (estimate_of_series_range data). exact E.
  - vm_compute. reflexivity.
  - intros short Hs. unfold estimate_of_series, recent_change.
    replace (List.length short <? 2)%nat with true by (symmetry; apply Nat.ltb_lt; exact Hs).
    vm_compute. reflexivity.
  - apply estimate_of_series_range.
  - intros r s Hk. rewrite estimate_eq. unfold estimate_result. rewrite Hk. reflexivity.
Qed.

(** Open 1000, close 1100. *)
Lemma estimator_reference_witness :
  estimate_of_series [kline 1000 1010; kline 1010 1100] = Ok (reference_estimate 1000 1100) /\
  reference_estimate 1000 1100 = 70.
Proof.
  destruct (estimator_reference [kline 1000 1010; kline 1010 1100]
              (kline 1000 1010) (kline 1010 1100) 1000 1100)
    as ((A & _) & B & _).
  - cbn. lia.
  - reflexivity.
  - reflexivity.
  - reflexivity.
  - reflexivity.
  - vm_compute. reflexivity.
  - vm_compute. reflexivity.
  - vm_compute. reflexivity.
  - exact (conj A B).
Defined.

(** C10, counterexample.  A series whose earliest open is the smallest
    positive float and whose latest close is 1: the open is finite and not
    zero, the close is finite, no error branch is taken, and the percent
    change that is returned is plus infinity, which is not a finite value.
    The estimate made of it is 95. *)
Lemma percent_change_overflow_counterexample :
  (2 <= List.length tiny_open)%nat /\
  Py.isfinite 0x1p-1074 = true /\ (0x1p-1074 =? 0) = false /\ Py.isfinite 1 = true /\
  recent_change tiny_open = Ok infinity /\
  Py.isfinite infinity = false /\
  estimate_of_series tiny_open = Ok 95 /\
  ~ (forall (data : list candle) (first last : candle) o c,
        (2 <= List.length data)%nat ->
        Py.index data 0 = Ok first -> Py.index first 1 = Ok (JFloat o) ->
        Py.index_last data = Ok last -> Py.index last 4 = Ok (JFloat c) ->
        Py.isfinite o = true -> Py.isfinite c = true -> (o =? 0) = false ->
        exists v, recent_change data = Ok v /\ Py.isfinite v = true).
Proof.
  assert (L : (2 <= List.length tiny_open)%nat) by (cbn; lia).
  assert (R : recent_change tiny_open = Ok infinity) by (vm_compute; reflexivity).
  split; [exact L|]. repeat (split; [vm_compute; reflexivity|]).
  intros H.
  destruct (H tiny_open (kline 0x1p-1074 1) (kline 1 1) 0x1p-1074 1
              L eq_refl eq_refl eq_refl eq_refl eq_refl eq_refl eq_refl)
    as (v & Hv & F).
  rewrite R in Hv. injection Hv as <-. discriminate F.
Qed.

(** C10, as amended.  Safety precondition of the estimator.  On a series of
    at least two candles whose earliest open [o] and latest close [c] are
    numbers:
    if [o] is not zero, the percent-change computation returns (the division
    is defined and no error branch is taken), what it returns is a number,
    not NaN, when [o] and [c] are finite, though it can be an infinity, and
    the estimator returns a finite value within [5, 95];
    if [o] is zero, of either sign, the division raises
    [ZeroDivisionError] and so does the estimator, which then returns no
    value. *)
Theorem estimator_total_iff_open_nonzero (data : list candle) (first last : candle) o c :
  (2 <= List.length data)%nat ->
  Py.index data 0 = Ok first -> Py.index first 1 = Ok (JFloat o) ->
  Py.index_last data = Ok last -> Py.index last 4 = Ok (JFloat c) ->
  ((o =? 0) = false ->
   recent_change data = Ok (percent_change o c) /\
   (Py.isfinite o = true -> Py.isfinite c = true ->
    (percent_change o c =? percent_change o c) = true) /\
   exists v, estimate_of_series data = Ok v /\
             Py.isfinite v = true /\ (5 <=? v) = true /\ (v <=? 95) = true) /\
  ((o =? 0) = true ->
   recent_change data = Raise ZeroDivisionError /\
   estimate_of_series data = Raise ZeroDivisionError /\
   forall r s, klines r = Ok data ->
               snd (estimate_up_probability r s) = Raise ZeroDivisionError).
Proof.
  intros L H1 H2 H3 H4.
  pose proof (recent_change_wf data first last o c L H1 H2 H3 H4) as R.
  split; intros Z; pose proof Z as Z'; rewrite Z in R.
  - split; [exact R|]. split.
    + intros Fo Fc. apply eqb_refl_nn. unfold percent_change.
      apply percent_change_nn; assumption.
    + exists (estimate_of_change (percent_change o c)).
      assert (E : estimate_of_series data = Ok (estimate_of_change (percent_change o c)))
        by (unfold estimate_of_series; now rewrite R).
      destruct (estimate_of_series_range _ _ E) as [A B].
      repeat split; try assumption. apply range_isfinite; assumption.
  - assert (E : estimate_of_series data = Raise ZeroDivisionError)
      by (unfold estimate_of_series; now rewrite R).
    split; [exact R|]. split; [exact E|].
    intros r s Hk. rewrite estimate_eq. cbn [snd]. unfold estimate_result.
    rewrite Hk. exact E.
Qed.

(** Open 1000 returns a number; open 0 raises. *)
Lemma estimator_total_iff_open_nonzero_witness :
  recent_change [kline 1000 1010; kline 1010 1100] = Ok (percent_change 1000 1100) /\
  (percent_change 1000 1100 =? percent_change 1000 1100) = true /\
  recent_change zero_open = Raise ZeroDivisionError.
Proof.
  destruct (estimator_total_iff_open_nonzero [kline 1000 1010; kline 1010 1100]
              (kline 1000 1010) (kline 1010 1100) 1000 1100) as (A & _).
  - cbn. lia.
  - reflexivity.
  - reflexivity.
  - reflexivity.
  - reflexivity.
  - destruct (estimator_total_iff_open_nonzero zero_open
                (kline 0 100) (kline 100 110) 0 110) as (_ & B).
    + cbn. lia.
    + reflexivity.
    + reflexivity.
    + reflexivity.
    + reflexivity.
    + assert (Z : (1000 =? 0) = false) by (vm_compute; reflexivity).
      assert (Z0 : (0 =? 0) = true) by (vm_compute; reflexivity).
      destruct (A Z) as (A1 & A2 & _).
      exact (conj A1 (conj (A2 eq_refl eq_refl) (proj1 (B Z0)))).
Defined.

(** ** C9: the spend as a count of trades *)




(** * Further properties of the code *)

(** ** Signs and bounds of sums, differences, products and quotients *)

Module SignFacts.

Import FloatModel FloatFacts NumFacts SignModel.
Local Open Scope Z_scope.

Lemma V_nonneg p e : 0 <= V (Zpos p) e.
Proof. unfold V. pose proof (Z.pow_nonneg 2 (e + K)). nia. Qed.

Lemma signed_false_ord x : signed_as false x -> x <> S754_nan /\ 0 <= ord x.
Proof.
  pose proof top_pos as T.
  destruct x as [s|s| |s m e]; cbn [signed_as ord]; intros H; subst; try tauto;
    (split; [congruence|]); try lia. apply V_nonneg.
Qed.

Lemma signed_true_ord x : signed_as true x -> x <> S754_nan /\ ord x <= 0.
Proof.
  pose proof top_pos as T.
  destruct x as [s|s| |s m e]; cbn [signed_as ord]; intros H; subst; try tauto;
    (split; [congruence|]); try lia. pose proof (V_nonneg m e). lia.
Qed.

(** Rounding keeps the sign it is given. *)
Lemma binary_round_aux_signed s m e l :
  0 <= m -> signed_as s (binary_round_aux prec emax s m e l).
Proof.
  intros Hm. unfold binary_round_aux.
  pose proof (shr_fexp_nonneg m e l Hm) as H1.
  destruct (shr_fexp prec emax m e l) as [r e']. cbn [fst] in H1.
  pose proof (round_facts r H1) as [[R _] _].
  set (m1 := round_nearest_even (shr_m r) (loc_of_shr_record r)) in *.
  pose proof (shr_fexp_nonneg m1 e' loc_Exact ltac:(lia)) as H2.
  destruct (shr_fexp prec emax m1 e' loc_Exact) as [r2 e2]. cbn [fst] in H2.
  destruct (shr_m r2); try lia; cbn [signed_as]; try reflexivity.
  destruct (e2 <=? emax - prec); reflexivity.
Qed.

Lemma binary_round_signed s m e : signed_as s (binary_round prec emax s m e).
Proof.
  unfold binary_round. destruct (shl_align m e _) as [mz ez].
  apply binary_round_aux_signed. lia.
Qed.

(** Normalising an integer mantissa: the sign is the integer's. *)
Lemma binary_normalize_sign z e :
  (0 <= z -> signed_as false (binary_normalize prec emax z e false)) /\
  (z <= 0 -> z = 0 \/ signed_as true (binary_normalize prec emax z e false)).
Proof.
  destruct z as [|p|p]; cbn [binary_normalize]; split; intros H.
  - exact eq_refl.
  - left. reflexivity.
  - apply binary_round_signed.
  - lia.
  - lia.
  - right. apply binary_round_signed.
Qed.

(** Normalising a mantissa whose value is at most a representable positive
    number gives at most that number. *)
Lemma binary_normalize_upper z e mB eB :
  0 <= e + K -> e <= 971 -> canonical mB eB -> eB <= 971 ->
  V z e <= V (Zpos mB) eB ->
  binary_normalize prec emax z e false <> S754_nan /\
  ord (binary_normalize prec emax z e false) <= V (Zpos mB) eB.
Proof.
  intros Ke Le C LB H.
  pose proof (V_nonneg mB eB) as PB.
  destruct z as [|p|p]; cbn [binary_normalize].
  - cbn [ord]. split; [discriminate|lia].
  - unfold binary_round.
    set (f := fexp prec emax (Zpos (digits2_pos p) + e)).
    assert (Kf : 0 <= f + K) by (unfold f; rewrite fexp64; unfold K; lia).
    destruct (shl_align_spec p e f Ke Kf) as [S1 S2].
    destruct (shl_align p e f) as [mz ez]. cbn [fst snd] in *.
    assert (Kz : 0 <= ez + K) by lia.
    assert (Hz : V (Zpos mz) ez <= V (Zpos mB) eB) by lia.
    pose proof (round2_upper mz ez mB eB Kz C Hz) as (F0 & FV & FE).
    rewrite binary_round_aux_round2.
    destruct (fst (round2 (Zpos mz) ez)) as [|m2|m2]; try lia.
    + cbn [ord]. split; [discriminate|lia].
    + specialize (FE ltac:(lia)).
      replace (snd (round2 (Zpos mz) ez) <=? emax - prec) with true
        by (symmetry; apply Z.leb_le; change (emax - prec) with 971; lia).
      cbn [ord]. split; [discriminate|exact FV].
  - destruct (signed_true_ord _ (binary_round_signed true p e)) as [N O].
    split; [exact N|lia].
Qed.

Local Open Scope float_scope.

Lemma nonneg_leb x : nonneg x <-> (0 <=? x) = true.
Proof.
  unfold nonneg. split.
  - intros [N H]. apply leb_intro; [|exact N|now rewrite rank_zero].
    unfold nn. rewrite Prim2SF_zero. discriminate.
  - intros H. apply leb_true in H. rewrite rank_zero in H. tauto.
Qed.

Lemma nonpos_leb x : nonpos x <-> (x <=? 0) = true.
Proof.
  unfold nonpos. split.
  - intros [N H]. apply leb_intro; [exact N| |now rewrite rank_zero].
    unfold nn. rewrite Prim2SF_zero. discriminate.
  - intros H. apply leb_true in H. rewrite rank_zero in H. tauto.
Qed.

(** A positive finite float, seen through its specification. *)
Lemma positive_finite_cases x :
  Py.isfinite x = true -> (0 <? x) = true ->
  exists m e, Prim2SF x = S754_finite false m e /\ canonical m e /\ (e <= 971)%Z.
Proof.
  intros F P. apply ltb_true in P. destruct P as (_ & _ & P). rewrite rank_zero in P.
  pose proof (Prim2SF_valid x) as Vx. unfold rank in P.
  destruct (isfinite_cases x F) as [[s E]|(s & m & e & E)]; rewrite E in *.
  - cbn [ord] in P. lia.
  - apply valid_finite in Vx. destruct Vx as [C L].
    destruct s; cbn [ord] in P.
    + pose proof (V_nonneg m e). lia.
    + eauto.
Qed.

(** Quotients and products by a positive finite number keep the sign. *)
Lemma div_positive_sign x o m e :
  Prim2SF o = S754_finite false m e ->
  (nonneg x -> nonneg (x / o)) /\ (nonpos x -> nonpos (x / o)).
Proof.
  intros Eo. pose proof top_pos as T.
  pose proof (Prim2SF_valid x) as Vx.
  unfold nonneg, nonpos, nn, rank. rewrite FloatAxioms.div_spec. unfold SF64div. rewrite Eo.
  destruct (Prim2SF x) as [sx|sx| |sx mx ex]; cbn [SFdiv xorb ord].
  - split; intros _; (split; [discriminate|lia]).
  - destruct sx; cbn [xorb ord]; split; intros [_ H]; try lia; (split; [discriminate|lia]).
  - split; intros [N _]; congruence.
  - apply valid_finite in Vx. destruct Vx as [C L].
    pose proof (V_below_top _ _ C L) as B.
    unfold SFdiv_core_binary.
    set (m' := match (ex - e - _)%Z with Z0 => _ | Zpos _ => _ | Zneg _ => _ end).
    assert (Hm' : (0 <= m')%Z).
    { unfold m'. destruct (ex - e - _)%Z; try lia. apply Z.shiftl_nonneg. lia. }
    pose proof (Z.div_pos m' (Zpos m) Hm' ltac:(lia)) as Q.
    unfold Z.div in Q. destruct (Z.div_eucl m' (Zpos m)) as [q r].
    destruct sx; cbn [xorb ord]; split; intros [_ H]; try lia.
    + apply signed_true_ord, binary_round_aux_signed, Q.
    + apply signed_false_ord, binary_round_aux_signed, Q.
Qed.

Lemma mul_positive_sign x c m e :
  Prim2SF c = S754_finite false m e ->
  (nonneg x -> nonneg (x * c)) /\ (nonpos x -> nonpos (x * c)).
Proof.
  intros Ec. pose proof top_pos as T.
  pose proof (Prim2SF_valid x) as Vx.
  unfold nonneg, nonpos, nn, rank. rewrite FloatAxioms.mul_spec. unfold SF64mul. rewrite Ec.
  destruct (Prim2SF x) as [sx|sx| |sx mx ex]; cbn [SFmul xorb ord].
  - split; intros _; (split; [discriminate|lia]).
  - destruct sx; cbn [xorb ord]; split; intros [_ H]; try lia; (split; [discriminate|lia]).
  - split; intros [N _]; congruence.
  - apply valid_finite in Vx. destruct Vx as [C L].
    pose proof (V_below_top _ _ C L) as B.
    destruct sx; cbn [xorb ord]; split; intros [_ H]; try lia.
    + apply signed_true_ord, binary_round_aux_signed. lia.
    + apply signed_false_ord, binary_round_aux_signed. lia.
Qed.

Lemma ord_finite s m e : ord (S754_finite s m e) = V (cond_Zopp s (Zpos m)) e.
Proof.
  destruct s; cbn [ord cond_Zopp]; [|reflexivity].
  unfold V. ring.
Qed.

Lemma V_sub z1 z2 e : V (z1 - z2) e = (V z1 e - V z2 e)%Z.
Proof. unfold V. ring. Qed.

Lemma V_add z1 z2 e : V (z1 + z2) e = (V z1 e + V z2 e)%Z.
Proof. unfold V. ring. Qed.

Lemma V_sign z e : (0 <= e + K)%Z -> (V z e <= 0 -> z <= 0)%Z /\ (0 <= V z e -> 0 <= z)%Z.
Proof.
  intros Ke. unfold V.
  assert (0 < 2 ^ (e + K))%Z by (apply Z.pow_pos_nonneg; lia). nia.
Qed.

(** The mantissa of an operand, aligned to the smaller exponent. *)
Lemma aligned_value s m e ez :
  (0 <= e + K)%Z -> (0 <= ez + K)%Z -> (ez <= e)%Z ->
  V (cond_Zopp s (Zpos (fst (shl_align m e ez)))) ez = ord (S754_finite s m e).
Proof.
  intros Ke Kz L. destruct (shl_align_spec m e ez Ke Kz) as [A1 A2].
  rewrite ord_finite.
  replace (snd (shl_align m e ez)) with ez in A2 by lia.
  destruct s; cbn [cond_Zopp].
  - unfold V in *. lia.
  - exact A2.
Qed.

Lemma SFsub_finite sx mx ex sy my ey :
  canonical mx ex -> canonical my ey ->
  exists z,
    SFsub prec emax (S754_finite sx mx ex) (S754_finite sy my ey)
    = binary_normalize prec emax z (Z.min ex ey) false /\
    V z (Z.min ex ey) = (ord (S754_finite sx mx ex) - ord (S754_finite sy my ey))%Z /\
    (0 <= Z.min ex ey + K)%Z.
Proof.
  intros Cx Cy. pose proof (canonical_K _ _ Cx). pose proof (canonical_K _ _ Cy).
  eexists. split; [reflexivity|]. split; [|lia].
  rewrite V_sub, !aligned_value by lia. reflexivity.
Qed.

Lemma SFadd_finite sx mx ex sy my ey :
  canonical mx ex -> canonical my ey ->
  exists z,
    SFadd prec emax (S754_finite sx mx ex) (S754_finite sy my ey)
    = binary_normalize prec emax z (Z.min ex ey) false /\
    V z (Z.min ex ey) = (ord (S754_finite sx mx ex) + ord (S754_finite sy my ey))%Z /\
    (0 <= Z.min ex ey + K)%Z.
Proof.
  intros Cx Cy. pose proof (canonical_K _ _ Cx). pose proof (canonical_K _ _ Cy).
  eexists. split; [reflexivity|]. split; [|lia].
  rewrite V_add, !aligned_value by lia. reflexivity.
Qed.

Lemma binary_normalize_nonpos z e :
  (0 <= e + K)%Z -> (V z e <= 0)%Z ->
  binary_normalize prec emax z e false <> S754_nan /\
  (ord (binary_normalize prec emax z e false) <= 0)%Z.
Proof.
  intros Ke H. apply (V_sign z e Ke) in H.
  destruct (proj2 (binary_normalize_sign z e) H) as [E|S].
  - subst z. cbn [binary_normalize ord]. split; [discriminate|lia].
  - apply signed_true_ord, S.
Qed.

Lemma binary_normalize_nonneg z e :
  (0 <= e + K)%Z -> (0 <= V z e)%Z ->
  binary_normalize prec emax z e false <> S754_nan /\
  (0 <= ord (binary_normalize prec emax z e false))%Z.
Proof.
  intros Ke H. apply (V_sign z e Ke) in H.
  apply signed_false_ord, binary_normalize_sign, H.
Qed.

(** The sign of a difference is the order of its operands. *)
Lemma sub_sign x y :
  Py.isfinite x = true -> nn y ->
  ((rank x <= rank y)%Z -> nonpos (x - y)) /\
  ((rank y <= rank x)%Z -> nonneg (x - y)).
Proof.
  intros Fx Ny. pose proof top_pos as T.
  pose proof (Prim2SF_valid x) as Vx. pose proof (Prim2SF_valid y) as Vy.
  unfold nonneg, nonpos, nn, rank in *. rewrite FloatAxioms.sub_spec. unfold SF64sub.
  destruct (isfinite_cases x Fx) as [[sx Ex]|(sx & mx & ex & Ex)]; rewrite Ex in *;
  destruct (Prim2SF y) as [sy|sy| |sy my ey]; try congruence.
  - destruct sx, sy; cbn [SFsub Bool.eqb negb ord]; split; intros _; (split; [congruence|lia]).
  - cbn [SFsub]. destruct sy; cbn [negb ord]; split; intros H; try lia; (split; [congruence|lia]).
  - apply valid_finite in Vy. destruct Vy as [Cy Ly]. pose proof (V_below_top _ _ Cy Ly) as By.
    cbn [SFsub]. destruct sy; cbn [negb ord]; split; intros H; try lia; (split; [congruence|lia]).
  - cbn [SFsub]. cbn [ord] in *. split; intros H; (split; [congruence|lia]).
  - apply valid_finite in Vx. destruct Vx as [Cx Lx]. pose proof (V_below_top _ _ Cx Lx) as Bx.
    cbn [SFsub]. destruct sx, sy; cbn [negb ord] in *; split; intros H; try lia; (split; [congruence|lia]).
  - apply valid_finite in Vx. destruct Vx as [Cx Lx].
    apply valid_finite in Vy. destruct Vy as [Cy Ly].
    destruct (SFsub_finite sx mx ex sy my ey Cx Cy) as (z & -> & Hz & Kz).
    split; intros H.
    + apply binary_normalize_nonpos; [exact Kz|lia].
    + apply binary_normalize_nonneg; [exact Kz|lia].
Qed.

(** A difference is at most any positive number that bounds it exactly. *)
Lemma sub_upper x y b :
  Py.isfinite x = true -> nonneg y ->
  Py.isfinite b = true -> (0 <? b) = true ->
  (rank x - rank y <= rank b)%Z ->
  nn (x - y) /\ (rank (x - y) <= rank b)%Z.
Proof.
  intros Fx [Ny Py] Fb Pb H. pose proof top_pos as T.
  destruct (positive_finite_cases b Fb Pb) as (mb & eb & Eb & Cb & Lb).
  pose proof (V_below_top _ _ Cb Lb) as Bb.
  pose proof (Prim2SF_valid x) as Vx. pose proof (Prim2SF_valid y) as Vy.
  unfold nn, rank in *. rewrite FloatAxioms.sub_spec. unfold SF64sub. rewrite Eb in *.
  cbn [ord] in H |- *.
  destruct (isfinite_cases x Fx) as [[sx Ex]|(sx & mx & ex & Ex)]; rewrite Ex in *;
  destruct (Prim2SF y) as [sy|sy| |sy my ey]; try congruence.
  - destruct sx, sy; cbn [SFsub Bool.eqb negb ord]; (split; [congruence|lia]).
  - cbn [SFsub]. destruct sy; cbn [negb ord] in *; try lia; (split; [congruence|lia]).
  - apply valid_finite in Vy. destruct Vy as [Cy Ly]. pose proof (V_below_top _ _ Cy Ly) as By.
    cbn [SFsub]. destruct sy; cbn [negb ord] in *; try lia; (split; [congruence|lia]).
  - cbn [SFsub]. cbn [ord] in *. (split; [congruence|lia]).
  - apply valid_finite in Vx. destruct Vx as [Cx Lx]. pose proof (V_below_top _ _ Cx Lx) as Bx.
    cbn [SFsub]. destruct sy; cbn [negb ord] in *; try lia; (split; [congruence|lia]).
  - apply valid_finite in Vx. destruct Vx as [Cx Lx].
    apply valid_finite in Vy. destruct Vy as [Cy Ly].
    destruct (SFsub_finite sx mx ex sy my ey Cx Cy) as (z & -> & Hz & Kz).
    apply binary_normalize_upper; try assumption; lia.
Qed.

(** Adding a number that is not positive to a positive finite one does not
    increase it. *)
Lemma add_nonpos_le x y :
  Py.isfinite x = true -> (0 <? x) = true -> nonpos y -> (x + y <=? x) = true.
Proof.
  intros Fx Px [Ny Py]. pose proof top_pos as T.
  destruct (positive_finite_cases x Fx Px) as (mx & ex & Ex & Cx & Lx).
  pose proof (V_below_top _ _ Cx Lx) as Bx.
  pose proof (Prim2SF_valid y) as Vy.
  assert (R : nn (x + y) /\ nn x /\ (rank (x + y) <= rank x)%Z).
  { unfold nn, rank in *. rewrite FloatAxioms.add_spec. unfold SF64add. rewrite Ex in *.
    destruct (Prim2SF y) as [sy|sy| |sy my ey]; try congruence.
    - cbn [SFadd ord]. repeat split; try congruence; lia.
    - cbn [SFadd]. destruct sy; cbn [ord] in *; try lia. repeat split; try congruence; lia.
    - apply valid_finite in Vy. destruct Vy as [Cy Ly].
      destruct (SFadd_finite false mx ex sy my ey Cx Cy) as (z & -> & Hz & Kz).
      change (ord (S754_finite false mx ex)) with (V (Zpos mx) ex) in *.
      destruct (binary_normalize_upper z (Z.min ex ey) mx ex) as [N U];
        try assumption; try lia.
      repeat split; try congruence; lia. }
  destruct R as (N1 & N2 & R). apply leb_intro; assumption.
Qed.

End SignFacts.

Import SignModel SignFacts.

(** ** The wallet check and the client *)

Lemma startswith_spec p s :
  Py.startswith p s = true <-> exists t, s = (p ++ t)%string.
Proof.
  revert s. induction p as [|a p IH]; intros s; cbn [Py.startswith String.append].
  - split; [eauto|reflexivity].
  - destruct s as [|b s].
    + split; [discriminate|]. intros [t H]. discriminate.
    + rewrite andb_true_iff, Ascii.eqb_eq, IH. split.
      * intros [-> [t ->]]. eauto.
      * intros [t H]. injection H as -> ->. eauto.
Qed.

Lemma lift_eq {A} (x : result A) s : lift x s = (s, x).
Proof. now destruct x. Qed.

(** X1.  [create_client] (lines 13-14, 38-54).  The client is refused with
    [RuntimeError] exactly when the private key or the funder address begins
    with ["YOUR_"], which is the case whenever one of the two environment
    variables is not set; otherwise the outcome is that of building the
    client and its credentials.  Either way nothing is logged and [spent] is
    not touched. *)
Theorem wallet_check cfg w s :
  ((exists t, PRIVATE_KEY cfg = ("YOUR_" ++ t)%string) \/
   (exists t, FUNDER cfg = ("YOUR_" ++ t)%string) ->
   create_client cfg w s = (s, Raise RuntimeError)) /\
  (~ (exists t, PRIVATE_KEY cfg = ("YOUR_" ++ t)%string) ->
   ~ (exists t, FUNDER cfg = ("YOUR_" ++ t)%string) ->
   create_client cfg w s = (s, creds w)) /\
  (forall key funder, key = None \/ funder = None ->
                      create_client (from_env key funder) w s = (s, Raise RuntimeError)) /\
  fst (create_client cfg w s) = s.
Proof.
  assert (G : forall c,
             create_client c w s =
             if Py.startswith "YOUR_" (PRIVATE_KEY c) || Py.startswith "YOUR_" (FUNDER c)
             then (s, Raise RuntimeError) else (s, creds w)).
  { intros c. unfold create_client.
    destruct (_ || _); [reflexivity|apply lift_eq]. }
  split; [|split; [|split]].
  - intros H. rewrite G.
    replace (_ || _) with true; [reflexivity|].
    symmetry. apply orb_true_iff.
    destruct H as [H|H]; [left|right]; apply startswith_spec, H.
  - intros H1 H2. rewrite G.
    replace (_ || _) with false; [reflexivity|].
    symmetry. apply orb_false_iff.
    split; apply not_true_is_false; intros H; apply startswith_spec in H; tauto.
  - intros key funder H. rewrite G.
    destruct H as [-> | ->]; cbn [from_env shipped getenv PRIVATE_KEY FUNDER].
    + reflexivity.
    + now rewrite orb_true_r.
  - rewrite G. now destruct (_ || _).
Qed.

(** An empty private key is not a placeholder: the check lets it through. *)
Lemma wallet_check_witness :
  create_client (from_env None (Some "0xfunder"%string)) sample_world fresh
  = (fresh, Raise RuntimeError) /\
  create_client (from_env (Some ""%string) (Some "0xfunder"%string)) sample_world fresh
  = (fresh, Ok tt).
Proof.
  split.
  - apply (proj1 (proj2 (proj2 (wallet_check wallet sample_world fresh)))). now left.
  - apply (proj1 (proj2 (wallet_check (from_env (Some ""%string) (Some "0xfunder"%string))
                           sample_world fresh)));
      intros [t H]; discriminate H.
Defined.




(** ** The order of the calls in a pass *)

(** X3.  The body of the loop (lines 136-159) stops at the first call that
    raises.  If the feed or the percent-change computation raises, the venue
    is not asked for a price; if the price lookup raises, no order is built;
    if signing the order raises, nothing is posted.  In each case the pass
    prints that one error and sleeps, and that is all it does. *)
Theorem pass_stops_at_first_failure cfg r s e :
  let evs := new_events s (fst (iteration cfg r s)) in
  let nap := EvSleep (LOOP_INTERVAL_SEC cfg) in
  (estimate_result r = Raise e ->
   evs = [EvHttpGet; EvPrint (MError e); nap]) /\
  (forall est, estimate_result r = Ok est -> quote_result r = Raise e ->
     evs = [EvHttpGet; EvGetPrice (UP_TOKEN_ID cfg); EvPrint (MError e); nap]) /\
  (forall est market,
     estimate_result r = Ok est -> quote_result r = Ok (Some market) ->
     should_trade cfg (est - market) (spent s) = true ->
     (ORDER_SIZE cfg <=? 0) = false ->
     (signed r = Raise e ->
      evs = quoted cfg est market ++
            [EvPrint (MEdgeDetected (ORDER_SIZE cfg));
             EvCreateOrder (UP_TOKEN_ID cfg) (ORDER_SIZE cfg);
             EvPrint (MError e); nap]) /\
     (forall sg, signed r = Ok sg -> posted r = Raise e ->
      evs = quoted cfg est market ++
            [EvPrint (MEdgeDetected (ORDER_SIZE cfg));
             EvCreateOrder (UP_TOKEN_ID cfg) (ORDER_SIZE cfg);
             EvPostOrder sg;
             EvPrint (MError e); nap])).
Proof.
  cbv zeta. rewrite new_events_iteration. unfold pass_events.
  split; [|split].
  - now intros ->.
  - now intros est -> ->.
  - intros est market -> -> -> G.
    unfold order_events, order_result. rewrite G. split.
    + now intros ->.
    + now intros sg -> ->.
Qed.

(** The feed is down: one request, one error line, one sleep. *)
Lemma pass_stops_at_first_failure_witness :
  new_events fresh (fst (iteration wallet (feed_down 0) fresh))
  = [EvHttpGet; EvPrint (MError RequestException); EvSleep 20].
Proof.
  apply (proj1 (pass_stops_at_first_failure wallet (feed_down 0) fresh RequestException)).
  reflexivity.
Defined.

(** ** How many calls a run makes *)

(** X4.  The loop (lines 135-159) over any rounds, from any state.  Every pass
    makes exactly one request to the candle feed and sleeps exactly once.
    The calls thin out from one step to the next: the price lookups are at
    most the passes, the announced edges at most the price lookups, the
    orders built at most the announced edges, the orders posted at most the
    orders built, the responses printed at most the orders posted.  With an
    order size that is not [<= 0] the executed trades are exactly the
    responses the venue returned; with an order size that is [<= 0] no order
    is ever built and yet every announced edge is booked as a trade. *)
Theorem call_funnel cfg rs s :
  let evs := new_events s (iterate cfg rs s) in
  count is_http_get evs = List.length rs /\
  sleeps evs = List.length rs /\
  (count is_get_price evs <= count is_http_get evs)%nat /\
  (count is_edge_detected evs <= count is_get_price evs)%nat /\
  (count is_create_order evs <= count is_edge_detected evs)%nat /\
  (count is_post_order evs <= count is_create_order evs)%nat /\
  (count is_response evs <= count is_post_order evs)%nat /\
  (trades evs <= count is_edge_detected evs)%nat /\
  ((ORDER_SIZE cfg <=? 0) = false -> trades evs = count is_response evs) /\
  ((ORDER_SIZE cfg <=? 0) = true ->
   count is_create_order evs = 0%nat /\ trades evs = count is_edge_detected evs).
Proof. cbv zeta. rewrite new_events_iterate. apply trace_tally. Qed.

(** The nine passes of the sample session: five trades, five responses. *)
Lemma call_funnel_witness :
  let evs := new_events (started sample_world)
               (iterate wallet (firstn 9 (rounds sample_world)) (started sample_world)) in
  count is_http_get evs = 9%nat /\ trades evs = count is_response evs.
Proof.
  cbv zeta.
  pose proof (call_funnel wallet (firstn 9 (rounds sample_world)) (started sample_world)) as H.
  cbv zeta in H. destruct H as (H1 & _ & _ & _ & _ & _ & _ & _ & H9 & _).
  exact (conj H1 (H9 eq_refl)).
Defined.

(** ** What the calls are made with *)

Lemma add_nn_inv x y : nn (x + y) -> nn y.
Proof.
  unfold nn. rewrite FloatAxioms.add_spec. unfold SF64add.
  intros H E. apply H. rewrite E. now destruct (Prim2SF x).
Qed.

(** An order size that passes line 149 and line 103 is positive. *)
Lemma positive_order cfg edge sp :
  should_trade cfg edge sp = true -> (ORDER_SIZE cfg <=? 0) = false ->
  (0 <? ORDER_SIZE cfg) = true.
Proof.
  unfold should_trade. intros H G. apply andb_true_iff in H. destruct H as [_ H].
  apply leb_true in H. destruct H as (N & _ & _). apply add_nn_inv in N.
  assert (N0 : nn 0) by (unfold nn; rewrite Prim2SF_zero; discriminate).
  rewrite (leb_rank _ _ N N0) in G. apply Z.leb_gt in G.
  apply ltb_intro; assumption.
Qed.

Lemma pass_as_configured cfg r sp : Forall (as_configured cfg) (pass_events cfg r sp).
Proof.
  unfold pass_events, quoted, order_events.
  destruct (estimate_result r) as [est|e];
    [destruct (quote_result r) as [[market|]|e]|];
    cbn [app]; repeat constructor.
  destruct (should_trade cfg (est - market) sp) eqn:T; cbn [app]; repeat constructor.
  destruct (ORDER_SIZE cfg <=? 0) eqn:G.
  - cbn [app]. destruct (order_result r (ORDER_SIZE cfg)); repeat constructor.
  - pose proof (positive_order cfg _ _ T G) as P.
    destruct (signed r) as [sg|e]; [destruct (posted r) as [resp|e]|];
      destruct (order_result r (ORDER_SIZE cfg)); cbn [app];
      repeat constructor; assumption.
Qed.

Lemma trace_as_configured cfg rs sp : Forall (as_configured cfg) (trace cfg rs sp).
Proof.
  revert sp. induction rs as [|r rs IH]; intros sp; cbn [trace]; [constructor|].
  apply Forall_app. split; [apply pass_as_configured|apply IH].
Qed.

(** X5.  The whole session (lines 120-161) and the loop from any state.  Every
    price lookup is for [UP_TOKEN_ID]; every order that is built is for
    [UP_TOKEN_ID] and for [ORDER_SIZE], which is then a positive number;
    every amount announced or booked is [ORDER_SIZE]; every sleep lasts
    [LOOP_INTERVAL_SEC]. *)
Theorem calls_as_configured cfg w rs s :
  Forall (as_configured cfg) (log (fst (run_one_hour_session cfg w fresh))) /\
  Forall (as_configured cfg) (new_events s (iterate cfg rs s)).
Proof.
  split.
  - rewrite run_eq. destruct (_ || _) eqn:P; [constructor|].
    destruct (creds w) as [[]|e] eqn:C; [|constructor].
    rewrite session_loop_eq, iterate_trace. cbn [fst snd started spent log].
    destruct (ends _ _); unfold push; cbn [fst log];
      repeat (apply Forall_app; split); repeat constructor;
      apply trace_as_configured.
  - rewrite new_events_iterate. apply trace_as_configured.
Qed.

(** ** The budget once it is used up *)

Lemma pass_exhausted cfg r sp :
  (sp + ORDER_SIZE cfg <=? MAX_HOURLY_SPEND cfg) = false ->
  pass_spent cfg r sp = sp /\
  count is_edge_detected (pass_events cfg r sp) = 0%nat /\
  existsb is_venue_order (pass_events cfg r sp) = false /\
  recorded (pass_events cfg r sp) = [].
Proof.
  intros B. unfold pass_spent, pass_events, executes, should_trade, quoted.
  destruct (estimate_result r) as [est|e];
    [destruct (quote_result r) as [[market|]|e]|];
    rewrite ?B, ?andb_false_r; cbn; auto.
Qed.

(** X6.  The loop (lines 135-159) once [spent + ORDER_SIZE] is above the
    ceiling: from then on no pass announces an edge, builds or posts an
    order or books anything, and [spent] stays what it is, whatever the
    later rounds bring; the bot goes on polling the feed once per pass. *)
Theorem exhausted_budget_is_absorbing cfg rs s :
  (spent s + ORDER_SIZE cfg <=? MAX_HOURLY_SPEND cfg) = false ->
  let evs := new_events s (iterate cfg rs s) in
  spent (iterate cfg rs s) = spent s /\
  count is_edge_detected evs = 0%nat /\
  existsb is_venue_order evs = false /\
  recorded evs = [] /\
  count is_http_get evs = List.length rs.
Proof.
  intros B. cbv zeta. rewrite new_events_iterate, iterate_trace. cbn [spent].
  split; [|split; [|split; [|split]]]; [| | | |apply trace_tally];
    induction rs as [|r rs IH]; cbn [trace spent_after]; try reflexivity;
    destruct (pass_exhausted cfg r (spent s) B) as (E1 & E2 & E3 & E4);
    rewrite E1.
  - exact IH.
  - rewrite count_app, E2. exact IH.
  - rewrite existsb_app, E3. exact IH.
  - rewrite recorded_app, E4. exact IH.
Qed.

(** The shipped constants with the twenty dollars spent. *)
Lemma exhausted_budget_is_absorbing_witness :
  let s := {| spent := 20; log := [] |} in
  let rs := [good_round 0; good_round 20; good_round 40] in
  spent (iterate wallet rs s) = 20 /\
  existsb is_venue_order (new_events s (iterate wallet rs s)) = false.
Proof.
  cbv zeta.
  pose proof (exhausted_budget_is_absorbing wallet
                [good_round 0; good_round 20; good_round 40]
                {| spent := 20; log := [] |} eq_refl) as H.
  cbv zeta in H. destruct H as (H1 & _ & H3 & _).
  exact (conj H1 H3).
Defined.

(** ** Orders whose posting fails *)

Lemma pass_post_raises cfg r sp est market :
  (ORDER_SIZE cfg <=? 0) = false ->
  (sp + ORDER_SIZE cfg <=? MAX_HOURLY_SPEND cfg) = true ->
  estimate_result r = Ok est -> quote_result r = Ok (Some market) ->
  Py.gtb (est - market) (EDGE_THRESHOLD cfg) = true ->
  post_raises r ->
  pass_spent cfg r sp = sp /\
  count is_create_order (pass_events cfg r sp) = 1%nat /\
  count is_post_order (pass_events cfg r sp) = 1%nat /\
  count is_response (pass_events cfg r sp) = 0%nat /\
  trades (pass_events cfg r sp) = 0%nat.
Proof.
  intros G B E Q T [[sg S] [e P]].
  unfold pass_spent, pass_events, executes, should_trade, quoted, order_events, order_result, trades.
  rewrite E, Q, T, B, G, S, P. cbn. auto.
Qed.

(** X7.  The loop (lines 135-159) and [place_up_market_order] (lines 99-115).
    An order that is built and handed to [post_order] is booked only if
    [post_order] returns.  So over rounds that all show an edge and in all of
    which [post_order] raises, every pass builds and posts an order, none is
    booked, [spent] does not move, and the number of orders posted is the
    number of passes: the ceiling bounds what is booked, not what is sent. *)
Theorem failed_posts_are_free cfg rs s :
  (ORDER_SIZE cfg <=? 0) = false ->
  (spent s + ORDER_SIZE cfg <=? MAX_HOURLY_SPEND cfg) = true ->
  Forall (fun r =>
            (exists est market,
                estimate_result r = Ok est /\ quote_result r = Ok (Some market) /\
                Py.gtb (est - market) (EDGE_THRESHOLD cfg) = true) /\
            post_raises r) rs ->
  let evs := new_events s (iterate cfg rs s) in
  spent (iterate cfg rs s) = spent s /\
  count is_create_order evs = List.length rs /\
  count is_post_order evs = List.length rs /\
  count is_response evs = 0%nat /\
  trades evs = 0%nat.
Proof.
  intros G B F. cbv zeta. rewrite new_events_iterate, iterate_trace. cbn [spent].
  induction F as [|r rs [(est & market & E & Q & T) R] F IH];
    cbn [trace spent_after List.length]; [auto|].
  destruct (pass_post_raises cfg r (spent s) est market G B E Q T R)
    as (P1 & P2 & P3 & P4 & P5).
  rewrite P1, !count_app, trades_app, P2, P3, P4, P5.
  destruct IH as (I1 & I2 & I3 & I4 & I5). rewrite I1, I2, I3, I4, I5. auto.
Qed.

(** Six rounds in which the venue raises: six orders posted with a budget
    for four, and nothing spent. *)
Lemma failed_posts_are_free_witness :
  let rs := [venue_down 0; venue_down 20; venue_down 40;
             venue_down 60; venue_down 80; venue_down 100] in
  spent (iterate wallet rs fresh) = 0 /\
  count is_post_order (new_events fresh (iterate wallet rs fresh)) = 6%nat.
Proof.
  cbv zeta.
  assert (R : forall t,
             (exists est market,
                 estimate_result (venue_down t) = Ok est /\
                 quote_result (venue_down t) = Ok (Some market) /\
                 Py.gtb (est - market) (EDGE_THRESHOLD wallet) = true) /\
             post_raises (venue_down t)).
  { intros t. split.
    - exists 70, 50. repeat split; reflexivity.
    - split; [exists "signed-order"%string|exists PolyApiException]; reflexivity. }
  pose proof (failed_posts_are_free wallet
                [venue_down 0; venue_down 20; venue_down 40;
                 venue_down 60; venue_down 80; venue_down 100]
                fresh eq_refl eq_refl
                (Forall_cons _ (R 0) (Forall_cons _ (R 20) (Forall_cons _ (R 40)
                   (Forall_cons _ (R 60) (Forall_cons _ (R 80) (Forall_cons _ (R 100)
                      (Forall_nil _)))))))) as H.
  cbv zeta in H. destruct H as (H1 & _ & H3 & _).
  exact (conj H1 H3).
Defined.

(** ** What the percent change reads, and how it fails *)

(** Lines 68-75 on a series of at least two candles, in terms of the two
    fields they read. *)
Lemma recent_change_fields (data : list candle) (first last : candle) :
  (2 <= List.length data)%nat ->
  Py.index data 0 = Ok first -> Py.index_last data = Ok last ->
  recent_change data =
  match nth_error first 1 with
  | None => Raise IndexError
  | Some v =>
    match Py.float_of v with
    | Raise e => Raise e
    | Ok o =>
      match nth_error last 4 with
      | None => Raise IndexError
      | Some w =>
        match Py.float_of w with
        | Raise e => Raise e
        | Ok c => if o =? 0 then Raise ZeroDivisionError else Ok ((c - o) / o * 100)
        end
      end
    end
  end.
Proof.
  intros L F Z. unfold recent_change.
  replace (List.length data <? 2)%nat with false by (symmetry; apply Nat.ltb_ge, L).
  rewrite F, Z. unfold Py.index, Py.div.
  destruct (nth_error first 1) as [v|]; [|reflexivity].
  destruct (Py.float_of v) as [o|e]; [|reflexivity].
  destruct (nth_error last 4) as [w|]; [|reflexivity].
  destruct (Py.float_of w) as [c|e]; [|reflexivity].
  now destruct (o =? 0).
Qed.

(** X8.  [get_eth_recent_change] (lines 68-75) and [estimate_up_probability]
    (lines 84-86).  Of a series of at least two candles the code reads two
    fields only: index 1 of the first candle and index 4 of the last.  Two
    series that agree on these give the same percent change or the same
    exception, and the same estimate: the candles in between, the other
    fields, and how many candles there are play no part. *)
Theorem change_reads_two_fields (data data' : list candle) (first first' last last' : candle) :
  (2 <= List.length data)%nat -> (2 <= List.length data')%nat ->
  Py.index data 0 = Ok first -> Py.index data' 0 = Ok first' ->
  Py.index_last data = Ok last -> Py.index_last data' = Ok last' ->
  nth_error first 1 = nth_error first' 1 ->
  nth_error last 4 = nth_error last' 4 ->
  recent_change data = recent_change data' /\
  estimate_of_series data = estimate_of_series data'.
Proof.
  intros L L' F F' Z Z' E1 E4.
  assert (R : recent_change data = recent_change data').
  { rewrite (recent_change_fields data first last L F Z),
            (recent_change_fields data' first' last' L' F' Z'), E1, E4.
    reflexivity. }
  split; [exact R|]. unfold estimate_of_series. now rewrite R.
Qed.

(** Two candles against three candles of other shapes with the same open
    and close. *)
Lemma change_reads_two_fields_witness :
  estimate_of_series [kline 1000 1010; kline 1010 1100]
  = estimate_of_series [[JBad; JFloat 1000]; []; [JBad; JBad; JBad; JBad; JFloat 1100; JBad]].
Proof.
  apply (change_reads_two_fields
           [kline 1000 1010; kline 1010 1100]
           [[JBad; JFloat 1000]; []; [JBad; JBad; JBad; JBad; JFloat 1100; JBad]]
           (kline 1000 1010) [JBad; JFloat 1000]
           (kline 1010 1100) [JBad; JBad; JBad; JBad; JFloat 1100; JBad]);
    try reflexivity; cbn; lia.
Defined.

Ltac settle :=
  repeat match goal with
         | H : exists _, _ |- _ => destruct H
         | H : _ /\ _ |- _ => destruct H
         | H : _ \/ _ |- _ => destruct H
         | H : Raise _ = Raise _ |- _ => injection H as <-
         end;
  first [congruence | lia | solve [eauto 10] | solve [left; lia]
        | solve [right; split; [eauto|lia]]].

(** X9.  [get_eth_recent_change] (lines 68-75): which exception, and when.
    The feed's answer is an array of at least two candles, each an array of
    JSON values.  The computation raises [IndexError] when the first candle
    has fewer than two fields, or when its open converts and the last candle
    has fewer than five fields; it raises what [float()] raises when the open
    does not convert, or when it does and the close does not: [ValueError] on
    a string that is not a number, [TypeError] on null, an array or an
    object, [OverflowError] on an integer beyond the float range; it raises
    [ZeroDivisionError] when both convert and the open is zero; and it
    raises nothing else.  The open is converted before the last candle is
    looked at, so a bad open hides whatever is wrong with the last candle.
    A series of fewer than two candles never raises. *)
Theorem change_errors (data : list candle) (first last : candle) :
  (2 <= List.length data)%nat ->
  Py.index data 0 = Ok first -> Py.index_last data = Ok last ->
  let converts := exists o, nth_error first 1 = Some (JFloat o) in
  (recent_change data = Raise IndexError <->
   (List.length first < 2)%nat \/ (converts /\ (List.length last < 5)%nat)) /\
  (recent_change data = Raise ValueError <->
   nth_error first 1 = Some JBad \/ (converts /\ nth_error last 4 = Some JBad)) /\
  (recent_change data = Raise TypeError <->
   nth_error first 1 = Some JOther \/ (converts /\ nth_error last 4 = Some JOther)) /\
  (recent_change data = Raise OverflowError <->
   nth_error first 1 = Some JHuge \/ (converts /\ nth_error last 4 = Some JHuge)) /\
  (recent_change data = Raise ZeroDivisionError <->
   exists o c, nth_error first 1 = Some (JFloat o) /\ nth_error last 4 = Some (JFloat c) /\
               (o =? 0) = true) /\
  (forall e, recent_change data = Raise e ->
             e = IndexError \/ e = ValueError \/ e = TypeError \/ e = OverflowError \/
             e = ZeroDivisionError) /\
  (forall short : list candle, (List.length short < 2)%nat -> recent_change short = Ok 0).
Proof.
  intros L F Z. cbv zeta. rewrite (recent_change_fields data first last L F Z).
  assert (S : forall short : list candle,
             (List.length short < 2)%nat -> recent_change short = Ok 0).
  { intros short H. unfold recent_change.
    now replace (List.length short <? 2)%nat with true by (symmetry; apply Nat.ltb_lt, H). }
  destruct (nth_error first 1) as [[o| | |]|] eqn:E1; cbn [Py.float_of].
  - assert (L1 : (1 < List.length first)%nat) by (apply nth_error_Some; congruence).
    destruct (nth_error last 4) as [[c| | |]|] eqn:E4; cbn [Py.float_of];
      try (assert (L4 : (4 < List.length last)%nat) by (apply nth_error_Some; congruence));
      try apply nth_error_None in E4.
    + destruct (o =? 0) eqn:O; repeat split; intros; settle.
    + repeat split; intros; settle.
    + repeat split; intros; settle.
    + repeat split; intros; settle.
    + repeat split; intros; settle.
  - assert (L1 : (1 < List.length first)%nat) by (apply nth_error_Some; congruence).
    repeat split; intros; settle.
  - assert (L1 : (1 < List.length first)%nat) by (apply nth_error_Some; congruence).
    repeat split; intros; settle.
  - assert (L1 : (1 < List.length first)%nat) by (apply nth_error_Some; congruence).
    repeat split; intros; settle.
  - apply nth_error_None in E1. repeat split; intros; settle.
Qed.

(** A first candle without an open; an open that is null. *)
Lemma change_errors_witness :
  recent_change [[JFloat 0]; kline 1010 1100] = Raise IndexError /\
  recent_change [[JFloat 0; JOther]; kline 1010 1100] = Raise TypeError.
Proof.
  split.
  - apply (proj1 (change_errors [[JFloat 0]; kline 1010 1100] [JFloat 0] (kline 1010 1100)
                    ltac:(cbn; lia) eq_refl eq_refl)).
    left. cbn. lia.
  - apply (proj1 (proj2 (proj2 (change_errors [[JFloat 0; JOther]; kline 1010 1100]
                                  [JFloat 0; JOther] (kline 1010 1100)
                                  ltac:(cbn; lia) eq_refl eq_refl)))).
    left. reflexivity.
Defined.

(** ** The estimate and the direction of the move *)

Lemma isfinite_nn x : Py.isfinite x = true -> nn x.
Proof.
  intros F. unfold nn.
  destruct (isfinite_cases x F) as [[s E]|(s & m & e & E)]; rewrite E; discriminate.
Qed.

Lemma nn_50 : nn 50.
Proof. unfold nn. rewrite Prim2SF_50. discriminate. Qed.

Lemma rank_50 : (rank 5 < rank 50 < rank 95)%Z.
Proof.
  assert (H1 : (5 <? 50) = true) by (vm_compute; reflexivity).
  assert (H2 : (50 <? 95) = true) by (vm_compute; reflexivity).
  apply ltb_true in H1, H2. tauto.
Qed.

Lemma clamp_ge_50 b : (50 <=? b) = true -> (50 <=? Py.max 5 (Py.min 95 b)) = true.
Proof.
  intros H. pose proof H as H'. apply leb_true in H'. destruct H' as (_ & Nb & R).
  pose proof rank_50 as R50. pose proof nn_5 as N5. pose proof nn_95 as N95.
  unfold Py.max, Py.min, Py.gtb. rewrite (ltb_rank b 95 Nb N95).
  destruct (rank b <? rank 95)%Z.
  - rewrite (ltb_rank 5 b N5 Nb).
    replace (rank 5 <? rank b)%Z with true by (symmetry; apply Z.ltb_lt; lia).
    exact H.
  - replace (5 <? 95) with true by (symmetry; apply ltb_intro; auto; lia).
    apply leb_intro; auto using nn_50. lia.
Qed.

Lemma clamp_le_50 b : (b <=? 50) = true -> (Py.max 5 (Py.min 95 b) <=? 50) = true.
Proof.
  intros H. pose proof H as H'. apply leb_true in H'. destruct H' as (Nb & _ & R).
  pose proof rank_50 as R50. pose proof nn_5 as N5. pose proof nn_95 as N95.
  unfold Py.max, Py.min, Py.gtb. rewrite (ltb_rank b 95 Nb N95).
  replace (rank b <? rank 95)%Z with true by (symmetry; apply Z.ltb_lt; lia).
  destruct (5 <? b); [exact H|].
  apply leb_intro; auto using nn_50. lia.
Qed.

(** The sign of the doubled percent change is that of the move. *)
Lemma doubled_change_sign o c :
  Py.isfinite o = true -> (0 <? o) = true -> Py.isfinite c = true ->
  ((rank o <= rank c)%Z -> nonneg (percent_change o c * 2)) /\
  ((rank c <= rank o)%Z -> nonpos (percent_change o c * 2)).
Proof.
  intros Fo Po Fc.
  destruct (positive_finite_cases o Fo Po) as (mo & eo & Eo & _).
  pose proof (sub_sign c o Fc (isfinite_nn o Fo)) as [S1 S2].
  pose proof (div_positive_sign (c - o) o mo eo Eo) as [D1 D2].
  pose proof (mul_positive_sign ((c - o) / o) 100 _ _ Prim2SF_100) as [M1 M2].
  pose proof (mul_positive_sign ((c - o) / o * 100) 2 _ _ Prim2SF_2) as [T1 T2].
  unfold percent_change. split; intros H; auto.
Qed.

Lemma estimate_direction o c :
  Py.isfinite o = true -> (0 <? o) = true -> Py.isfinite c = true ->
  let v := estimate_of_change (percent_change o c) in
  ((o <=? c) = true -> (50 <=? v) = true) /\
  ((c <=? o) = true -> (v <=? 50) = true) /\
  ((c =? o) = true -> v = 50).
Proof.
  intros Fo Po Fc. cbv zeta.
  destruct (doubled_change_sign o c Fo Po Fc) as [Up Down].
  pose proof (isfinite_nn o Fo) as No. pose proof (isfinite_nn c Fc) as Nc.
  assert (F50 : Py.isfinite 50 = true) by (vm_compute; reflexivity).
  assert (P50 : (0 <? 50) = true) by (vm_compute; reflexivity).
  assert (Z50 : (0 <=? 50) = true) by (vm_compute; reflexivity).
  assert (U : (rank o <= rank c)%Z ->
              (50 <=? estimate_of_change (percent_change o c)) = true).
  { intros H. unfold estimate_of_change. cbv zeta. apply clamp_ge_50.
    apply add_nonneg_ge; [exact Z50|]. apply nonneg_leb, Up, H. }
  assert (D : (rank c <= rank o)%Z ->
              (estimate_of_change (percent_change o c) <=? 50) = true).
  { intros H. unfold estimate_of_change. cbv zeta. apply clamp_le_50.
    apply add_nonpos_le; [exact F50|exact P50|]. apply Down, H. }
  split; [|split].
  - intros H. apply leb_true in H. apply U. tauto.
  - intros H. apply leb_true in H. apply D. tauto.
  - intros H. rewrite (eqb_rank c o Nc No) in H. apply Z.eqb_eq in H.
    pose proof (U ltac:(lia)) as A. pose proof (D ltac:(lia)) as B.
    apply leb_true in A, B. destruct A as (_ & Nv & A), B as (_ & _ & B).
    pose proof rank_50 as R50. pose proof rank_5_pos as R5.
    apply rank_inj; auto using nn_50; lia.
Qed.

(** X10.  [get_eth_recent_change] (line 74) with [estimate_up_probability]
    (lines 84-86), in binary64.  On a series of at least two candles whose
    earliest open is a positive finite number and whose latest close is
    finite, the estimator returns, and its estimate is on the side of the
    move: at least 50 when the close is not below the open, at most 50 when
    it is not above, and exactly 50 when the two are equal.  No rounding in
    the difference, the quotient, the two products or the sum can carry the
    estimate to the wrong side of 50. *)
Theorem estimate_follows_direction (data : list candle) (first last : candle) o c :
  (2 <= List.length data)%nat ->
  Py.index data 0 = Ok first -> Py.index first 1 = Ok (JFloat o) ->
  Py.index_last data = Ok last -> Py.index last 4 = Ok (JFloat c) ->
  Py.isfinite o = true -> (0 <? o) = true -> Py.isfinite c = true ->
  exists v,
    estimate_of_series data = Ok v /\
    ((o <=? c) = true -> (50 <=? v) = true) /\
    ((c <=? o) = true -> (v <=? 50) = true) /\
    ((c =? o) = true -> v = 50).
Proof.
  intros L F O Z C Fo Po Fc.
  exists (estimate_of_change (percent_change o c)). split.
  - unfold estimate_of_series.
    rewrite (recent_change_wf data first last o c L F O Z C).
    assert (N : (o =? 0) = false).
    { apply ltb_true in Po. destruct Po as (N0 & No & R).
      rewrite (eqb_rank o 0 No N0). apply Z.eqb_neq. lia. }
    now rewrite N.
  - apply (estimate_direction o c Fo Po Fc).
Qed.

(** A fall from 1100 to 1000, and an hour that ends where it began. *)
Lemma estimate_follows_direction_witness :
  (exists v, estimate_of_series [kline 1100 1090; kline 1090 1000] = Ok v /\
             (v <=? 50) = true) /\
  estimate_of_series [kline 1000 1010; kline 1010 1000] = Ok 50.
Proof.
  assert (L : forall a b : candle, (2 <= List.length [a; b])%nat) by (intros; cbn; lia).
  split.
  - destruct (estimate_follows_direction [kline 1100 1090; kline 1090 1000]
                (kline 1100 1090) (kline 1090 1000) 1100 1000
                (L _ _) eq_refl eq_refl eq_refl eq_refl eq_refl eq_refl eq_refl)
      as (v & E & _ & D & _).
    exists v. split; [exact E|]. apply D. reflexivity.
  - destruct (estimate_follows_direction [kline 1000 1010; kline 1010 1000]
                (kline 1000 1010) (kline 1010 1000) 1000 1000
                (L _ _) eq_refl eq_refl eq_refl eq_refl eq_refl eq_refl eq_refl)
      as (v & E & _ & _ & Q).
    rewrite E. f_equal. apply Q. reflexivity.
Defined.

(** ** Quotes on which the bot never trades *)

Lemma not_nn x : (x =? x) = false -> Prim2SF x = S754_nan.
Proof.
  intros H. destruct (Prim2SF x) as [s|s| |s m e] eqn:E; try reflexivity;
    rewrite eqb_refl_nn in H; try discriminate; unfold nn; rewrite E; discriminate.
Qed.

Lemma sub_nn_inv x y : nn (x - y) -> nn y.
Proof.
  unfold nn. rewrite FloatAxioms.sub_spec. unfold SF64sub.
  intros H E. apply H. rewrite E. now destruct (Prim2SF x).
Qed.

Lemma estimate_result_range r est :
  estimate_result r = Ok est -> (5 <=? est) = true /\ (est <=? 95) = true.
Proof.
  unfold estimate_result. destruct (klines r) as [data|e]; [|discriminate].
  apply estimate_of_series_range.
Qed.

(** The edge is at most [b] when the estimate exceeds the quote by at most
    [b], ranks being exact. *)
Lemma edge_upper est market b :
  Py.isfinite est = true -> nonneg market ->
  Py.isfinite b = true -> (0 <? b) = true ->
  (rank est - rank market <= rank b)%Z ->
  (est - market <=? b) = true.
Proof.
  intros Fe Nm Fb Pb H.
  destruct (sub_upper est market b Fe Nm Fb Pb H) as [N R].
  apply leb_intro; [exact N|apply isfinite_nn, Fb|exact R].
Qed.

Lemma rank_85_10 : (0 < rank 85)%Z /\ (rank 95 - rank 85 <= rank 10)%Z.
Proof.
  assert (H : (0 <? 85) = true) by (vm_compute; reflexivity).
  apply ltb_true in H. rewrite rank_zero in H. split; [tauto|].
  apply Z.leb_le. vm_compute. reflexivity.
Qed.

Lemma no_edge cfg est market :
  (5 <=? est) = true -> (est <=? 95) = true ->
  ((0 <=? EDGE_THRESHOLD cfg) = true /\ (est <=? market) = true) \/
  ((10 <=? EDGE_THRESHOLD cfg) = true /\ (85 <=? market) = true) \/
  ((95 <=? EDGE_THRESHOLD cfg) = true /\ (0 <=? market) = true) \/
  (market =? market) = false ->
  Py.gtb (est - market) (EDGE_THRESHOLD cfg) = false.
Proof.
  intros L5 L95 H.
  pose proof (range_isfinite est L5 L95) as Fe.
  assert (F10 : Py.isfinite 10 = true) by (vm_compute; reflexivity).
  assert (P10 : (0 <? 10) = true) by (vm_compute; reflexivity).
  assert (F95 : Py.isfinite 95 = true) by (vm_compute; reflexivity).
  assert (P95 : (0 <? 95) = true) by (vm_compute; reflexivity).
  pose proof L95 as R95. apply leb_true in R95. destruct R95 as (Ne & N95 & R95).
  destruct H as [[T M]|[[T M]|[[T M]|M]]].
  - apply leb_not_gtb. apply leb_trans with (2 := T).
    apply nonpos_leb. apply leb_true in M. destruct M as (_ & Nm & M).
    apply (sub_sign est market Fe Nm). exact M.
  - apply leb_not_gtb. apply leb_trans with (2 := T).
    apply leb_true in M. destruct M as (_ & Nm & M).
    destruct rank_85_10 as [P85 D].
    apply (edge_upper est market 10 Fe); [split; [exact Nm|lia]|exact F10|exact P10|lia].
  - apply leb_not_gtb. apply leb_trans with (2 := T).
    apply nonneg_leb in M. destruct M as [Nm M].
    apply (edge_upper est market 95 Fe); [split; [exact Nm|lia]|exact F95|exact P95|lia].
  - unfold Py.gtb. destruct (EDGE_THRESHOLD cfg <? est - market) eqn:G; [|reflexivity].
    apply ltb_true in G. destruct G as (_ & N & _). apply sub_nn_inv in N.
    apply not_nn in M. contradiction.
Qed.

(** X11.  The decision of line 149 against the range of the estimate (lines
    84-86), in binary64.  A pass that has its estimate and a quote does not
    trade, whatever [spent] is, in each of these cases: the threshold is not
    negative and the quote is not below the estimate; the threshold is at
    least 10, as shipped, and the quote is at least 85; the threshold is at
    least 95 and the quote is not negative; the quote is not a number.  The
    pass then prints the quote and that there is no trade, and sleeps;
    nothing is announced, built, posted or booked. *)
Theorem rich_market_never_trades cfg r s est market :
  estimate_result r = Ok est -> quote_result r = Ok (Some market) ->
  ((0 <=? EDGE_THRESHOLD cfg) = true /\ (est <=? market) = true) \/
  ((10 <=? EDGE_THRESHOLD cfg) = true /\ (85 <=? market) = true) \/
  ((95 <=? EDGE_THRESHOLD cfg) = true /\ (0 <=? market) = true) \/
  (market =? market) = false ->
  should_trade cfg (est - market) (spent s) = false /\
  new_events s (fst (iteration cfg r s))
  = quoted cfg est market ++ [EvPrint MNoTrade; EvSleep (LOOP_INTERVAL_SEC cfg)] /\
  spent (fst (iteration cfg r s)) = spent s.
Proof.
  intros E Q H.
  destruct (estimate_result_range r est E) as [L5 L95].
  assert (T : should_trade cfg (est - market) (spent s) = false).
  { unfold should_trade. now rewrite (no_edge cfg est market L5 L95 H). }
  split; [exact T|].
  rewrite pass_eq. cbn [fst spent]. rewrite new_events_app.
  unfold pass_events, pass_spent, executes. rewrite E, Q, T. cbn [andb].
  split; [|reflexivity]. unfold quoted. reflexivity.
Qed.

(** The estimate is 70; the venue quotes 90 cents. *)
Lemma rich_market_never_trades_witness :
  let r := {| now := 0;
              klines := Ok [kline 1000 1010; kline 1010 1100];
              price := Ok (Some (JFloat 0.9));
              signed := Ok "signed-order"%string;
              posted := Ok {| success := true; raw := "matched"%string |} |} in
  existsb is_venue_order (new_events fresh (fst (iteration wallet r fresh))) = false /\
  spent (fst (iteration wallet r fresh)) = 0.
Proof.
  cbv zeta.
  destruct (rich_market_never_trades wallet
              {| now := 0;
                 klines := Ok [kline 1000 1010; kline 1010 1100];
                 price := Ok (Some (JFloat 0.9));
                 signed := Ok "signed-order"%string;
                 posted := Ok {| success := true; raw := "matched"%string |} |}
              fresh 70 (0.9 * 100) eq_refl eq_refl
              (or_intror (or_introl (conj eq_refl eq_refl))))
    as (_ & A & B).
  split; [|exact B]. rewrite A. reflexivity.
Defined.

(** ** Feeds that are not finite *)

Lemma nonfinite_cases x :
  Py.isfinite x = false -> Prim2SF x = S754_nan \/ exists s, Prim2SF x = S754_infinity s.
Proof.
  unfold Py.isfinite. rewrite FloatAxioms.classify_spec. unfold SF64classify, SFclassify.
  destruct (Prim2SF x) as [s|s| |s m e]; eauto.
  - destruct s; discriminate.
  - destruct s; destruct (Z.pos (digits2_pos m) =? prec)%Z; discriminate.
Qed.

Lemma nan_of_spec x : Prim2SF x = S754_nan -> x = nan.
Proof. intros H. apply Prim2SF_inj. rewrite H. reflexivity. Qed.

(** An open that is not finite divides without raising and gives NaN. *)
Lemma percent_change_nonfinite_open o c :
  Py.isfinite o = false -> (o =? 0) = false /\ percent_change o c = nan.
Proof.
  intros F. split.
  - rewrite FloatAxioms.eqb_spec.
    destruct (nonfinite_cases o F) as [E|[s E]]; rewrite E; [reflexivity|].
    now destruct s.
  - apply nan_of_spec. unfold percent_change.
    rewrite FloatAxioms.mul_spec, FloatAxioms.div_spec, FloatAxioms.sub_spec.
    unfold SF64mul, SF64div, SF64sub.
    destruct (nonfinite_cases o F) as [E|[s E]]; rewrite E.
    + now destruct (Prim2SF c).
    + destruct (Prim2SF c) as [sc|sc| |sc mc ec]; destruct s; try destruct sc; reflexivity.
Qed.

Lemma percent_change_nan_close o c : (c =? c) = false -> percent_change o c = nan.
Proof.
  intros H. apply not_nn in H. apply nan_of_spec. unfold percent_change.
  rewrite FloatAxioms.mul_spec, FloatAxioms.div_spec, FloatAxioms.sub_spec.
  unfold SF64mul, SF64div, SF64sub. rewrite H. reflexivity.
Qed.

(** X12.  [get_eth_recent_change] (lines 71-74) with [estimate_up_probability]
    (lines 84-86) on a feed that is not finite.  [float()] accepts ["inf"]
    and ["nan"].  If the earliest open is an infinity or NaN, whatever the
    close, or if the open is a number other than zero and the close is NaN,
    nothing raises: the percent change is NaN, [min(95.0, nan)] is 95 and the
    estimate is 95, the top of the range. *)
Theorem nonfinite_feed_estimates_95 (data : list candle) (first last : candle) o c :
  (2 <= List.length data)%nat ->
  Py.index data 0 = Ok first -> Py.index first 1 = Ok (JFloat o) ->
  Py.index_last data = Ok last -> Py.index last 4 = Ok (JFloat c) ->
  Py.isfinite o = false \/ ((o =? 0) = false /\ (c =? c) = false) ->
  estimate_of_series data = Ok 95.
Proof.
  intros L F O Z C H. unfold estimate_of_series.
  rewrite (recent_change_wf data first last o c L F O Z C).
  destruct H as [H|[N H]].
  - destruct (percent_change_nonfinite_open o c H) as [-> ->]. reflexivity.
  - rewrite N, (percent_change_nan_close o c H). reflexivity.
Qed.

(** An open of plus infinity against a close of 1000. *)
Lemma nonfinite_feed_estimates_95_witness :
  estimate_of_series [kline infinity 1010; kline 1010 1000] = Ok 95.
Proof.
  assert (L : (2 <= List.length [kline infinity 1010; kline 1010 1000])%nat) by (cbn; lia).
  exact (nonfinite_feed_estimates_95 [kline infinity 1010; kline 1010 1000]
           (kline infinity 1010) (kline 1010 1000) infinity 1000
           L eq_refl eq_refl eq_refl eq_refl (or_introl eq_refl)).
Defined.

(** ** Where the estimate saturates *)

Lemma binary_round_aux_lower p e mA eA :
  (0 <= e + K)%Z -> canonical mA eA -> (eA <= 971)%Z ->
  (V (Zpos mA) eA <= V (Zpos p) e)%Z ->
  binary_round_aux prec emax false (Zpos p) e loc_Exact <> S754_nan /\
  (V (Zpos mA) eA <= ord (binary_round_aux prec emax false (Zpos p) e loc_Exact))%Z.
Proof.
  intros Ke C L H. pose proof (V_below_top _ _ C L) as B.
  pose proof (round2_lower p e mA eA Ke C H) as [P0 PV].
  rewrite binary_round_aux_round2.
  destruct (fst (round2 (Zpos p) e)) as [|m2|m2]; try lia.
  destruct (snd (round2 (Zpos p) e) <=? emax - prec)%Z; cbn [ord];
    (split; [congruence|lia]).
Qed.

Lemma binary_round_aux_opp m e l :
  binary_round_aux prec emax true m e l = SFopp (binary_round_aux prec emax false m e l).
Proof.
  unfold binary_round_aux.
  destruct (shr_fexp prec emax m e l) as [r e'].
  destruct (shr_fexp prec emax _ e' loc_Exact) as [r2 e2].
  destruct (shr_m r2); try reflexivity.
  now destruct (e2 <=? emax - prec)%Z.
Qed.

Lemma ord_opp x : ord (SFopp x) = (- ord x)%Z.
Proof. destruct x as [s|s| |s m e]; try destruct s; cbn [SFopp negb ord]; lia. Qed.

Lemma rank_opp x : rank (- x) = (- rank x)%Z.
Proof. unfold rank. rewrite FloatAxioms.opp_spec. apply ord_opp. Qed.

Lemma binary_normalize_lower z e mA eA :
  (0 <= e + K)%Z -> canonical mA eA -> (eA <= 971)%Z ->
  (V (Zpos mA) eA <= V z e)%Z ->
  binary_normalize prec emax z e false <> S754_nan /\
  (V (Zpos mA) eA <= ord (binary_normalize prec emax z e false))%Z.
Proof.
  intros Ke C L H. pose proof (V_below_top _ _ C L) as B.
  assert (Pz : (0 < z)%Z).
  { destruct (Z.lt_trichotomy z 0) as [N|[N|N]]; [| |exact N].
    - apply Z.lt_le_incl in N. pose proof (V_nonpos z e N). lia.
    - subst z. assert (V 0 e = 0)%Z by (unfold V; lia). lia. }
  destruct z as [|p|p]; try lia. cbn [binary_normalize]. unfold binary_round.
  set (f := fexp prec emax (Zpos (digits2_pos p) + e)).
  assert (Kf : (0 <= f + K)%Z) by (unfold f; rewrite fexp64; unfold K; lia).
  destruct (shl_align_spec p e f Ke Kf) as [S1 S2].
  destruct (shl_align p e f) as [mz ez]. cbn [fst snd] in *.
  apply binary_round_aux_lower; try assumption; lia.
Qed.

(** Sums against exact bounds, for a positive finite first operand. *)
Lemma add_bounds x y b :
  Py.isfinite x = true -> (0 <? x) = true -> nn y ->
  Py.isfinite b = true -> (0 <? b) = true ->
  ((rank b <= rank x + rank y)%Z -> (b <=? x + y) = true) /\
  ((rank x + rank y <= rank b)%Z -> (x + y <=? b) = true).
Proof.
  intros Fx Px Ny Fb Pb. pose proof top_pos as T.
  destruct (positive_finite_cases x Fx Px) as (mx & ex & Ex & Cx & Lx).
  destruct (positive_finite_cases b Fb Pb) as (mb & eb & Eb & Cb & Lb).
  pose proof (V_below_top _ _ Cx Lx) as Bx. pose proof (V_below_top _ _ Cb Lb) as Bb.
  pose proof (Prim2SF_valid y) as Vy.
  pose proof (isfinite_nn b Fb) as Nb.
  assert (R : ((rank b <= rank x + rank y)%Z -> nn (x + y) /\ (rank b <= rank (x + y))%Z) /\
              ((rank x + rank y <= rank b)%Z -> nn (x + y) /\ (rank (x + y) <= rank b)%Z)).
  { unfold nn, rank in *. rewrite FloatAxioms.add_spec. unfold SF64add. rewrite Ex, Eb in *.
    change (ord (S754_finite false mx ex)) with (V (Zpos mx) ex) in *.
    change (ord (S754_finite false mb eb)) with (V (Zpos mb) eb) in *.
    destruct (Prim2SF y) as [sy|sy| |sy my ey]; try congruence.
    - cbn [SFadd ord]. split; intros H; (split; [congruence|lia]).
    - cbn [SFadd]. destruct sy; cbn [ord]; split; intros H; try lia;
        (split; [congruence|lia]).
    - apply valid_finite in Vy. destruct Vy as [Cy Ly].
      destruct (SFadd_finite false mx ex sy my ey Cx Cy) as (z & -> & Hz & Kz).
      change (ord (S754_finite false mx ex)) with (V (Zpos mx) ex) in *.
      split; intros H.
      + apply binary_normalize_lower; try assumption; lia.
      + apply binary_normalize_upper; try assumption; lia. }
  destruct R as [R1 R2].
  split; intros H; [destruct (R1 H)|destruct (R2 H)]; apply leb_intro; assumption.
Qed.

Lemma double_value m e :
  (-1074 <= e)%Z ->
  V (Zpos (m * 4503599627370496)) (e + -51) = (2 * V (Zpos m) e)%Z.
Proof.
  intros L. unfold V. rewrite Pos2Z.inj_mul.
  change (Zpos 4503599627370496) with (2 ^ 52)%Z.
  replace (e + K)%Z with (e + -51 + K + 51)%Z by lia.
  rewrite (Z.pow_add_r 2 (e + -51 + K) 51) by (unfold K; lia).
  change (2 ^ 52)%Z with (2 * 2 ^ 51)%Z. ring.
Qed.

(** Doubling, against exact bounds: [a <= c] gives [2a <= c * 2], and
    [c <= -a] gives [c * 2 <= -2a]. *)
Lemma double_bounds c a a2 :
  Py.isfinite a = true -> (0 <? a) = true ->
  Py.isfinite a2 = true -> (0 <? a2) = true ->
  (rank a2 <= 2 * rank a)%Z ->
  ((a <=? c) = true -> nn (c * 2) /\ (rank a2 <= rank (c * 2))%Z) /\
  ((c <=? - a) = true -> nn (c * 2) /\ (rank (c * 2) <= - rank a2)%Z).
Proof.
  intros Fa Pa Fa2 Pa2 D. pose proof top_pos as T.
  destruct (positive_finite_cases a2 Fa2 Pa2) as (m2 & e2 & E2 & C2 & L2).
  pose proof (V_below_top _ _ C2 L2) as B2.
  apply ltb_true in Pa. destruct Pa as (_ & _ & Pa). rewrite rank_zero in Pa.
  pose proof (Prim2SF_valid c) as Vc.
  assert (G : forall s mc ec,
             Prim2SF c = S754_finite s mc ec -> (rank a <= V (Zpos mc) ec)%Z ->
             binary_round_aux prec emax false (Zpos (mc * 4503599627370496)) (ec + -51) loc_Exact
             <> S754_nan /\
             (V (Zpos m2) e2 <=
              ord (binary_round_aux prec emax false (Zpos (mc * 4503599627370496))
                     (ec + -51) loc_Exact))%Z).
  { intros s mc ec E H. rewrite E in Vc. apply valid_finite in Vc. destruct Vc as [Cc Lc].
    pose proof (proj1 (canonical_eq _ _) Cc) as Cc'.
    apply binary_round_aux_lower; try assumption.
    - unfold K. lia.
    - rewrite double_value by lia. unfold rank in D at 1. rewrite E2 in D.
      cbn [ord] in D. lia. }
  split; intros H; apply leb_true in H; destruct H as (N1 & N2 & H);
    unfold nn, rank in *; rewrite ?FloatAxioms.opp_spec, ?ord_opp in *;
    rewrite FloatAxioms.mul_spec; unfold SF64mul; rewrite Prim2SF_2;
    rewrite E2 in *; change (ord (S754_finite false m2 e2)) with (V (Zpos m2) e2) in *;
    destruct (Prim2SF c) as [sc|sc| |sc mc ec] eqn:Ec; try congruence;
    cbn [ord] in H; try lia.
  - destruct sc; cbn [ord] in H; try lia. cbn [SFmul xorb ord]. split; [congruence|lia].
  - destruct sc; cbn [ord] in H.
    + pose proof (V_nonneg mc ec). lia.
    + cbn [SFmul xorb]. apply (G false mc ec eq_refl). exact H.
  - destruct sc; cbn [ord] in H; try lia. cbn [SFmul xorb ord]. split; [congruence|lia].
  - destruct sc; cbn [ord] in H.
    + cbn [SFmul xorb]. rewrite binary_round_aux_opp, ord_opp.
      destruct (G true mc ec eq_refl ltac:(lia)) as [G1 G2].
      split; [|lia].
      destruct (binary_round_aux prec emax false _ _ loc_Exact); cbn [SFopp]; congruence.
    + pose proof (V_nonneg mc ec). lia.
Qed.

Lemma estimate_of_change_saturates c :
  ((22.5 <=? c) = true -> estimate_of_change c = 95) /\
  ((c <=? - 22.5) = true -> estimate_of_change c = 5).
Proof.
  assert (F : forall x, In x [5; 22.5; 45; 50; 95] ->
                        Py.isfinite x = true /\ (0 <? x) = true).
  { intros x H. cbn [In] in H.
    repeat (destruct H as [<-|H]; [split; vm_compute; reflexivity|]). destruct H. }
  assert (F5 := F 5 ltac:(cbn; tauto)). assert (F22 := F 22.5 ltac:(cbn; tauto)).
  assert (F45 := F 45 ltac:(cbn; tauto)). assert (F50 := F 50 ltac:(cbn; tauto)).
  assert (F95 := F 95 ltac:(cbn; tauto)). clear F.
  assert (D : (rank 45 <= 2 * rank 22.5)%Z) by (apply Z.leb_le; vm_compute; reflexivity).
  assert (U : (rank 95 <= rank 50 + rank 45)%Z) by (apply Z.leb_le; vm_compute; reflexivity).
  assert (L : (rank 50 - rank 45 <= rank 5)%Z) by (apply Z.leb_le; vm_compute; reflexivity).
  pose proof rank_5_95 as R595. pose proof nn_5 as N5. pose proof nn_95 as N95.
  destruct (double_bounds c 22.5 45 (proj1 F22) (proj2 F22) (proj1 F45) (proj2 F45) D)
    as [Up Down].
  unfold estimate_of_change, Py.max, Py.min, Py.gtb. cbv zeta.
  split; intros H.
  - destruct (Up H) as [Nt Rt].
    destruct (add_bounds 50 (c * 2) 95 (proj1 F50) (proj2 F50) Nt (proj1 F95) (proj2 F95))
      as [A _].
    specialize (A ltac:(lia)). apply leb_true in A. destruct A as (_ & Nb & A).
    rewrite (ltb_rank _ _ Nb N95).
    replace (rank (50 + c * 2) <? rank 95)%Z with false by (symmetry; apply Z.ltb_ge; lia).
    reflexivity.
  - destruct (Down H) as [Nt Rt].
    destruct (add_bounds 50 (c * 2) 5 (proj1 F50) (proj2 F50) Nt (proj1 F5) (proj2 F5))
      as [_ A].
    specialize (A ltac:(lia)). apply leb_true in A. destruct A as (Nb & _ & A).
    rewrite (ltb_rank _ _ Nb N95).
    replace (rank (50 + c * 2) <? rank 95)%Z with true by (symmetry; apply Z.ltb_lt; lia).
    rewrite (ltb_rank _ _ N5 Nb).
    replace (rank 5 <? rank (50 + c * 2))%Z with false by (symmetry; apply Z.ltb_ge; lia).
    reflexivity.
Qed.

(** X13.  [estimate_up_probability] (lines 84-86), in binary64.  A percent change
    of 22.5 or more, plus infinity included, gives the estimate 95 exactly,
    and a percent change of -22.5 or less, minus infinity included, gives 5
    exactly: beyond a move of 22.5 per cent either way the estimate no
    longer depends on the size of the move. *)
Theorem estimate_saturates (data : list candle) c :
  recent_change data = Ok c ->
  ((22.5 <=? c) = true -> estimate_of_series data = Ok 95) /\
  ((c <=? - 22.5) = true -> estimate_of_series data = Ok 5).
Proof.
  intros R. unfold estimate_of_series. rewrite R.
  destruct (estimate_of_change_saturates c) as [A B].
  split; intros H; f_equal; auto.
Qed.

(** A rise from 1000 to 1300 and a fall from 1000 to 700. *)
Lemma estimate_saturates_witness :
  estimate_of_series [kline 1000 1010; kline 1010 1300] = Ok 95 /\
  estimate_of_series [kline 1000 1010; kline 1010 700] = Ok 5.
Proof.
  split.
  - apply (proj1 (estimate_saturates [kline 1000 1010; kline 1010 1300]
                    (percent_change 1000 1300) eq_refl)).
    reflexivity.
  - apply (proj2 (estimate_saturates [kline 1000 1010; kline 1010 700]
                    (percent_change 1000 700) eq_refl)).
    reflexivity.
Defined.

(** ** Quotes on which the bot always trades *)

(** Differences against an exact lower bound, for a positive finite first
    operand. *)
Lemma sub_lower x y b :
  Py.isfinite x = true -> (0 <? x) = true -> nn y ->
  Py.isfinite b = true -> (0 <? b) = true ->
  (rank b <= rank x - rank y)%Z ->
  (b <=? x - y) = true.
Proof.
  intros Fx Px Ny Fb Pb H. pose proof top_pos as T.
  destruct (positive_finite_cases x Fx Px) as (mx & ex & Ex & Cx & Lx).
  destruct (positive_finite_cases b Fb Pb) as (mb & eb & Eb & Cb & Lb).
  pose proof (V_below_top _ _ Cx Lx) as Bx. pose proof (V_below_top _ _ Cb Lb) as Bb.
  pose proof (Prim2SF_valid y) as Vy.
  pose proof (isfinite_nn b Fb) as Nb.
  assert (R : nn (x - y) /\ (rank b <= rank (x - y))%Z).
  { unfold nn, rank in *. rewrite FloatAxioms.sub_spec. unfold SF64sub. rewrite Ex, Eb in *.
    change (ord (S754_finite false mx ex)) with (V (Zpos mx) ex) in *.
    change (ord (S754_finite false mb eb)) with (V (Zpos mb) eb) in *.
    destruct (Prim2SF y) as [sy|sy| |sy my ey]; try congruence.
    - cbn [SFsub ord] in *. split; [congruence|lia].
    - cbn [SFsub]. destruct sy; cbn [negb ord] in *; try lia. split; [congruence|lia].
    - apply valid_finite in Vy. destruct Vy as [Cy Ly].
      destruct (SFsub_finite false mx ex sy my ey Cx Cy) as (z & -> & Hz & Kz).
      change (ord (S754_finite false mx ex)) with (V (Zpos mx) ex) in *.
      apply binary_normalize_lower; try assumption; lia. }
  destruct R as [N R]. apply leb_intro; assumption.
Qed.

Lemma rank_39_11 : (rank 10 < rank 11)%Z /\ (rank 11 <= rank 50 - rank 39)%Z.
Proof.
  assert (H : (10 <? 11) = true) by (vm_compute; reflexivity).
  apply ltb_true in H. split; [tauto|].
  apply Z.leb_le. vm_compute. reflexivity.
Qed.

Lemma sure_edge cfg est market :
  (5 <=? est) = true -> (est <=? 95) = true ->
  (EDGE_THRESHOLD cfg <=? 10) = true -> (50 <=? est) = true -> (market <=? 39) = true ->
  Py.gtb (est - market) (EDGE_THRESHOLD cfg) = true.
Proof.
  intros L5 L95 T E M.
  pose proof (range_isfinite est L5 L95) as Fe.
  assert (F11 : Py.isfinite 11 = true) by (vm_compute; reflexivity).
  assert (P11 : (0 <? 11) = true) by (vm_compute; reflexivity).
  destruct rank_39_11 as [R10 R11]. pose proof rank_5_pos as R5.
  apply leb_true in T, E, M, L5.
  destruct T as (Nt & _ & T), E as (_ & Ne & E), M as (Nm & _ & M), L5 as (_ & _ & L5).
  assert (Pe : (0 <? est) = true).
  { apply ltb_intro; auto. - unfold nn. rewrite Prim2SF_zero. discriminate.
    - rewrite rank_zero. lia. }
  pose proof (sub_lower est market 11 Fe Pe Nm F11 P11 ltac:(lia)) as G.
  apply leb_true in G. destruct G as (_ & Ng & G).
  unfold Py.gtb. apply ltb_intro; auto. lia.
Qed.

(** X14.  The decision of line 149 against the estimate (lines 84-86), in
    binary64.  With a threshold of at most 10, as shipped, a pass whose
    estimate is at least 50 (the close is not below the open) and whose quote
    is at most 39 sees an edge whatever the two numbers are exactly; so, the
    budget allowing, it announces the edge, builds an order if [ORDER_SIZE]
    is not [<= 0], and books [ORDER_SIZE] if the order call returns. *)
Theorem cheap_market_is_bought cfg r s est market :
  estimate_result r = Ok est -> quote_result r = Ok (Some market) ->
  (EDGE_THRESHOLD cfg <=? 10) = true ->
  (50 <=? est) = true -> (market <=? 39) = true ->
  (spent s + ORDER_SIZE cfg <=? MAX_HOURLY_SPEND cfg) = true ->
  let evs := new_events s (fst (iteration cfg r s)) in
  should_trade cfg (est - market) (spent s) = true /\
  count is_edge_detected evs = 1%nat /\
  ((ORDER_SIZE cfg <=? 0) = false -> count is_create_order evs = 1%nat) /\
  (forall resp, order_result r (ORDER_SIZE cfg) = Ok resp ->
                spent (fst (iteration cfg r s)) = spent s + ORDER_SIZE cfg).
Proof.
  intros E Q T L M B. cbv zeta.
  destruct (estimate_result_range r est E) as [L5 L95].
  assert (G : should_trade cfg (est - market) (spent s) = true).
  { unfold should_trade. now rewrite (sure_edge cfg est market L5 L95 T L M), B. }
  split; [exact G|].
  rewrite pass_eq. cbn [fst spent]. rewrite new_events_app.
  unfold pass_events, pass_spent, executes, quoted, order_events, order_result.
  rewrite E, Q, G. cbn [andb].
  split; [|split].
  - destruct (ORDER_SIZE cfg <=? 0);
      [|destruct (signed r) as [sg|e]; [destruct (posted r) as [resp|e]|]]; reflexivity.
  - intros ->.
    destruct (signed r) as [sg|e]; [destruct (posted r) as [resp|e]|]; reflexivity.
  - intros resp H. unfold order_result in H. now rewrite H.
Qed.

(** The estimate is 70, the venue quotes 30 cents and accepts the order. *)
Lemma cheap_market_is_bought_witness :
  let r := {| now := 0;
              klines := Ok [kline 1000 1010; kline 1010 1100];
              price := Ok (Some (JFloat 0.3));
              signed := Ok "signed-order"%string;
              posted := Ok {| success := true; raw := "matched"%string |} |} in
  should_trade wallet (70 - 0.3 * 100) 0 = true /\
  spent (fst (iteration wallet r fresh)) = 0 + 5.
Proof.
  cbv zeta.
  destruct (cheap_market_is_bought wallet
              {| now := 0;
                 klines := Ok [kline 1000 1010; kline 1010 1100];
                 price := Ok (Some (JFloat 0.3));
                 signed := Ok "signed-order"%string;
                 posted := Ok {| success := true; raw := "matched"%string |} |}
              fresh 70 (0.3 * 100) eq_refl eq_refl eq_refl eq_refl eq_refl eq_refl)
    as (A & _ & _ & D).
  exact (conj A (D _ eq_refl)).
Defined.

(** ** The quote reader on any answer *)

(** X15.  [get_polymarket_price] (lines 89-96) on whatever the venue answers.
    It asks the venue exactly once.  It raises what the lookup raised, or
    what [float()] raises on a price it does not convert: [ValueError] on a
    string that is not a number, [TypeError] on an array or an object,
    [OverflowError] on an integer beyond the float range; otherwise it
    returns.  It neither checks nor clamps a price: a price that is not
    positive gives a quote that is not positive, a price that is not negative
    a quote that is not negative, and NaN gives NaN. *)
Theorem quote_reader_any_answer r tok s :
  new_events s (fst (get_polymarket_price r tok s)) = [EvGetPrice tok] /\
  spent (fst (get_polymarket_price r tok s)) = spent s /\
  (forall e, snd (get_polymarket_price r tok s) = Raise e <->
             price r = Raise e \/
             (price r = Ok (Some JBad) /\ e = ValueError) \/
             (price r = Ok (Some JOther) /\ e = TypeError) \/
             (price r = Ok (Some JHuge) /\ e = OverflowError)) /\
  (forall p, price r = Ok (Some (JFloat p)) ->
             snd (get_polymarket_price r tok s) = Ok (Some (p * 100)) /\
             ((p <=? 0) = true -> (p * 100 <=? 0) = true) /\
             ((0 <=? p) = true -> (0 <=? p * 100) = true) /\
             ((p =? p) = false -> (p * 100 =? p * 100) = false)).
Proof.
  rewrite quote_eq. cbn [fst snd]. rewrite new_events_push.
  split; [reflexivity|]. split; [reflexivity|]. unfold quote_result. split.
  - intros e. destruct (price r) as [[[p| | |]|]|e']; cbn [quote_of_price Py.float_of];
      (split; intros H;
       [try discriminate; try (injection H as <-); auto 8
       |destruct H as [H|[[H1 H2]|[[H1 H2]|[H1 H2]]]]; try discriminate;
        try (injection H as ->); subst; reflexivity]).
  - intros p ->. cbn [quote_of_price Py.float_of]. split; [reflexivity|].
    destruct (mul_positive_sign p 100 _ _ Prim2SF_100) as [M1 M2].
    split; [|split].
    + intros H. apply nonpos_leb, M2, nonpos_leb, H.
    + intros H. apply nonneg_leb, M1, nonneg_leb, H.
    + intros H. apply not_nn in H.
      destruct (p * 100 =? p * 100) eqn:G; [|reflexivity].
      assert (N : Prim2SF (p * 100) = S754_nan).
      { rewrite FloatAxioms.mul_spec. unfold SF64mul. now rewrite H. }
      rewrite FloatAxioms.eqb_spec, N in G. discriminate G.
Qed.

(** A price that is an object, and a negative price. *)
Lemma quote_reader_any_answer_witness :
  let bad := {| now := 0; klines := Ok []; price := Ok (Some JOther);
                signed := Ok "signed-order"%string;
                posted := Raise PolyApiException |} in
  snd (get_polymarket_price bad "UP" fresh) = Raise TypeError /\
  ((-0.2) * 100 <=? 0) = true.
Proof.
  cbv zeta.
  destruct (quote_reader_any_answer
              {| now := 0; klines := Ok []; price := Ok (Some JOther);
                 signed := Ok "signed-order"%string;
                 posted := Raise PolyApiException |} "UP" fresh)
    as (_ & _ & A & _).
  destruct (quote_reader_any_answer
              {| now := 0; klines := Ok []; price := Ok (Some (JFloat (-0.2)));
                 signed := Ok "signed-order"%string;
                 posted := Raise PolyApiException |} "UP" fresh)
    as (_ & _ & _ & B).
  destruct (B (-0.2) eq_refl) as (_ & C & _).
  exact (conj (proj2 (A TypeError)
                 (or_intror (or_intror (or_introl (conj eq_refl eq_refl)))))
              (C eq_refl)).
Defined.
